(** * Tax-code: the USLM parser of Title 26, embedded and verified

    A shallow embedding of [src/parser.py] and [src/models.py]:
    the citation resolver, the text normaliser and table converter, the
    status classifier, the cross-reference extractor and the recursive tree
    builder with its counters; and of the code that reads the tree: the
    methods of [LegalNode] and [ParsedTaxCode], the flattening functions
    and batch loops of [src/graph.py], where the database is the list of
    rows sent to it, and the statistics and the hierarchy printed by
    [src/main.py], as the lines printed.

    Python [str] values are modelled as [string]; the character classes of
    [str.strip], [str.lower] and the [re] module are given on the ASCII
    range.  An absent [Optional[str]] is [None]; an lxml [text] or [tail]
    that is [None] is the empty string, since the source only ever tests
    them for truthiness or joins them. *)

From Stdlib Require Import Bool Arith ZArith Lia List Ascii String.
Import ListNotations.

Open Scope list_scope.
Open Scope string_scope.

(** ** Python string primitives *)

Module Py.

(** [str.isspace] on one ASCII character: TAB, LF, VT, FF, CR, the four
    separators FS GS RS US, and SPACE. *)
Definition isspace (c : ascii) : bool :=
  let n := nat_of_ascii c in
  ((9 <=? n) && (n <=? 13) || (28 <=? n) && (n <=? 31) || (n =? 32))%nat.

Definition isdigit (c : ascii) : bool :=
  let n := nat_of_ascii c in ((48 <=? n) && (n <=? 57))%nat.

Definition isupper (c : ascii) : bool :=
  let n := nat_of_ascii c in ((65 <=? n) && (n <=? 90))%nat.

Definition islower (c : ascii) : bool :=
  let n := nat_of_ascii c in ((97 <=? n) && (n <=? 122))%nat.

Definition isalpha (c : ascii) : bool := isupper c || islower c.

(** [\w] of the [re] module. *)
Definition isword (c : ascii) : bool :=
  isalpha c || isdigit c || Ascii.eqb c "_".

Definition lower_char (c : ascii) : ascii :=
  if isupper c then ascii_of_nat (nat_of_ascii c + 32) else c.

Definition upper_char (c : ascii) : ascii :=
  if islower c then ascii_of_nat (nat_of_ascii c - 32) else c.

(** [s.lower()] *)
Fixpoint lower (s : string) : string :=
  match s with
  | EmptyString => EmptyString
  | String c s' => String (lower_char c) (lower s')
  end.

(** [s.startswith(p)] *)
Fixpoint startswith (p s : string) : bool :=
  match p with
  | EmptyString => true
  | String a p' =>
      match s with
      | EmptyString => false
      | String b s' => Ascii.eqb a b && startswith p' s'
      end
  end.

(** [sub in s] *)
Fixpoint contains (sub s : string) : bool :=
  startswith sub s ||
  match s with
  | EmptyString => false
  | String _ s' => contains sub s'
  end.

(** [c in s] for one character. *)
Fixpoint has_char (c : ascii) (s : string) : bool :=
  match s with
  | EmptyString => false
  | String b s' => Ascii.eqb c b || has_char c s'
  end.

(** [s[n:]] *)
Fixpoint drop (n : nat) (s : string) : string :=
  match n, s with
  | O, _ => s
  | S _, EmptyString => EmptyString
  | S n', String _ s' => drop n' s'
  end.

(** [s[:n]] *)
Fixpoint take (n : nat) (s : string) : string :=
  match n, s with
  | O, _ => EmptyString
  | S _, EmptyString => EmptyString
  | S n', String c s' => String c (take n' s')
  end.

(** [s[i:j]] for [0 <= i] and [0 <= j]. *)
Definition slice (i j : nat) (s : string) : string := take (j - i) (drop i s).

Fixpoint lstrip_by (p : ascii -> bool) (s : string) : string :=
  match s with
  | EmptyString => EmptyString
  | String c s' => if p c then lstrip_by p s' else s
  end.

Fixpoint rstrip_by (p : ascii -> bool) (s : string) : string :=
  match s with
  | EmptyString => EmptyString
  | String c s' =>
      match rstrip_by p s' with
      | EmptyString => if p c then EmptyString else String c EmptyString
      | r => String c r
      end
  end.

Definition strip_by (p : ascii -> bool) (s : string) : string :=
  rstrip_by p (lstrip_by p s).

(** [s.strip()] *)
Definition strip (s : string) : string := strip_by isspace s.

(** [s.strip(chars)] *)
Definition strip_chars (chars s : string) : string :=
  strip_by (fun c => has_char c chars) s.

(** [s.split(sep)] for a one-character separator. *)
Fixpoint split (sep : ascii) (s : string) : list string :=
  match s with
  | EmptyString => [EmptyString]
  | String c s' =>
      if Ascii.eqb c sep then EmptyString :: split sep s'
      else match split sep s' with
           | [] => [String c EmptyString]
           | p :: ps => String c p :: ps
           end
  end.

(** [sep.join(l)] *)
Fixpoint join (sep : string) (l : list string) : string :=
  match l with
  | [] => EmptyString
  | [x] => x
  | x :: l' => x ++ sep ++ join sep l'
  end.

(** [s.replace(c, by)] for a one-character pattern. *)
Fixpoint replace_char (c : ascii) (by_ : string) (s : string) : string :=
  match s with
  | EmptyString => EmptyString
  | String b s' =>
      if Ascii.eqb b c then by_ ++ replace_char c by_ s'
      else String b (replace_char c by_ s')
  end.

(** Truthiness of a [str]. *)
Definition truthy (s : string) : bool :=
  match s with EmptyString => false | _ => true end.

(** [x or d] for an [Optional[str]]. *)
Definition or_else (x : option string) (d : string) : string :=
  match x with
  | Some s => if truthy s then s else d
  | None => d
  end.

(** [s.capitalize()] *)
Definition capitalize (s : string) : string :=
  match s with
  | EmptyString => EmptyString
  | String c s' => String (upper_char c) (lower s')
  end.

End Py.

(** ** models.py: the enumerations *)

Inductive NodeType :=
| TITLE | SUBTITLE | CHAPTER | SUBCHAPTER | PART | SUBPART
| SECTION | SUBSECTION | PARAGRAPH | SUBPARAGRAPH | CLAUSE.

Inductive NodeStatus := ACTIVE | REPEALED | EXPIRED | RESERVED.

Definition NodeType_eqb (a b : NodeType) : bool :=
  match a, b with
  | TITLE, TITLE | SUBTITLE, SUBTITLE | CHAPTER, CHAPTER
  | SUBCHAPTER, SUBCHAPTER | PART, PART | SUBPART, SUBPART
  | SECTION, SECTION | SUBSECTION, SUBSECTION | PARAGRAPH, PARAGRAPH
  | SUBPARAGRAPH, SUBPARAGRAPH | CLAUSE, CLAUSE => true
  | _, _ => false
  end.

Definition NodeStatus_eqb (a b : NodeStatus) : bool :=
  match a, b with
  | ACTIVE, ACTIVE | REPEALED, REPEALED
  | EXPIRED, EXPIRED | RESERVED, RESERVED => true
  | _, _ => false
  end.

(** [node_type.value] *)
Definition NodeType_value (t : NodeType) : string :=
  match t with
  | TITLE => "title" | SUBTITLE => "subtitle" | CHAPTER => "chapter"
  | SUBCHAPTER => "subchapter" | PART => "part" | SUBPART => "subpart"
  | SECTION => "section" | SUBSECTION => "subsection"
  | PARAGRAPH => "paragraph" | SUBPARAGRAPH => "subparagraph"
  | CLAUSE => "clause"
  end.

(** ** parser.py: [_build_citation_id] *)

(** [re.sub(r"^Sec\.?\s*", "", num)]: the anchored pattern can match at
    offset 0 only, greedily takes the optional dot and the whitespace run,
    and the match is replaced by nothing. *)
Definition sub_sec_prefix (num : string) : string :=
  if Py.startswith "Sec" num then
    let rest := Py.drop 3 num in
    let rest := if Py.startswith "." rest then Py.drop 1 rest else rest in
    Py.lstrip_by Py.isspace rest
  else num.

(** One turn of the [for part in parts[3:]] loop; the state is
    [(in_section, section_parts)]. *)
Definition citation_step (st : bool * list string) (part : string)
  : bool * list string :=
  let '(in_section, section_parts) := st in
  if Py.startswith "s" part then (true, List.app section_parts [Py.drop 1 part])
  else if Py.startswith "st" part then st
  else if Py.startswith "ch" part then st
  else if Py.startswith "sch" part then st
  else if Py.startswith "pt" part then st
  else if Py.startswith "spt" part then st
  else if in_section then (in_section, List.app section_parts ["(" ++ part ++ ")"])
  else st.

Definition citation_loop (parts : list string) : list string :=
  snd (fold_left citation_step parts (false, [])).

Definition citation_fallback (num : option string) (identifier : string)
  : string :=
  match num with
  | Some n =>
      if Py.truthy n then "26 USC " ++ sub_sec_prefix n
      else "26 USC " ++ identifier
  | None => "26 USC " ++ identifier
  end.

Definition _build_citation_id
  (node_type : NodeType) (num : option string) (identifier : string)
  : string :=
  if negb (Py.truthy identifier) then "26 USC " ++ Py.or_else num "unknown"
  else
    let parts := Py.split "/" (Py.strip_chars "/" identifier) in
    if (4 <=? List.length parts)%nat
       && String.eqb (nth 0 parts "") "us"
       && String.eqb (nth 1 parts "") "usc"
    then
      let section_parts := citation_loop (skipn 3 parts) in
      match section_parts with
      | _ :: _ => "26 USC " ++ Py.join "" section_parts
      | [] => citation_fallback num identifier
      end
    else citation_fallback num identifier.

(** ** The lxml element tree *)

(** [elem.tag] is a qualified name for an element and a non-string object
    for a comment or processing instruction, which is why the source guards
    every [etree.QName(elem.tag).localname] with [isinstance(elem.tag, str)]. *)
Inductive xtag :=
| QName (namespace localname : string)
| NotStr.

#[warnings="-register-all"]
Inductive element :=
| Element (tag : xtag) (attrib : list (string * string))
          (text tail : string) (children : list element).

Definition tag (e : element) : xtag :=
  match e with Element t _ _ _ _ => t end.
Definition attrib (e : element) : list (string * string) :=
  match e with Element _ a _ _ _ => a end.
Definition text (e : element) : string :=
  match e with Element _ _ t _ _ => t end.
Definition tail (e : element) : string :=
  match e with Element _ _ _ t _ => t end.
Definition children (e : element) : list element :=
  match e with Element _ _ _ _ cs => cs end.

Definition USLM_NS : string := "http://xml.house.gov/schemas/uslm/1.0".
Definition XHTML_NS : string := "http://www.w3.org/1999/xhtml".

(** The value the source calls [tag]: the local name when the tag is a
    string, the tag object itself otherwise. *)
Definition local_tag (e : element) : option string :=
  match tag e with
  | QName _ l => Some l
  | NotStr => None
  end.

Definition local_is (name : string) (e : element) : bool :=
  match local_tag e with
  | Some l => String.eqb l name
  | None => false
  end.

Definition has_qname (ns name : string) (e : element) : bool :=
  match tag e with
  | QName n l => String.eqb n ns && String.eqb l name
  | NotStr => false
  end.

(** [elem.get(key, "")] *)
Fixpoint get_attr (key : string) (a : list (string * string)) : string :=
  match a with
  | [] => ""
  | (k, v) :: a' => if String.eqb k key then v else get_attr key a'
  end.

(** [elem.iter()]: the element and its descendants in document order. *)
Fixpoint iter (e : element) : list element :=
  match e with
  | Element _ _ _ _ cs => e :: flat_map iter cs
  end.

(** [elem.find("ns:name", NAMESPACES)] and [elem.find("name")]: the first
    child with that qualified name. *)
Definition find_child (ns name : string) (e : element) : option element :=
  List.find (has_qname ns name) (children e).

(** [elem.find(".//ns:name", NAMESPACES)] and [elem.find(".//name")]: the
    first proper descendant, in document order, with that qualified name. *)
Definition find_desc (ns name : string) (e : element) : option element :=
  List.find (has_qname ns name) (flat_map iter (children e)).

(** [elem.itertext()]: an element yields its text, then for every child the
    child's own sequence followed by the child's tail.  A comment or
    processing instruction yields no text of its own. *)
Fixpoint itertext (e : element) : list string :=
  match e with
  | Element NotStr _ _ _ _ => []
  | Element (QName _ _) _ txt _ cs =>
      txt :: flat_map (fun c => List.app (itertext c) [tail c]) cs
  end.

Definition nl : string := String (ascii_of_nat 10) "".

(** ** html.unescape *)

Module Html.

(** [chr(n)], a code point as its UTF-8 bytes. *)
Definition chr (n : N) : string :=
  let b (x : N) := String (ascii_of_N x) "" in
  (if n <? 128 then b n
   else if n <? 2048 then b (192 + n / 64) ++ b (128 + n mod 64)
   else if n <? 65536 then
     b (224 + n / 4096) ++ b (128 + (n / 64) mod 64) ++ b (128 + n mod 64)
   else
     b (240 + n / 262144) ++ b (128 + (n / 4096) mod 64)
       ++ b (128 + (n / 64) mod 64) ++ b (128 + n mod 64))%N.

(** An excerpt of [html.entities.html5], which has 2231 names; a name that
    is not listed here is handled as an unknown name. *)
Definition html5 : list (string * N) :=
  [ ("amp;", 38); ("amp", 38); ("AMP;", 38); ("AMP", 38);
    ("lt;", 60); ("lt", 60); ("LT;", 60); ("LT", 60);
    ("gt;", 62); ("gt", 62); ("GT;", 62); ("GT", 62);
    ("quot;", 34); ("quot", 34); ("QUOT;", 34); ("QUOT", 34);
    ("apos;", 39); ("nbsp;", 160); ("nbsp", 160);
    ("sect;", 167); ("sect", 167); ("para;", 182); ("para", 182);
    ("copy;", 169); ("copy", 169); ("reg;", 174); ("reg", 174);
    ("ndash;", 8211); ("mdash;", 8212); ("lsquo;", 8216); ("rsquo;", 8217);
    ("ldquo;", 8220); ("rdquo;", 8221); ("hellip;", 8230) ]%N.

Fixpoint html5_get (name : string) (t : list (string * N)) : option string :=
  match t with
  | [] => None
  | (k, v) :: t' => if String.eqb k name then Some (chr v) else html5_get name t'
  end.

(** [_invalid_charrefs]: code points that decode to another character. *)
Definition _invalid_charrefs : list (N * N) :=
  [ (0, 65533); (13, 13); (128, 8364); (129, 129); (130, 8218); (131, 402);
    (132, 8222); (133, 8230); (134, 8224); (135, 8225); (136, 710);
    (137, 8240); (138, 352); (139, 8249); (140, 338); (141, 141);
    (142, 381); (143, 143); (144, 144); (145, 8216); (146, 8217);
    (147, 8220); (148, 8221); (149, 8226); (150, 8211); (151, 8212);
    (152, 732); (153, 8482); (154, 353); (155, 8250); (156, 339);
    (157, 157); (158, 382); (159, 376) ]%N.

Fixpoint invalid_charref (n : N) (t : list (N * N)) : option N :=
  match t with
  | [] => None
  | (k, v) :: t' => if N.eqb k n then Some v else invalid_charref n t'
  end.

(** [num in _invalid_codepoints] *)
Definition invalid_codepoint (n : N) : bool :=
  ((1 <=? n) && (n <=? 8) || (14 <=? n) && (n <=? 31)
   || (127 <=? n) && (n <=? 159) || (64976 <=? n) && (n <=? 65007)
   || (n =? 11)
   || (65534 <=? n mod 65536) && (n <=? 1114111))%N.

Definition ishex (c : ascii) : bool :=
  let n := nat_of_ascii c in
  (Py.isdigit c || (65 <=? n) && (n <=? 70) || (97 <=? n) && (n <=? 102))%nat.

Definition hexval (c : ascii) : N :=
  let n := N_of_ascii c in
  (if Py.isdigit c then n - 48
   else if 97 <=? n then n - 87 else n - 55)%N.

(** [int(s, base)] on a string of digits of that base. *)
Fixpoint int_of (base : N) (acc : N) (s : string) : N :=
  match s with
  | EmptyString => acc
  | String c s' => int_of base (acc * base + hexval c)%N s'
  end.

(** The longest prefix whose characters satisfy [p], at most [n] long. *)
Fixpoint span (p : ascii -> bool) (n : nat) (s : string) : string :=
  match n, s with
  | S n', String c s' => if p c then String c (span p n' s') else EmptyString
  | _, _ => EmptyString
  end.

(** The class [[^\t\n\f <&#;]]. *)
Definition name_char (c : ascii) : bool :=
  negb (Py.has_char c (String (ascii_of_nat 9) (String (ascii_of_nat 10)
                        (String (ascii_of_nat 12) " <&#;")))).

(** The optional [;?] that closes each alternative. *)
Definition opt_semi (body rest : string) : string :=
  if Py.startswith ";" rest then body ++ ";" else body.

(** Group 1 of [_charref] matched just after an ampersand:
    [#[0-9]+;?], else [#[xX][0-9a-fA-F]+;?], else [[^\t\n\f <&#;]{1,32};?]. *)
Definition charref_match (s : string) : option string :=
  match s with
  | String "#" s1 =>
      let ds := span Py.isdigit (String.length s1) s1 in
      if Py.truthy ds then
        Some (opt_semi (String "#" ds) (Py.drop (String.length ds) s1))
      else
        match s1 with
        | String x s2 =>
            let hs := span ishex (String.length s2) s2 in
            if (Ascii.eqb x "x" || Ascii.eqb x "X") && Py.truthy hs then
              Some (opt_semi (String "#" (String x hs))
                             (Py.drop (String.length hs) s2))
            else None
        | EmptyString => None
        end
  | _ =>
      let nm := span name_char 32 s in
      if Py.truthy nm then Some (opt_semi nm (Py.drop (String.length nm) s))
      else None
  end.

(** The [for x in range(len(s)-1, 1, -1)] search for the longest known
    prefix of an unknown name; [x] runs down from [len(s)-1] to [2]. *)
Fixpoint longest_name (s : string) (x : nat) : option string :=
  match x with
  | O | 1 => None
  | S x' =>
      match html5_get (Py.take x s) html5 with
      | Some v => Some (v ++ Py.drop x s)
      | None => longest_name s x'
      end
  end.

Definition _replace_charref (s : string) : string :=
  match s with
  | String "#" body =>
      let num :=
        match body with
        | String x ds =>
            if Ascii.eqb x "x" || Ascii.eqb x "X"
            then int_of 16 0 (Py.rstrip_by (Ascii.eqb ";") ds)
            else int_of 10 0 (Py.rstrip_by (Ascii.eqb ";") body)
        | EmptyString => 0%N
        end in
      match invalid_charref num _invalid_charrefs with
      | Some v => chr v
      | None =>
          if ((55296 <=? num) && (num <=? 57343) || (1114111 <? num))%N
          then chr 65533
          else if invalid_codepoint num then ""
          else chr num
      end
  | _ =>
      match html5_get s html5 with
      | Some v => v
      | None =>
          match longest_name s (String.length s - 1) with
          | Some v => v
          | None => "&" ++ s
          end
      end
  end.

(** [_charref.sub(_replace_charref, s)], left to right; [skip] counts the
    characters of the current match that are still to be consumed. *)
Fixpoint charref_sub (skip : nat) (s : string) : string :=
  match s with
  | EmptyString => EmptyString
  | String c s' =>
      match skip with
      | S k => charref_sub k s'
      | O =>
          if Ascii.eqb c "&" then
            match charref_match s' with
            | Some g => _replace_charref g ++ charref_sub (String.length g) s'
            | None => String c (charref_sub 0 s')
            end
          else String c (charref_sub 0 s')
      end
  end.

Definition unescape (s : string) : string :=
  if negb (Py.has_char "&" s) then s else charref_sub 0 s.

End Html.

(** ** parser.py: text extraction *)

(** [re.sub(r"\s+", " ", text)]; [in_run] tells whether the previous
    character belonged to the whitespace run being replaced. *)
Fixpoint sub_ws (in_run : bool) (s : string) : string :=
  match s with
  | EmptyString => EmptyString
  | String c s' =>
      if Py.isspace c then
        if in_run then sub_ws true s' else String " " (sub_ws true s')
      else String c (sub_ws false s')
  end.

Definition _clean_text (text : string) : string :=
  let text := Html.unescape text in
  let text := sub_ws false text in
  let text := Py.strip text in
  text.

(** The [cells] list of one [tr]. *)
Definition row_cells (tr : element) : list string :=
  map (fun cell =>
         Py.replace_char "|" "\|" (Py.strip (Py.join "" (itertext cell))))
      (filter (fun cell => local_is "th" cell || local_is "td" cell)
              (children tr)).

(** The [rows] list: the non-empty cell lists of all [tr] in the table. *)
Definition table_rows (table : element) : list (list string) :=
  filter (fun cells => match cells with [] => false | _ => true end)
         (map row_cells (filter (local_is "tr") (iter table))).

(** [while len(row) < len(rows[0]): row.append("")] *)
Definition pad_row (n : nat) (row : list string) : list string :=
  List.app row (repeat "" (n - List.length row)).

Definition md_line (cells : list string) : string :=
  "| " ++ Py.join " | " cells ++ " |".

(** The cell lists behind [md_lines], in order: header, separator, data. *)
Definition md_rows (rows : list (list string)) : list (list string) :=
  match rows with
  | [] => []
  | header :: data =>
      header :: repeat "---" (List.length header)
             :: map (pad_row (List.length header)) data
  end.

Definition _table_to_markdown (table : element) : string :=
  let rows := table_rows table in
  match rows with
  | [] => ""
  | _ => Py.join nl (map md_line (md_rows rows))
  end.

Definition or_find (a b : option element) : option element :=
  match a with Some _ => a | None => b end.

Definition _element_to_text (elem : element) : string :=
  if local_is "table" elem then _table_to_markdown elem
  else
    match or_find (find_desc "" "table" elem)
                  (find_desc XHTML_NS "table" elem) with
    | Some table =>
        let pre_text := text elem in
        let table_text := _table_to_markdown table in
        let post_parts :=
          filter Py.truthy (map tail (children elem)) in
        let post_text := Py.join " " post_parts in
        Py.strip (pre_text ++ nl ++ table_text ++ nl ++ post_text)
    | None => Py.join "" (itertext elem)
    end.

(** The closed tag-to-type table. *)
Definition ELEMENT_TO_NODE_TYPE : list (string * NodeType) :=
  [ ("title", TITLE); ("subtitle", SUBTITLE); ("chapter", CHAPTER);
    ("subchapter", SUBCHAPTER); ("part", PART); ("subpart", SUBPART);
    ("section", SECTION); ("subsection", SUBSECTION);
    ("paragraph", PARAGRAPH); ("subparagraph", SUBPARAGRAPH);
    ("clause", CLAUSE) ].

Fixpoint table_get {A} (key : string) (t : list (string * A)) : option A :=
  match t with
  | [] => None
  | (k, v) :: t' => if String.eqb k key then Some v else table_get key t'
  end.

(** [ELEMENT_TO_NODE_TYPE.get(tag)] for the source's [tag] value. *)
Definition node_type_of (e : element) : option NodeType :=
  match local_tag e with
  | Some l => table_get l ELEMENT_TO_NODE_TYPE
  | None => None
  end.

Definition is_structural (e : element) : bool :=
  match node_type_of e with Some _ => true | None => false end.

Definition is_metadata (e : element) : bool :=
  local_is "num" e || local_is "heading" e || local_is "meta" e.

Definition _extract_text (elem : element) : string :=
  let text_parts :=
    match or_find (find_child USLM_NS "content" elem)
                  (find_child "" "content" elem) with
    | Some content => [_element_to_text content]
    | None =>
        let parts :=
          map _element_to_text
              (filter (fun child =>
                         negb (is_structural child) && negb (is_metadata child))
                      (children elem)) in
        if Py.truthy (text elem) then Py.strip (text elem) :: parts
        else parts
    end in
  _clean_text (Py.join " " (filter Py.truthy text_parts)).

Definition _get_text_content (elem : element) (child_name : string)
  : option string :=
  match or_find (find_child USLM_NS child_name elem)
                (find_child "" child_name elem) with
  | Some child =>
      let text := Py.strip (Py.join "" (itertext child)) in
      if Py.truthy text then Some text else None
  | None => None
  end.

(** ** parser.py: [_determine_status] *)

Definition _determine_status (elem : element) : NodeStatus :=
  let status_attr := Py.lower (get_attr "status" (attrib elem)) in
  if Py.contains "repeal" status_attr then REPEALED
  else if Py.contains "expired" status_attr then EXPIRED
  else if Py.contains "reserved" status_attr then RESERVED
  else
    let text := Py.lower (_extract_text elem) in
    if Py.contains "[repealed" text || Py.contains "repealed." text
    then REPEALED
    else if Py.contains "[expired" text then EXPIRED
    else ACTIVE.

(** ** The fragment of the [re] module used by models.py *)

Module Re.

(** Pattern syntax: literal text, one character of a class, [\b],
    sequence, ordered alternation, greedy [*] and [?], and a numbered
    capturing group. *)
Inductive regex :=
| Lit (s : string)
| Cls (p : ascii -> bool)
| WordB
| Seq (r1 r2 : regex)
| Alt (r1 r2 : regex)
| Star (r : regex)
| Opt (r : regex)
| Group (n : nat) (r : regex).

Definition Plus (r : regex) : regex := Seq r (Star r).

(** Group number, start and end offset of each group that took part. *)
Definition caps := list (nat * (nat * nat)).

(** [text[i]] *)
Fixpoint get (i : nat) (s : string) : option ascii :=
  match s, i with
  | EmptyString, _ => None
  | String c _, O => Some c
  | String _ s', S i' => get i' s'
  end.

(** A literal under [re.IGNORECASE]. *)
Fixpoint lit_at (lit s : string) : bool :=
  match lit with
  | EmptyString => true
  | String a lit' =>
      match s with
      | EmptyString => false
      | String b s' =>
          Ascii.eqb (Py.lower_char a) (Py.lower_char b) && lit_at lit' s'
      end
  end.

(** A class under [re.IGNORECASE]: the character matches when it or its
    other case is in the class. *)
Definition cls_at (p : ascii -> bool) (c : ascii) : bool :=
  p c || p (Py.lower_char c) || p (Py.upper_char c).

Definition word_at (txt : string) (i : nat) : bool :=
  match get i txt with Some c => Py.isword c | None => false end.

(** [\b] holds between offsets [i-1] and [i] when exactly one side is a
    word character; outside the text counts as a non-word. *)
Definition boundary (txt : string) (i : nat) : bool :=
  xorb (match i with O => false | S j => word_at txt j end) (word_at txt i).

(** The iteration of a greedy [*]: [step] matches the body once, [k] is
    the rest of the pattern.  Each turn first tries one more match of the
    body, which must consume at least one character, and falls back to the
    rest of the pattern when that fails. *)
Section StarLoop.
Variable step :
  nat -> caps -> (nat -> caps -> option (nat * caps)) -> option (nat * caps).
Variable k : nat -> caps -> option (nat * caps).

Fixpoint star_loop (fuel i : nat) (cs : caps) : option (nat * caps) :=
  match fuel with
  | O => k i cs
  | S fuel' =>
      match step i cs
              (fun j cs' =>
                 if (i <? j)%nat then star_loop fuel' j cs' else None) with
      | Some x => Some x
      | None => k i cs
      end
  end.
End StarLoop.

Section Match.
Variable txt : string.

(** Backtracking match of [r] at offset [i], in continuation style: [k]
    is the rest of the pattern, and the first success, in the order the
    [re] module explores, is the result.  A [*] iterates at most once per
    remaining character. *)
Fixpoint mtch (r : regex) (i : nat) (cs : caps)
         (k : nat -> caps -> option (nat * caps)) {struct r}
  : option (nat * caps) :=
  match r with
  | Lit s =>
      if lit_at s (Py.drop i txt) then k (i + String.length s) cs else None
  | Cls p =>
      match get i txt with
      | Some c => if cls_at p c then k (S i) cs else None
      | None => None
      end
  | WordB => if boundary txt i then k i cs else None
  | Seq r1 r2 => mtch r1 i cs (fun j cs' => mtch r2 j cs' k)
  | Alt r1 r2 =>
      match mtch r1 i cs k with
      | Some x => Some x
      | None => mtch r2 i cs k
      end
  | Opt r1 =>
      match mtch r1 i cs k with
      | Some x => Some x
      | None => k i cs
      end
  | Star r1 => star_loop (mtch r1) k (S (String.length txt - i)) i cs
  | Group n r1 => mtch r1 i cs (fun j cs' => k j ((n, (i, j)) :: cs'))
  end.

(** [pattern.match(text, pos)] as (start, end, groups). *)
Definition match_at (r : regex) (pos : nat) : option (nat * nat * caps) :=
  match mtch r pos [] (fun j cs => Some (j, cs)) with
  | Some (j, cs) => Some (pos, j, cs)
  | None => None
  end.

(** [pattern.search(text, pos)]: the leftmost match at or after [pos];
    [fuel] is the number of later offsets still to try. *)
Fixpoint search (r : regex) (fuel pos : nat) : option (nat * nat * caps) :=
  match match_at r pos with
  | Some m => Some m
  | None =>
      match fuel with
      | O => None
      | S fuel' => search r fuel' (S pos)
      end
  end.

(** [re.finditer]: successive non-overlapping matches, left to right.
    After an empty match the scan moves on by one character. *)
Fixpoint finditer_from (r : regex) (fuel pos : nat)
  : list (nat * nat * caps) :=
  match fuel with
  | O => []
  | S fuel' =>
      match search r (String.length txt - pos) pos with
      | None => []
      | Some (s, e, cs) =>
          (s, e, cs)
            :: (if (String.length txt <? (if (s <? e)%nat then e else S e))%nat
                then []
                else finditer_from r fuel' (if (s <? e)%nat then e else S e))
      end
  end.

Definition finditer (r : regex) : list (nat * nat * caps) :=
  finditer_from r (S (String.length txt)) 0.

Fixpoint cap_get (n : nat) (cs : caps) : option (nat * nat) :=
  match cs with
  | [] => None
  | (k, se) :: cs' => if (k =? n)%nat then Some se else cap_get n cs'
  end.

(** [match.groups()] for a pattern with [n] groups: [None] for a group
    that took no part in the match. *)
Definition groups (n : nat) (cs : caps) : list (option string) :=
  map (fun g => match cap_get g cs with
                | Some (s, e) => Some (Py.slice s e txt)
                | None => None
                end)
      (seq 1 n).
End Match.

End Re.

(** ** models.py: [Reference] and [extract_references] *)

Record Reference := mkReference {
  target_section : string;
  context : string;
  reference_type : string
}.

(** [\d+[A-Za-z]?(?:\([a-z0-9]+\))*], the section designator. *)
Definition designator : Re.regex :=
  Re.Seq (Re.Plus (Re.Cls Py.isdigit))
    (Re.Seq (Re.Opt (Re.Cls Py.isalpha))
       (Re.Star (Re.Seq (Re.Lit "(")
                   (Re.Seq (Re.Plus (Re.Cls (fun c => Py.islower c || Py.isdigit c)))
                           (Re.Lit ")"))))).

(** [\d+[A-Za-z]?] *)
Definition short_designator : Re.regex :=
  Re.Seq (Re.Plus (Re.Cls Py.isdigit)) (Re.Opt (Re.Cls Py.isalpha)).

(** [\s+] and [\s*] *)
Definition ws1 : Re.regex := Re.Plus (Re.Cls Py.isspace).
Definition ws0 : Re.regex := Re.Star (Re.Cls Py.isspace).

(** [\s+(D)], the tail of every single-group pattern. *)
Definition ws_designator : Re.regex := Re.Seq ws1 (Re.Group 1 designator).

(** The nine patterns, each under its source text. *)

(** [\bsection\s+(D)] *)
Definition plain_section : Re.regex :=
  Re.Seq Re.WordB (Re.Seq (Re.Lit "section") ws_designator).

(** [\bsections?\s+(S)\s+(?:and|or)\s+(S)] *)
Definition section_pair : Re.regex :=
  Re.Seq Re.WordB (Re.Seq (Re.Lit "section") (Re.Seq (Re.Opt (Re.Lit "s"))
    (Re.Seq ws1 (Re.Seq (Re.Group 1 short_designator)
       (Re.Seq ws1 (Re.Seq (Re.Alt (Re.Lit "and") (Re.Lit "or"))
          (Re.Seq ws1 (Re.Group 2 short_designator)))))))).

(** [\bsec\.\s*(D)] *)
Definition sec_abbrev : Re.regex :=
  Re.Seq Re.WordB (Re.Seq (Re.Lit "sec.")
    (Re.Seq ws0 (Re.Group 1 designator))).

(** [as defined in section\s+(D)] *)
Definition p_definition : Re.regex :=
  Re.Seq (Re.Lit "as defined in section") ws_designator.

(** [subject to (?:the provisions of )?section\s+(D)] *)
Definition p_subject_to : Re.regex :=
  Re.Seq (Re.Lit "subject to ")
    (Re.Seq (Re.Opt (Re.Lit "the provisions of "))
       (Re.Seq (Re.Lit "section") ws_designator)).

(** [except as provided in section\s+(D)] *)
Definition p_exception : Re.regex :=
  Re.Seq (Re.Lit "except as provided in section") ws_designator.

(** [under section\s+(D)] *)
Definition under_section : Re.regex :=
  Re.Seq (Re.Lit "under section") ws_designator.

(** [provided in section\s+(D)] *)
Definition provided_in_section : Re.regex :=
  Re.Seq (Re.Lit "provided in section") ws_designator.

(** [see section\s+(D)] *)
Definition see_section : Re.regex :=
  Re.Seq (Re.Lit "see section") ws_designator.

(** The patterns in the order of the source list, each with its number of
    groups and its reference type. *)
Definition SECTION_REFERENCE_PATTERNS : list (Re.regex * nat * string) :=
  [ (plain_section, 1, "general");
    (section_pair, 2, "general");
    (sec_abbrev, 1, "general");
    (p_definition, 1, "definition");
    (p_subject_to, 1, "subject_to");
    (p_exception, 1, "exception");
    (under_section, 1, "general");
    (provided_in_section, 1, "general");
    (see_section, 1, "general") ].

(** [section not in seen] *)
Definition in_seen (section : string) (seen : list string) : bool :=
  existsb (String.eqb section) seen.

(** The body of [for section in groups]; the state is
    [(references, seen)]. *)
Definition reference_step
  (text : string) (ref_type : string) (m_start m_end : nat)
  (st : list Reference * list string) (section : option string)
  : list Reference * list string :=
  let '(references, seen) := st in
  match section with
  | Some section =>
      if Py.truthy section && negb (in_seen section seen) then
        let start := m_start - 30 in
        let end_ := Nat.min (String.length text) (m_end + 30) in
        let context := Py.strip (Py.slice start end_ text) in
        (List.app references
           [mkReference section ("..." ++ context ++ "...") ref_type],
         section :: seen)
      else st
  | None => st
  end.

(** The loops over the matches of one pattern and over the groups of each
    match. *)
Definition process (text : string) (pat : Re.regex * nat * string)
                   (st : list Reference * list string)
  : list Reference * list string :=
  let '(pattern, ngroups, ref_type) := pat in
  fold_left
    (fun st '(m_start, m_end, cs) =>
       fold_left (reference_step text ref_type m_start m_end)
                 (Re.groups text ngroups cs) st)
    (Re.finditer text pattern) st.

Definition extract_references (text : string) : list Reference :=
  if negb (Py.truthy text) then []
  else fst (fold_left (fun st pat => process text pat st)
                      SECTION_REFERENCE_PATTERNS ([], [])).

(** ** models.py: [LegalNode] and [ParsedTaxCode] *)

Module Node.
#[warnings="-register-all"]
Inductive t := mk {
    id : string;
    identifier : string;
    node_type : NodeType;
    num : option string;
    heading : option string;
    text : string;
    status : NodeStatus;
    parent_id : option string;
    hierarchical_path : string;
    references : list Reference;
    children : list t
  }.
End Node.

Definition LegalNode : Type := Node.t.

Record ParsedTaxCode := mkParsedTaxCode {
  title : string;
  root : LegalNode;
  total_sections : nat;
  total_nodes : nat;
  repealed_sections : list string
}.

(** ** parser.py: [USLMParser] *)

(** The parser object: the configured cutoff and the three accumulators
    that [_parse_element] updates in place. *)
Record USLMParser := mkUSLMParser {
  max_sections : option Z;
  sections_parsed : nat;
  total_nodes_ : nat;
  repealed_sections_ : list string
}.

(** [USLMParser.__init__] *)
Definition USLMParser_init (max_sections : option Z) : USLMParser :=
  mkUSLMParser max_sections 0 0 [].

(** [self.max_sections and self.sections_parsed >= self.max_sections]:
    [None] and [0] are both falsy. *)
Definition limit_hit (self : USLMParser) : bool :=
  match max_sections self with
  | None => false
  | Some m => negb (m =? 0)%Z && (m <=? Z.of_nat (sections_parsed self))%Z
  end.

(** Truthiness of an [Optional[str]]. *)
Definition opt_truthy (x : option string) : bool :=
  match x with Some s => Py.truthy s | None => false end.

(** The breadcrumb of a node. *)
Definition build_path
  (parent_path : string) (node_type : NodeType) (num heading : option string)
  : string :=
  let path_parts := if Py.truthy parent_path then [parent_path] else [] in
  let label := Py.capitalize (NodeType_value node_type) in
  let path_parts :=
    if opt_truthy heading
    then List.app path_parts [label ++ ": " ++ Py.or_else heading ""]
    else if opt_truthy num
    then List.app path_parts [label ++ " " ++ Py.or_else num ""]
    else path_parts in
  Py.join " > " path_parts.

(** The "Track sections" block followed by [self.total_nodes += 1]. *)
Definition track
  (self : USLMParser) (node_type : NodeType) (status : NodeStatus)
  (node_id : string) : USLMParser :=
  let self :=
    if NodeType_eqb node_type SECTION then
      mkUSLMParser (max_sections self) (S (sections_parsed self))
        (total_nodes_ self)
        (if NodeStatus_eqb status REPEALED
         then List.app (repealed_sections_ self) [node_id]
         else repealed_sections_ self)
    else self in
  mkUSLMParser (max_sections self) (sections_parsed self)
    (S (total_nodes_ self)) (repealed_sections_ self).

(** [_parse_element], with the parser object threaded through: the result
    is the node, or [None] when the element is skipped, and the parser
    after the call. *)
Fixpoint _parse_element
  (self : USLMParser) (elem : element)
  (parent_path : string) (parent_id : option string) {struct elem}
  : option LegalNode * USLMParser :=
  if limit_hit self then (None, self)
  else
    match node_type_of elem with
    | None => (None, self)
    | Some node_type =>
        let identifier := get_attr "identifier" (attrib elem) in
        let num := _get_text_content elem "num" in
        let heading := _get_text_content elem "heading" in
        let status := _determine_status elem in
        let hierarchical_path := build_path parent_path node_type num heading in
        let node_id := _build_citation_id node_type num identifier in
        let text := _extract_text elem in
        let references := extract_references text in
        let self := track self node_type status node_id in
        let '(children, self) :=
          match elem with
          | Element _ _ _ _ cs =>
              (fix parse_children (cs : list element) (self : USLMParser)
                 : list LegalNode * USLMParser :=
                 match cs with
                 | [] => ([], self)
                 | child_elem :: cs' =>
                     if is_structural child_elem then
                       let '(child_node, self) :=
                         _parse_element self child_elem hierarchical_path
                                        (Some node_id) in
                       let '(rest, self) := parse_children cs' self in
                       (match child_node with
                        | Some n => n :: rest
                        | None => rest
                        end, self)
                     else parse_children cs' self
                 end) cs self
          end in
        (Some (Node.mk node_id identifier node_type num heading text status
                       parent_id hierarchical_path references children),
         self)
    end.

(** The exceptions [parse_file] can raise. *)
Inductive exn :=
| FileNotFoundError (msg : string)
| XMLSyntaxError
| ValueError (msg : string).

(** The files the parser can be pointed at: no file at the path, a file
    that is not well-formed XML, or a document with its root element. *)
Inductive file :=
| Absent
| Malformed
| Document (root : element).

Definition filesystem := string -> file.

(** The search for the title element in [parse_file]. *)
Definition find_title (root : element) : option element :=
  let main := or_find (find_desc USLM_NS "main" root)
                      (find_desc "" "main" root) in
  let title_elem :=
    match main with
    | Some main => or_find (find_child USLM_NS "title" main)
                           (find_child "" "title" main)
    | None => None
    end in
  match title_elem with
  | Some _ => title_elem
  | None => or_find (find_desc USLM_NS "title" root)
                    (find_desc "" "title" root)
  end.

Definition parse_file
  (fs : filesystem) (self : USLMParser) (xml_path : string)
  : (exn + ParsedTaxCode) * USLMParser :=
  match fs xml_path with
  | Absent => (inl (FileNotFoundError ("XML file not found: " ++ xml_path)), self)
  | Malformed => (inl XMLSyntaxError, self)
  | Document root =>
      match find_title root with
      | None => (inl (ValueError "Could not find title element in XML"), self)
      | Some title_elem =>
          let '(root_node, self) := _parse_element self title_elem "" None in
          match root_node with
          | None => (inl (ValueError "Failed to parse root title element"), self)
          | Some root_node =>
              (inr (mkParsedTaxCode "Title 26 - Internal Revenue Code"
                      root_node (sections_parsed self) (total_nodes_ self)
                      (repealed_sections_ self)),
               self)
          end
      end
  end.

(** [parse_tax_code]: a fresh parser for every call. *)
Definition parse_tax_code
  (fs : filesystem) (xml_path : string) (max_sections : option Z)
  : exn + ParsedTaxCode :=
  fst (parse_file fs (USLMParser_init max_sections) xml_path).

(** *** Reading a parse result *)

(** The nodes reachable from a node, itself first, in pre-order. *)
Fixpoint nodes (n : LegalNode) : list LegalNode :=
  n :: flat_map nodes (Node.children n).

(** [get_all_sections] of models.py. *)
Definition is_section (n : LegalNode) : bool :=
  NodeType_eqb (Node.node_type n) SECTION.

Definition get_all_sections (n : LegalNode) : list LegalNode :=
  filter is_section (nodes n).

(** The children loop of [_parse_element] on its own: [hierarchical_path]
    and [node_id] are those of the parent being built. *)
Section ParseChildren.
Variables (hierarchical_path : string) (node_id : string).

Fixpoint parse_children (cs : list element) (self : USLMParser)
  : list LegalNode * USLMParser :=
  match cs with
  | [] => ([], self)
  | child_elem :: cs' =>
      if is_structural child_elem then
        let '(child_node, self) :=
          _parse_element self child_elem hierarchical_path (Some node_id) in
        let '(rest, self) := parse_children cs' self in
        (match child_node with
         | Some n => n :: rest
         | None => rest
         end, self)
      else parse_children cs' self
  end.
End ParseChildren.

(** The nodes of an optional result and of a list of siblings. *)
Definition opt_nodes (r : option LegalNode) : list LegalNode :=
  match r with Some n => nodes n | None => [] end.

Definition forest_nodes (l : list LegalNode) : list LegalNode :=
  flat_map nodes l.


Definition is_repealed (n : LegalNode) : bool :=
  NodeStatus_eqb (Node.status n) REPEALED.

(** *** Example documents *)

Module Examples.

Definition el (name : string) (a : list (string * string)) (txt : string)
              (cs : list element) : element :=
  Element (QName USLM_NS name) a txt "" cs.

(** A section with a num, a heading, a content block and one subsection
    whose own content carries a repeal marker. *)
Definition sec (i body : string) : element :=
  el "section" [("identifier", "/us/usc/t26/s" ++ i)] ""
     [ el "num" [] ("Sec. " ++ i) [];
       el "heading" [] "Heading" [];
       el "content" [] body [];
       el "subsection" [("identifier", "/us/usc/t26/s" ++ i ++ "/a")] ""
          [ el "content" [] "Stricken. [Repealed]" [] ] ].

Definition title26 : element :=
  el "title" [("identifier", "/us/usc/t26")] ""
     [ el "num" [] "Title 26" [];
       el "chapter" [("identifier", "/us/usc/t26/ch1")] ""
          [ sec "1" "see section 162";
            sec "2" "[Repealed]";
            sec "3" "Trade or business expenses." ] ].

Definition doc : element :=
  el "uscDoc" [] "" [ el "meta" [] "" []; el "main" [] "" [ title26 ] ].

(** A document without any title element. *)
Definition doc_no_title : element :=
  el "uscDoc" [] "" [ el "main" [] "" [ el "chapter" [] "" [] ] ].

Definition fs : filesystem :=
  fun p =>
    if String.eqb p "usc26.xml" then Document doc
    else if String.eqb p "empty.xml" then Document doc_no_title
    else if String.eqb p "broken.xml" then Malformed
    else Absent.

Definition cell (name txt : string) : element :=
  Element (QName "" name) [] txt "" [].
Definition tr (cells : list element) : element :=
  Element (QName "" "tr") [] "" "" cells.
Definition table (rows : list element) : element :=
  Element (QName "" "table") [] "" "" rows.

(** Two rows, two columns, a pipe inside one cell. *)
Definition table_2x2 : element :=
  table [ tr [cell "th" "Rate"; cell "th" "Income"];
          tr [cell "td" "10%"; cell "td" "0|9,950"] ].

(** A one-column header above a two-cell data row. *)
Definition table_ragged : element :=
  table [ tr [cell "th" "Rate"];
          tr [cell "td" "10%"; cell "td" "0"] ].

Definition text_162 : string :=
  "as defined in section 162, section 162 and again section 162".

End Examples.

(** *** Reading a rendered table row *)

(** Every pipe of the string is immediately preceded by a backslash;
    [prev] tells whether the previous character was one. *)
Fixpoint pipes_escaped (prev : bool) (s : string) : bool :=
  match s with
  | EmptyString => true
  | String c s' =>
      (if Ascii.eqb c "|" then prev else true)
      && pipes_escaped (Ascii.eqb c "\") s'
  end.

(** The number of pipes that are not preceded by a backslash: the column
    delimiters of a rendered line. *)
Fixpoint delimiters (prev : bool) (s : string) : nat :=
  match s with
  | EmptyString => 0
  | String c s' =>
      (if Ascii.eqb c "|" && negb prev then 1 else 0)
      + delimiters (Ascii.eqb c "\") s'
  end.

(** The column count of a rendered line: one less than its delimiters. *)
Definition columns (line : string) : nat := delimiters false line - 1.

(** What the specification states of a table: all rendered rows have one
    column count. *)
Definition equal_columns (table : element) : Prop :=
  forall r1 r2,
    In r1 (md_rows (table_rows table)) ->
    In r2 (md_rows (table_rows table)) ->
    columns (md_line r1) = columns (md_line r2).

(** *** Whitespace-normal text *)

(** No whitespace other than single spaces between other characters;
    [prev] tells whether the previous character was a space. *)
Fixpoint ws_normal (prev : bool) (s : string) : bool :=
  match s with
  | EmptyString => true
  | String c s' =>
      if Py.isspace c then Ascii.eqb c " " && negb prev && ws_normal true s'
      else ws_normal false s'
  end.

(** The text does not start with a character that [lstrip] removes. *)
Definition head_kept (p : ascii -> bool) (s : string) : bool :=
  match s with
  | EmptyString => true
  | String c _ => negb (p c)
  end.

Definition cell_escaped (c : string) : Prop := pipes_escaped false c = true.

(** *** The fields [_parse_element] computes for an element of type
    [node_type] *)

Definition elem_id (elem : element) (node_type : NodeType) : string :=
  _build_citation_id node_type (_get_text_content elem "num")
                     (get_attr "identifier" (attrib elem)).

Definition elem_path (parent_path : string) (elem : element)
                     (node_type : NodeType) : string :=
  build_path parent_path node_type (_get_text_content elem "num")
             (_get_text_content elem "heading").

Definition make_node
  (elem : element) (parent_path : string) (parent_id : option string)
  (node_type : NodeType) (children : list LegalNode) : LegalNode :=
  Node.mk (elem_id elem node_type) (get_attr "identifier" (attrib elem))
          node_type (_get_text_content elem "num")
          (_get_text_content elem "heading") (_extract_text elem)
          (_determine_status elem) parent_id
          (elem_path parent_path elem node_type)
          (extract_references (_extract_text elem)) children.

(** What the specification states of the repealed list: it holds the id
    of every repealed node. *)
Definition all_repealed_listed (p : ParsedTaxCode) : Prop :=
  forall n, In n (nodes (root p)) -> Node.status n = REPEALED ->
            In (Node.id n) (repealed_sections p).

(** *** Reading the accumulators *)

(** What [track] adds to [sections_parsed] and to the repealed list. *)
Definition section_count (nt : NodeType) : nat :=
  if NodeType_eqb nt SECTION then 1 else 0.

Definition repealed_entry (nt : NodeType) (st : NodeStatus) (id : string)
  : list string :=
  if NodeType_eqb nt SECTION && NodeStatus_eqb st REPEALED then [id] else [].

(** The listed repealed ids of a set of nodes: the ids of its repealed
    section-type nodes, in order. *)
Definition repealed_ids (l : list LegalNode) : list string :=
  map Node.id (filter (fun n => is_section n && is_repealed n) l).

(** What a run of the builder adds to the accumulators, given the nodes it
    created. *)
Definition accounts (self self' : USLMParser) (created : list LegalNode)
  : Prop :=
  max_sections self' = max_sections self
  /\ total_nodes_ self' = total_nodes_ self + List.length created
  /\ sections_parsed self'
     = sections_parsed self + List.length (filter is_section created)
  /\ repealed_sections_ self'
     = List.app (repealed_sections_ self) (repealed_ids created).


(** A cutoff below zero: truthy, and reached before the first element. *)
Definition negative_cutoff (max : option Z) : bool :=
  match max with
  | Some k => (k <? 0)%Z
  | None => false
  end.


(** Induction on an element with the property known for its children. *)
Section ElementInd.
Variable P : element -> Prop.
Hypothesis step :
  forall t a tx tl cs, Forall P cs -> P (Element t a tx tl cs).

Fixpoint element_ind' (e : element) : P e :=
  match e with
  | Element t a tx tl cs =>
      step t a tx tl cs
        ((fix go (l : list element) : Forall P l :=
            match l with
            | [] => Forall_nil P
            | c :: l' => Forall_cons c (element_ind' c) (go l')
            end) cs)
  end.
End ElementInd.


(** The invariant of the extraction loops on [(references, seen)]: the
    targets returned so far are pairwise distinct and all in [seen]. *)
Definition dedup_inv (st : list Reference * list string) : Prop :=
  NoDup (map target_section (fst st))
  /\ forall t, In t (map target_section (fst st)) -> In t (snd st).

(** Runs [parse_tax_code] on a concrete file: the failing outcome is
    refuted by evaluation, the successful one is kept with its equation. *)
Ltac run_parse E :=
  match goal with
  | |- context [parse_tax_code ?fs ?path ?max] =>
      let e := fresh "e" in
      destruct (parse_tax_code fs path max) as [e|?p] eqn:E;
      [vm_compute in E; discriminate|]
  end.

(** *** Reading a match of a pattern *)

(** Exhaustive check over the 256 characters. *)
Definition forall_ascii (f : ascii -> bool) : bool :=
  forallb (fun n => f (ascii_of_nat n)) (seq 0 256).

(** Every character a pattern can consume satisfies [Q]. *)
Fixpoint consumes (Q : ascii -> bool) (r : Re.regex) : bool :=
  match r with
  | Re.Lit s =>
      forallb (fun a =>
                 forall_ascii (fun c =>
                   implb (Ascii.eqb (Py.lower_char a) (Py.lower_char c)) (Q c)))
              (list_ascii_of_string s)
  | Re.Cls p => forall_ascii (fun c => implb (Re.cls_at p c) (Q c))
  | Re.WordB => true
  | Re.Seq r1 r2 | Re.Alt r1 r2 => consumes Q r1 && consumes Q r2
  | Re.Star r1 | Re.Opt r1 | Re.Group _ r1 => consumes Q r1
  end.

(** The positions a pattern can match between, as a relation: what the
    backtracking matcher can find, without the order in which it looks. *)
Section Matches.
Variable txt : string.

Inductive matches : Re.regex -> nat -> nat -> Prop :=
| M_Lit s i :
    Re.lit_at s (Py.drop i txt) = true ->
    matches (Re.Lit s) i (i + String.length s)
| M_Cls p i c :
    Re.get i txt = Some c -> Re.cls_at p c = true ->
    matches (Re.Cls p) i (S i)
| M_WordB i : Re.boundary txt i = true -> matches Re.WordB i i
| M_Seq r1 r2 i j k :
    matches r1 i j -> matches r2 j k -> matches (Re.Seq r1 r2) i k
| M_AltL r1 r2 i j : matches r1 i j -> matches (Re.Alt r1 r2) i j
| M_AltR r1 r2 i j : matches r2 i j -> matches (Re.Alt r1 r2) i j
| M_Star0 r i : matches (Re.Star r) i i
| M_StarS r i j k :
    matches r i j -> i < j -> matches (Re.Star r) j k ->
    matches (Re.Star r) i k
| M_Opt0 r i : matches (Re.Opt r) i i
| M_Opt1 r i j : matches r i j -> matches (Re.Opt r) i j
| M_Group n r i j : matches r i j -> matches (Re.Group n r) i j.

End Matches.

(** Closes a soundness case: the continuation's own equation fixes the end
    position, the derivation is then found among the constructors. *)
Ltac found := do 2 eexists; split; [|eassumption]; eauto using matches.

(** The complement of [\s]. *)
Definition not_space (c : ascii) : bool := negb (Py.isspace c).

(** The character is an "s" up to case. *)
Definition is_s (c : ascii) : bool :=
  Ascii.eqb (Py.lower_char "s") (Py.lower_char c).

(** A place where the word "section" starts right after a space. *)
Definition section_after_space (txt : string) (q : nat) : Prop :=
  exists q', q = S q' /\ Re.get q' txt = Some " "%char
             /\ Re.lit_at "section" (Py.drop q txt) = true.

(** The three patterns with a type of their own. *)
Definition typed_pattern (r : Re.regex) : Prop :=
  r = p_definition \/ r = p_subject_to \/ r = p_exception.

(** Every reference collected so far has the type general. *)
Definition all_general (st : list Reference * list string) : Prop :=
  forall r, In r (fst st) -> reference_type r = "general".

(** Every designator the first pattern captures has been seen. *)
Definition covered (text : string) (st : list Reference * list string) : Prop :=
  forall s e cs g,
    In (s, e, cs) (Re.finditer text plain_section) ->
    In (Some g) (Re.groups text 1 cs) ->
    Py.truthy g = true ->
    In g (snd st).

(** ** models.py: the methods of [LegalNode] and [ParsedTaxCode] *)

Definition is_container (self : LegalNode) : bool :=
  match Node.node_type self with
  | TITLE | SUBTITLE | CHAPTER | SUBCHAPTER | PART | SUBPART => true
  | _ => false
  end.

Definition is_content (self : LegalNode) : bool :=
  match Node.node_type self with
  | SECTION | SUBSECTION | PARAGRAPH | SUBPARAGRAPH | CLAUSE => true
  | _ => false
  end.

Definition is_leaf (self : LegalNode) : bool :=
  (List.length (Node.children self) =? 0)%nat.

(** [LegalNode.get_all_sections], as the method is written. *)
Fixpoint LegalNode_get_all_sections (self : LegalNode) : list LegalNode :=
  let sections :=
    if NodeType_eqb (Node.node_type self) SECTION then [self] else [] in
  List.app sections (flat_map LegalNode_get_all_sections (Node.children self)).

Fixpoint get_all_leaf_nodes (self : LegalNode) : list LegalNode :=
  if is_leaf self then [self]
  else flat_map get_all_leaf_nodes (Node.children self).

(** [find_by_id]: a [LegalNode] is always truthy, so the first child that
    returns a node ends the loop. *)
Fixpoint find_by_id (self : LegalNode) (target_id : string)
  : option LegalNode :=
  if String.eqb (Node.id self) target_id then Some self
  else
    (fix loop (cs : list LegalNode) : option LegalNode :=
       match cs with
       | [] => None
       | child :: cs' =>
           match find_by_id child target_id with
           | Some result => Some result
           | None => loop cs'
           end
       end) (Node.children self).

(** [ParsedTaxCode.get_section] *)
Definition get_section (self : ParsedTaxCode) (section_num : string)
  : option LegalNode :=
  let target_id := "26 USC " ++ section_num in
  find_by_id (root self) target_id.

(** [collect_refs] of [get_all_references], with the list [refs] it
    appends to passed through. *)
Fixpoint collect_refs (node : LegalNode) (refs : list (string * Reference))
  : list (string * Reference) :=
  let refs :=
    fold_left (fun refs ref => List.app refs [(Node.id node, ref)])
              (Node.references node) refs in
  fold_left (fun refs child => collect_refs child refs)
            (Node.children node) refs.

Definition get_all_references (self : ParsedTaxCode)
  : list (string * Reference) :=
  collect_refs (root self) [].

(** [Reference.__eq__] *)
Definition Reference_eq (self other : Reference) : bool :=
  String.eqb (target_section self) (target_section other)
  && String.eqb (reference_type self) (reference_type other).

(** ** graph.py: flattening a tree *)

Fixpoint flatten_nodes (node : LegalNode) : list LegalNode :=
  node :: flat_map flatten_nodes (Node.children node).

Fixpoint extract_parent_relationships (node : LegalNode)
  : list (string * string) :=
  flat_map (fun child =>
              (Node.id node, Node.id child)
              :: extract_parent_relationships child)
           (Node.children node).

Fixpoint extract_all_references (node : LegalNode)
  : list (string * Reference) :=
  List.app (map (fun ref => (Node.id node, ref)) (Node.references node))
           (flat_map extract_all_references (Node.children node)).

(** Induction on a node with the property known for its children. *)
Section NodeInd.
Variable P : LegalNode -> Prop.
Hypothesis step : forall n, Forall P (Node.children n) -> P n.

Fixpoint node_ind' (n : LegalNode) : P n :=
  match n as m return P m with
  | Node.mk i idf nt nu h tx st pid hp refs cs =>
      step (Node.mk i idf nt nu h tx st pid hp refs cs)
        ((fix go (l : list LegalNode) : Forall P l :=
            match l with
            | [] => Forall_nil P
            | c :: l' => Forall_cons c (node_ind' c) (go l')
            end) cs)
  end.
End NodeInd.

(** The references a node carries, each with the node's id. *)
Definition own_references (n : LegalNode) : list (string * Reference) :=
  map (fun ref => (Node.id n, ref)) (Node.references n).

(** The test of [find_by_id] on one node. *)
Definition has_id (target_id : string) (n : LegalNode) : bool :=
  String.eqb (Node.id n) target_id.

(** ** graph.py: the batch loops of [TaxCodeGraph] *)

Definition NodeStatus_value (s : NodeStatus) : string :=
  match s with
  | ACTIVE => "active" | REPEALED => "repealed"
  | EXPIRED => "expired" | RESERVED => "reserved"
  end.

(** [range(0, stop, step)]: [ValueError] for a zero step, empty for a
    negative one, else the multiples of [step] below [stop]. *)
Definition py_range (stop : nat) (step : Z) : exn + list nat :=
  if (step =? 0)%Z then inl (ValueError "range() arg 3 must not be zero")
  else if (step <? 0)%Z then inr []
  else
    let step := Z.to_nat step in
    inr (map (fun j => j * step) (seq 0 ((stop + step - 1) / step))).

(** [xs[i:j]] for [0 <= i] and [0 <= j]. *)
Definition list_slice {A} (i j : nat) (xs : list A) : list A :=
  firstn (j - i) (skipn i xs).

(** The dictionaries sent as query parameters. *)
Record node_row := mk_node_row {
  row_id : string;
  row_identifier : string;
  row_type : string;
  row_num : option string;
  row_heading : option string;
  row_text : string;
  row_status : string;
  row_path : string;
  row_is_container : bool;
  row_is_content : bool
}.

Record rel_row := mk_rel_row {
  rel_parent_id : string;
  rel_child_id : string
}.

Record ref_row := mk_ref_row {
  ref_source_id : string;
  ref_target_id : string;
  ref_type : string;
  ref_context : string
}.

Definition node_data (n : LegalNode) : node_row :=
  mk_node_row (Node.id n) (Node.identifier n)
              (NodeType_value (Node.node_type n)) (Node.num n)
              (Node.heading n) (Node.text n)
              (NodeStatus_value (Node.status n)) (Node.hierarchical_path n)
              (is_container n) (is_content n).

Definition rel_data (r : string * string) : rel_row :=
  let '(parent_id, child_id) := r in mk_rel_row parent_id child_id.

Definition ref_data (r : string * Reference) : ref_row :=
  let '(source_id, ref) := r in
  mk_ref_row source_id ("26 USC " ++ target_section ref)
             (reference_type ref)
             (if Py.truthy (context ref) then Py.take 500 (context ref)
              else "").

(** [create_nodes_batch]: the returned total and the parameter lists of
    the [session.run] calls, in order.  The database driver is outside
    the model: a call is recorded, and never fails. *)
Definition create_nodes_batch (nodes : list LegalNode) (batch_size : Z)
  : exn + (nat * list (list node_row)) :=
  match py_range (List.length nodes) batch_size with
  | inl e => inl e
  | inr indices =>
      inr (fold_left
             (fun '(total, sent) i =>
                let batch := list_slice i (i + Z.to_nat batch_size) nodes in
                let sent := List.app sent [map node_data batch] in
                (total + List.length batch, sent))
             indices (0, []))
  end.

Definition create_parent_relationships_batch
  (relationships : list (string * string)) (batch_size : Z)
  : exn + (nat * list (list rel_row)) :=
  match py_range (List.length relationships) batch_size with
  | inl e => inl e
  | inr indices =>
      inr (fold_left
             (fun '(total, sent) i =>
                let batch :=
                  list_slice i (i + Z.to_nat batch_size) relationships in
                let sent := List.app sent [map rel_data batch] in
                (total + List.length batch, sent))
             indices (0, []))
  end.

(** [create_reference_relationships_batch]: [db] is the count the
    database reports for a batch, given the batches it received before. *)
Definition create_reference_relationships_batch
  (db : list (list ref_row) -> list ref_row -> Z)
  (references : list (string * Reference)) (batch_size : Z)
  : exn + (Z * Z * list (list ref_row)) :=
  match py_range (List.length references) batch_size with
  | inl e => inl e
  | inr indices =>
      inr (fold_left
             (fun '(created, not_found, sent) i =>
                let batch :=
                  list_slice i (i + Z.to_nat batch_size) references in
                let rows := map ref_data batch in
                let batch_created := db sent rows in
                (created + batch_created,
                 not_found + (Z.of_nat (List.length batch) - batch_created),
                 List.app sent [rows])%Z)
             indices (0%Z, 0%Z, []))
  end.

(** The batches a loop cuts a list into. *)
Definition batches {A} (xs : list A) (k : nat) : list (list A) :=
  map (fun i => list_slice i (i + k) xs)
      (map (fun j => j * k) (seq 0 ((List.length xs + k - 1) / k))).

(** A batch is not empty and holds at most [k] entries. *)
Definition batch_sized {A} (k : nat) (b : list A) : Prop :=
  1 <= List.length b <= k.

(** *** The shape of a built tree *)

(** A node built by [_parse_element] under the breadcrumb [pp] and the
    parent id [pid]: its fields are those computed from some element with
    a structural tag, and its children were built under its own
    breadcrumb and id. *)
#[warnings="-register-all"]
Inductive built : string -> option string -> LegalNode -> Prop :=
| built_node elem pp pid nt kids :
    node_type_of elem = Some nt ->
    Forall (built (elem_path pp elem nt) (Some (elem_id elem nt))) kids ->
    built pp pid (make_node elem pp pid nt kids).

Section BuiltInd.
Variable P : string -> option string -> LegalNode -> Prop.
Hypothesis step :
  forall elem pp pid nt kids,
    node_type_of elem = Some nt ->
    Forall (built (elem_path pp elem nt) (Some (elem_id elem nt))) kids ->
    Forall (P (elem_path pp elem nt) (Some (elem_id elem nt))) kids ->
    P pp pid (make_node elem pp pid nt kids).

Fixpoint built_ind' pp pid n (H : built pp pid n) {struct H} : P pp pid n :=
  match H in built pp0 pid0 n0 return P pp0 pid0 n0 with
  | built_node elem pp1 pid1 nt kids Hnt Hk =>
      step elem pp1 pid1 nt kids Hnt Hk
        ((fix go (l : list LegalNode)
              (Hl : Forall (built (elem_path pp1 elem nt)
                                  (Some (elem_id elem nt))) l) {struct Hl}
            : Forall (P (elem_path pp1 elem nt) (Some (elem_id elem nt))) l :=
            match Hl with
            | Forall_nil _ => Forall_nil _
            | @Forall_cons _ _ x l' Hx Hr =>
                Forall_cons x (built_ind' _ _ _ Hx) (go l' Hr)
            end) kids Hk)
  end.
End BuiltInd.

(** What a node stores about its parent, and the same read off a
    [PARENT_OF] pair. *)
Definition stored_link (n : LegalNode) : option string * string :=
  (Node.parent_id n, Node.id n).

Definition edge_link (r : string * string) : option string * string :=
  (Some (fst r), snd r).

(** An optional text field is absent, or present, non-empty and trimmed. *)
Definition trimmed_field (x : option string) : Prop :=
  forall t, x = Some t -> Py.truthy t = true /\ Py.strip t = t.

(** The text of a node is on one line, single-spaced and trimmed. *)
Definition normal_text (s : string) : Prop :=
  ws_normal false s = true
  /\ Py.strip s = s
  /\ Py.has_char (ascii_of_nat 10) s = false.

(** The example document parsed without a cutoff. *)
Definition parsed_usc26 : ParsedTaxCode :=
  Eval vm_compute in
    match parse_tax_code Examples.fs "usc26.xml" None with
    | inr p => p
    | inl _ =>
        mkParsedTaxCode ""
          (Node.mk "" "" TITLE None None "" ACTIVE None "" [] []) 0 0 []
    end.

(** The last node of a tree in pre-order: the one created last. *)
Definition last_node (n : LegalNode) : LegalNode :=
  List.last (flatten_nodes n) n.

(** The parser object after one parse of the example document. *)
Definition used_parser : USLMParser :=
  Eval vm_compute in
    snd (parse_file Examples.fs (USLMParser_init None) "usc26.xml").

(** The statements proved by induction on the element: a run that starts
    below the cutoff [k] and ends at it returns a tree whose last node is
    a section without children. *)
Definition ends_at_section (l : list LegalNode) : Prop :=
  l <> []
  /\ forall d, is_section (List.last l d) = true
               /\ is_leaf (List.last l d) = true.

Definition cut_at_section (k : Z) (e : element) : Prop :=
  forall self pp pid,
    max_sections self = Some k -> limit_hit self = false ->
    limit_hit (snd (_parse_element self e pp pid)) = true ->
    ends_at_section (opt_nodes (fst (_parse_element self e pp pid))).

(** *** Identifiers of sections and of their parts *)

Definition no_slash (s : string) : bool := negb (Py.has_char "/" s).

(** A segment below a section: not empty, without a slash, and not taken
    for a section, chapter or part segment by the citation loop. *)
Definition sub_part (p : string) : bool :=
  Py.truthy p && no_slash p
  && negb (Py.startswith "s" p)
  && negb (Py.startswith "ch" p)
  && negb (Py.startswith "pt" p).

(** The identifier [/us/usc/<t>/s<sec>/<p1>/.../<pn>]. *)
Definition section_identifier (t sec : string) (ps : list string) : string :=
  "/" ++ Py.join "/" ("us" :: "usc" :: t :: ("s" ++ sec) :: ps).

Definition parenthesised (p : string) : string := "(" ++ p ++ ")".

(** ** graph.py: the counts of [ingest_tax_code] *)

(** The four statistics [ingest_tax_code] computes from the parse
    result, every batch function called with its default batch size; the
    two entries it reads back from the database are not part of it. *)
Record ingest_stats := mk_ingest_stats {
  nodes_created : nat;
  parent_relationships : nat;
  reference_relationships : Z;
  references_not_found : Z
}.

Definition ingest_tax_code
  (db : list (list ref_row) -> list ref_row -> Z) (parsed : ParsedTaxCode)
  : exn + ingest_stats :=
  let all_nodes := flatten_nodes (root parsed) in
  match create_nodes_batch all_nodes 100 with
  | inl e => inl e
  | inr (nodes_created, _) =>
      let parent_rels := extract_parent_relationships (root parsed) in
      match create_parent_relationships_batch parent_rels 100 with
      | inl e => inl e
      | inr (parent_relationships, _) =>
          let all_refs := extract_all_references (root parsed) in
          match create_reference_relationships_batch db all_refs 100 with
          | inl e => inl e
          | inr (created, not_found, _) =>
              inr (mk_ingest_stats nodes_created parent_relationships
                                   created not_found)
          end
      end
  end.

(** ** main.py: the counts of [print_statistics] *)

(** A [dict[str, int]]: the keys in insertion order. *)
Definition dict : Type := list (string * nat).

(** [d.get(key, default)] *)
Fixpoint dict_get (key : string) (d : dict) (default : nat) : nat :=
  match d with
  | [] => default
  | (k, v) :: d' => if String.eqb k key then v else dict_get key d' default
  end.

(** [d[key] = value]: a present key keeps its place. *)
Fixpoint dict_set (key : string) (value : nat) (d : dict) : dict :=
  match d with
  | [] => [(key, value)]
  | (k, v) :: d' =>
      if String.eqb k key then (k, value) :: d'
      else (k, v) :: dict_set key value d'
  end.

(** The loop that fills [ref_types]. *)
Definition ref_types (all_refs : list (string * Reference)) : dict :=
  fold_left
    (fun ref_types '(_, ref) =>
       dict_set (reference_type ref)
                (dict_get (reference_type ref) ref_types 0 + 1) ref_types)
    all_refs [].

(** [count_by_type], with the dictionary it updates passed through. *)
Fixpoint count_by_type (node : LegalNode) (counts : dict) : dict :=
  let key := NodeType_value (Node.node_type node) in
  let counts := dict_set key (dict_get key counts 0 + 1) counts in
  fold_left (fun counts child => count_by_type child counts)
            (Node.children node) counts.

(** The two dictionaries [print_statistics] lists. *)
Definition statistics_ref_types (parsed : ParsedTaxCode) : dict :=
  ref_types (get_all_references parsed).

Definition statistics_type_counts (parsed : ParsedTaxCode) : dict :=
  count_by_type (root parsed) [].

(** The nodes of one type. *)
Definition has_type (nt : NodeType) (n : LegalNode) : bool :=
  NodeType_eqb (Node.node_type n) nt.

(** *** The elements the tree builder visits *)

(** An element and, in document order, the structural elements reachable
    from it through structural children only. *)
Fixpoint structural_elements (e : element) : list element :=
  match e with
  | Element _ _ _ _ cs =>
      e :: flat_map (fun c => if is_structural c then structural_elements c
                              else []) cs
  end.

(** What a node keeps of its element, and the same read off the element. *)
Definition node_summary (n : LegalNode)
  : string * option NodeType * string * NodeStatus :=
  (Node.identifier n, Some (Node.node_type n), Node.text n, Node.status n).

Definition elem_summary (e : element)
  : string * option NodeType * string * NodeStatus :=
  (get_attr "identifier" (attrib e), node_type_of e, _extract_text e,
   _determine_status e).

(** The statement proved by induction on the element: without a cutoff a
    structural element yields one node per visited element. *)
Definition mirrors (e : element) : Prop :=
  forall self pp pid,
    max_sections self = None -> is_structural e = true ->
    map node_summary (opt_nodes (fst (_parse_element self e pp pid)))
    = map elem_summary (structural_elements e).

(** ** main.py: [print_hierarchy] *)

(** ["  " * indent] *)
Fixpoint indentation (indent : nat) : string :=
  match indent with
  | O => ""
  | S k => "  " ++ indentation k
  end.

(** The [display] string of a node. *)
Definition display (node : LegalNode) : string :=
  let status_marker :=
    if NodeStatus_eqb (Node.status node) REPEALED then " [REPEALED]" else "" in
  if opt_truthy (Node.heading node) then
    NodeType_value (Node.node_type node) ++ ": "
    ++ Py.or_else (Node.num node) "" ++ " - "
    ++ Py.or_else (Node.heading node) "" ++ status_marker
  else
    NodeType_value (Node.node_type node) ++ ": "
    ++ Py.or_else (Node.num node) (Node.id node) ++ status_marker.

Definition reference_line (prefix : string) (ref : Reference) : string :=
  prefix ++ "  -> References: Section " ++ target_section ref
  ++ " (" ++ reference_type ref ++ ")".

(** [print_hierarchy]: the lines it prints, in order. *)
Fixpoint print_hierarchy (node : LegalNode) (indent : nat) (max_depth : Z)
  : list string :=
  if (max_depth * 2 <? Z.of_nat indent)%Z then []
  else
    let prefix := indentation indent in
    let out := [prefix ++ display node] in
    let out :=
      if match Node.references node with [] => false | _ => true end
         && (Z.of_nat indent <=? max_depth * 2)%Z
      then List.app out (map (reference_line prefix)
                             (firstn 3 (Node.references node)))
      else out in
    List.app out
      (flat_map (fun child => print_hierarchy child (S indent) max_depth)
                (Node.children node)).

(** The nodes of a tree in pre-order, each with its depth below the node
    the count starts from. *)
Fixpoint levels (depth : nat) (n : LegalNode) : list (nat * LegalNode) :=
  (depth, n) :: flat_map (levels (S depth)) (Node.children n).

(** The lines of one node: its own and those of its first three
    references. *)
Definition node_lines (dn : nat * LegalNode) : list string :=
  (indentation (fst dn) ++ display (snd dn))
  :: map (reference_line (indentation (fst dn)))
         (firstn 3 (Node.references (snd dn))).

Definition within_depth (limit : Z) (dn : nat * LegalNode) : bool :=
  (Z.of_nat (fst dn) <=? limit)%Z.

(** * Properties *)

(** ** Citation resolver *)

Lemma startswith_app (p s : string) : Py.startswith p (p ++ s) = true.
Proof.
  induction p as [|a p IH]; simpl; [reflexivity|].
  now rewrite Ascii.eqb_refl, IH.
Qed.

Lemma fallback_prefix (num : option string) (identifier : string) :
  Py.startswith "26 USC " (citation_fallback num identifier) = true.
Proof.
  unfold citation_fallback.
  destruct num as [n|]; [destruct (Py.truthy n)|]; apply startswith_app.
Qed.

(** C10. Whatever the node type, the declared number and the identifier
    path are, the derived citation id starts with the literal prefix
    "26 USC ": the absent-path branch, the accumulated-section branch and
    both fallbacks all build their result on it. *)
Theorem citation_id_has_code_prefix
  (node_type : NodeType) (num : option string) (identifier : string) :
  Py.startswith "26 USC " (_build_citation_id node_type num identifier) = true.
Proof.
  unfold _build_citation_id.
  destruct (negb (Py.truthy identifier)); [apply startswith_app|].
  match goal with |- context [if ?c then _ else _] => destruct c end.
  - destruct (citation_loop _); [apply fallback_prefix | apply startswith_app].
  - apply fallback_prefix.
Qed.

(** The worked example of the docstring. *)
Example citation_s162_a :
  _build_citation_id SUBSECTION None "/us/usc/t26/s162/a" = "26 USC 162(a)".
Proof. reflexivity. Qed.

(** A segment whose first character is the section marker is accumulated,
    whatever follows the marker. *)
Lemma citation_step_s (st : bool * list string) (rest : string) :
  citation_step st (String "s" rest) = (true, List.app (snd st) [rest]).
Proof. destruct st; reflexivity. Qed.

(** Chapter and part segments are skipped. *)
Lemma citation_step_ch (st : bool * list string) (rest : string) :
  citation_step st ("ch" ++ rest) = st.
Proof. destruct st; reflexivity. Qed.

Lemma citation_step_pt (st : bool * list string) (rest : string) :
  citation_step st ("pt" ++ rest) = st.
Proof. destruct st; reflexivity. Qed.

(** C2. The subtitle, subchapter and subpart prefixes all begin with the
    section marker, and the loop tests the section marker first: such a
    segment is not skipped but starts accumulation, so the identifier of
    Subtitle A yields "26 USC tA" instead of falling back to the declared
    number, and a section below a subtitle segment is cited as "tA1". *)
Theorem citation_subtitle_segment_accumulated :
  (forall st rest,
      citation_step st ("st" ++ rest) = (true, List.app (snd st) ["t" ++ rest])
      /\ citation_step st ("sch" ++ rest)
         = (true, List.app (snd st) ["ch" ++ rest])
      /\ citation_step st ("spt" ++ rest)
         = (true, List.app (snd st) ["pt" ++ rest]))
  /\ _build_citation_id SUBTITLE (Some "Subtitle A") "/us/usc/t26/stA"
     = "26 USC tA"
  /\ _build_citation_id SECTION None "/us/usc/t26/stA/ch1/s1" = "26 USC tA1".
Proof.
  split; [|split; reflexivity].
  intros [b sp] rest; repeat split.
Qed.

(** ** Cross-reference extractor *)

Lemma fold_left_inv {A B} (I : A -> Prop) (f : A -> B -> A) (l : list B) :
  (forall st x, I st -> I (f st x)) -> forall st, I st -> I (fold_left f l st).
Proof.
  intros Hf. induction l as [|x l IH]; intros st H; simpl; [assumption|].
  apply IH, Hf, H.
Qed.

Lemma reference_step_inv text ref_type m_start m_end st section :
  dedup_inv st ->
  dedup_inv (reference_step text ref_type m_start m_end st section).
Proof.
  intros [Hnd Hsub]. destruct st as [refs seen].
  unfold reference_step. destruct section as [sec|]; [|now split].
  destruct (Py.truthy sec && negb (in_seen sec seen)) eqn:E; [|now split].
  apply andb_prop in E as [_ E]. apply negb_true_iff in E.
  assert (~ In sec seen) as Hnew.
  { intros Hin. unfold in_seen in E.
    enough (existsb (String.eqb sec) seen = true) by congruence.
    apply existsb_exists. exists sec. split; [assumption|].
    apply String.eqb_refl. }
  unfold dedup_inv. cbn [fst snd] in *. split.
  - rewrite map_app. apply NoDup_app; [assumption | |].
    + cbn. constructor; [intros [] | constructor].
    + intros t Ht [<-|[]]. apply Hnew, Hsub, Ht.
  - intros t Ht. rewrite map_app in Ht. apply in_app_or in Ht as [Ht|[<-|[]]].
    + right. apply Hsub, Ht.
    + now left.
Qed.

(** Deduplication is keyed on the designator alone: whatever the text,
    no two returned references share a target. *)
Lemma extract_references_distinct_targets (text : string) :
  NoDup (map target_section (extract_references text)).
Proof.
  unfold extract_references.
  destruct (negb (Py.truthy text)); [constructor|].
  apply (fold_left_inv dedup_inv).
  - intros st [[pattern ngroups] ref_type] Hst.
    apply (fold_left_inv dedup_inv); [|assumption].
    intros st' [[m_start m_end] cs] Hst'.
    apply (fold_left_inv dedup_inv); [|assumption].
    intros st'' section. apply reference_step_inv.
  - split; [constructor | intros t []].
Qed.

(** *** What the matcher finds *)

Lemma forall_ascii_spec (f : ascii -> bool) :
  forall_ascii f = true -> forall c, f c = true.
Proof.
  unfold forall_ascii. intros H c.
  rewrite forallb_forall in H.
  rewrite <- (ascii_nat_embedding c). apply H.
  apply in_seq. pose proof (nat_ascii_bounded c). lia.
Qed.

Lemma forall_ascii_impl (P Q : ascii -> bool) :
  forall_ascii (fun c => implb (P c) (Q c)) = true ->
  forall c, P c = true -> Q c = true.
Proof.
  intros H c Hc. pose proof (forall_ascii_spec _ H c) as HQ.
  cbn beta in HQ. now rewrite Hc in HQ.
Qed.

Section Sound.
Variable txt : string.

Lemma mtch_sound (r : Re.regex) :
  forall i cs k res,
    Re.mtch txt r i cs k = Some res ->
    exists j cs', matches txt r i j /\ k j cs' = Some res.
Proof.
  induction r as [s|p| |r1 IH1 r2 IH2|r1 IH1 r2 IH2|r1 IH1|r1 IH1|n r1 IH1];
    intros i cs k res H; cbn [Re.mtch] in H.
  - destruct (Re.lit_at s (Py.drop i txt)) eqn:E; [|discriminate].
    found.
  - destruct (Re.get i txt) as [c|] eqn:E; [|discriminate].
    destruct (Re.cls_at p c) eqn:Ec; [|discriminate].
    found.
  - destruct (Re.boundary txt i) eqn:E; [|discriminate].
    found.
  - apply IH1 in H as (j & cs1 & M1 & H).
    apply IH2 in H as (j2 & cs2 & M2 & H).
    found.
  - destruct (Re.mtch txt r1 i cs k) eqn:E.
    + apply IH1 in E as (j & cs1 & M1 & E). injection H as <-. found.
    + apply IH2 in H as (j & cs1 & M1 & H). found.
  - remember (S (String.length txt - i)) as fuel eqn:Hf. clear Hf.
    revert i cs H. induction fuel as [|fuel IHf]; intros i cs H;
      cbn [Re.star_loop] in H.
    + found.
    + match type of H with
      | match ?m with _ => _ end = _ => destruct m eqn:E
      end.
      * injection H as <-. apply IH1 in E as (j & cs1 & M1 & E).
        destruct (i <? j)%nat eqn:Lt; [|discriminate].
        apply Nat.ltb_lt in Lt.
        apply IHf in E as (j2 & cs2 & M2 & E).
        found.
      * found.
  - destruct (Re.mtch txt r1 i cs k) eqn:E.
    + apply IH1 in E as (j & cs1 & M1 & E). injection H as <-. found.
    + found.
  - apply IH1 in H as (j & cs1 & M1 & H). found.
Qed.

Lemma matches_seq_inv r1 r2 i k :
  matches txt (Re.Seq r1 r2) i k ->
  exists j, matches txt r1 i j /\ matches txt r2 j k.
Proof. inversion 1; eauto. Qed.

Lemma matches_lit_inv s i j :
  matches txt (Re.Lit s) i j ->
  j = i + String.length s /\ Re.lit_at s (Py.drop i txt) = true.
Proof. inversion 1; auto. Qed.

Lemma matches_cls_inv p i j :
  matches txt (Re.Cls p) i j ->
  j = S i /\ exists c, Re.get i txt = Some c /\ Re.cls_at p c = true.
Proof. inversion 1; eauto. Qed.

Lemma matches_wordb_inv i j : matches txt Re.WordB i j -> j = i.
Proof. inversion 1; auto. Qed.

Lemma matches_group_inv n r i j :
  matches txt (Re.Group n r) i j -> matches txt r i j.
Proof. inversion 1; auto. Qed.

Lemma matches_le r i j : matches txt r i j -> i <= j.
Proof. induction 1; lia. Qed.

Lemma get_drop i s : Re.get i s =
  match Py.drop i s with EmptyString => None | String c _ => Some c end.
Proof.
  revert s. induction i as [|i IH]; intros [|c s]; simpl; try reflexivity.
  apply IH.
Qed.

Lemma drop_drop a b s : Py.drop b (Py.drop a s) = Py.drop (a + b) s.
Proof.
  revert s. induction a as [|a IH]; intros s; simpl; [reflexivity|].
  destruct s as [|c s]; [now destruct b|]. apply IH.
Qed.

(** A matched literal: each of its characters faces a character of the
    text that agrees with it up to case. *)
Lemma lit_at_get (lit : string) :
  forall s, Re.lit_at lit s = true ->
  forall n a, Re.get n lit = Some a ->
    exists c, Re.get n s = Some c
              /\ Py.lower_char a = Py.lower_char c.
Proof.
  induction lit as [|x lit IH]; intros s H n a Hn; [destruct n; discriminate|].
  destruct s as [|y s]; [discriminate|].
  cbn [Re.lit_at] in H. apply andb_prop in H as [Hxy H].
  destruct n as [|n]; cbn [Re.get] in *.
  - injection Hn as <-. exists y. split; [reflexivity|].
    now apply Ascii.eqb_eq.
  - eapply IH; eassumption.
Qed.

Lemma get_some_lt n s c : Re.get n s = Some c -> n < String.length s.
Proof.
  revert n. induction s as [|x s IH]; intros n H; [destruct n; discriminate|].
  destruct n as [|n]; simpl in *; [lia|]. apply IH in H. lia.
Qed.

Lemma get_lt_some n s : n < String.length s -> exists c, Re.get n s = Some c.
Proof.
  revert n. induction s as [|x s IH]; intros n H; simpl in H; [lia|].
  destruct n as [|n]; simpl; [eauto|]. apply IH. lia.
Qed.

Lemma get_drop_add i n s : Re.get n (Py.drop i s) = Re.get (i + n) s.
Proof. now rewrite !get_drop, drop_drop. Qed.

Lemma get_in n s a : Re.get n s = Some a -> In a (list_ascii_of_string s).
Proof.
  revert n. induction s as [|x s IH]; intros n H; [destruct n; discriminate|].
  destruct n as [|n]; simpl in *; [injection H as <-; auto|eauto].
Qed.

Lemma matches_chars (Q : ascii -> bool) r i j :
  matches txt r i j -> consumes Q r = true ->
  forall q, i <= q < j -> exists c, Re.get q txt = Some c /\ Q c = true.
Proof.
  induction 1 as [s i H|p i c Hg Hc|i H|r1 r2 i j k M1 IH1 M2 IH2
                 |r1 r2 i j M1 IH1|r1 r2 i j M1 IH1|r i
                 |r i j k M1 IH1 Lt M2 IH2|r i|r i j M1 IH1|n r i j M1 IH1];
    cbn [consumes]; intros HC q Hq; try lia.
  - destruct (get_lt_some (q - i) s ltac:(lia)) as [a Ha].
    destruct (lit_at_get _ _ H _ _ Ha) as (c & Hc & Hl).
    rewrite get_drop_add in Hc. replace (i + (q - i)) with q in Hc by lia.
    exists c. split; [assumption|].
    rewrite forallb_forall in HC. specialize (HC a (get_in _ _ _ Ha)).
    pose proof (forall_ascii_spec _ HC c) as HQ. cbn beta in HQ.
    apply Ascii.eqb_eq in Hl. now rewrite Hl in HQ.
  - assert (q = i) as -> by lia. exists c. split; [assumption|].
    pose proof (forall_ascii_spec _ HC c) as HQ. cbn beta in HQ.
    now rewrite Hc in HQ.
  - apply andb_prop in HC as [HC1 HC2].
    destruct (Nat.lt_ge_cases q j); [apply IH1 | apply IH2]; auto; lia.
  - apply andb_prop in HC as [HC1 HC2]. now apply IH1.
  - apply andb_prop in HC as [HC1 HC2]. now apply IH1.
  - destruct (Nat.lt_ge_cases q j); [apply IH1 | apply IH2]; auto; lia.
  - now apply IH1.
  - now apply IH1.
Qed.
End Sound.

Lemma s_is_word c : is_s c = true -> Py.isword c = true.
Proof. apply forall_ascii_impl. vm_compute. reflexivity. Qed.

Lemma s_not_space c : is_s c = true -> Py.isspace c = false.
Proof.
  intros H. apply negb_true_iff. revert c H.
  apply forall_ascii_impl. vm_compute. reflexivity.
Qed.

Lemma s_not_digit c : is_s c = true -> Re.cls_at Py.isdigit c = false.
Proof.
  intros H. apply negb_true_iff. revert c H.
  apply forall_ascii_impl. vm_compute. reflexivity.
Qed.

Lemma like_space c :
  Ascii.eqb (Py.lower_char " ") (Py.lower_char c) = true -> c = " "%char.
Proof.
  intros H. apply Ascii.eqb_eq. revert c H.
  apply forall_ascii_impl. vm_compute. reflexivity.
Qed.

Lemma lit_at_app (a b s : string) :
  Re.lit_at (a ++ b) s
  = Re.lit_at a s && Re.lit_at b (Py.drop (String.length a) s).
Proof.
  revert s. induction a as [|x a IH]; intros s; simpl.
  - now destruct s.
  - destruct s as [|y s]; [reflexivity|].
    rewrite IH. now rewrite andb_assoc.
Qed.

Section Patterns.
Variable txt : string.

Lemma word_at_s q :
  Re.lit_at "section" (Py.drop q txt) = true -> Re.word_at txt q = true.
Proof.
  intros H. destruct (lit_at_get _ _ H 0 "s"%char eq_refl) as (c & Hc & Hl).
  rewrite get_drop_add, Nat.add_0_r in Hc.
  unfold Re.word_at. rewrite Hc. apply s_is_word.
  unfold is_s. now apply Ascii.eqb_eq.
Qed.

(** Where "section" follows a space, the first pattern matches exactly as
    its tail does behind the word. *)
Lemma plain_section_at q k :
  section_after_space txt q ->
  Re.mtch txt plain_section q [] k = Re.mtch txt ws_designator (q + 7) [] k.
Proof.
  intros (q' & -> & Hsp & Hlit).
  unfold plain_section. cbn [Re.mtch].
  unfold Re.boundary. rewrite (word_at_s _ Hlit).
  unfold Re.word_at at 1. rewrite Hsp.
  replace (Py.isword " ") with false by reflexivity. cbn [xorb].
  rewrite Hlit. reflexivity.
Qed.

(** A literal that ends in " section" leads to such a place. *)
Lemma lit_section_after_space (pre : string) i :
  Re.lit_at (pre ++ " section") (Py.drop i txt) = true ->
  section_after_space txt (i + String.length pre + 1).
Proof.
  intros H. rewrite lit_at_app, drop_drop in H.
  apply andb_prop in H as [_ H].
  change " section" with (" " ++ "section") in H.
  rewrite lit_at_app, drop_drop in H. apply andb_prop in H as [Hsp Hsec].
  exists (i + String.length pre). repeat split; [lia | |].
  - destruct (lit_at_get _ _ Hsp 0 " "%char eq_refl) as (c & Hc & Hl).
    rewrite get_drop_add, Nat.add_0_r in Hc. rewrite Hc. f_equal.
    apply like_space. now apply Ascii.eqb_eq.
  - exact Hsec.
Qed.
End Patterns.

Section Typed.
Variable txt : string.

(** Every match of a typed pattern ends in a match of [\s+(D)] behind a
    "section" that follows a space. *)
Lemma typed_pattern_tail r i k res :
  typed_pattern r ->
  Re.mtch txt r i [] k = Some res ->
  exists q, section_after_space txt q
            /\ Re.mtch txt ws_designator (q + 7) [] k = Some res.
Proof.
  intros [-> | [-> | ->]] H.
  - unfold p_definition in H. cbn [Re.mtch] in H.
    destruct (Re.lit_at _ _) eqn:E in H; [|discriminate].
    apply (lit_section_after_space txt "as defined in") in E.
    eexists. split; [exact E|].
    cbn [String.length] in *. rewrite <- H. f_equal. lia.
  - unfold p_subject_to in H. cbn [Re.mtch String.length] in H.
    destruct (Re.lit_at "subject to " _) eqn:E1 in H; [|discriminate].
    match type of H with
    | match ?A with _ => _ end = _ => destruct A as [x|] eqn:EA
    end.
    + injection H as ->.
      destruct (Re.lit_at "the provisions of " _) eqn:E2 in EA;
        [|discriminate].
      destruct (Re.lit_at "section" _) eqn:E3 in EA; [|discriminate].
      exists (i + 11 + 18). split; [|exact EA].
      exists (i + 11 + 17). repeat split; [lia | | exact E3].
      destruct (lit_at_get _ _ E2 17 " "%char eq_refl) as (c & Hc & Hl).
      rewrite get_drop_add in Hc. rewrite Hc. f_equal.
      apply like_space. now apply Ascii.eqb_eq.
    + destruct (Re.lit_at "section" _) eqn:E4 in H; [|discriminate].
      exists (i + 11). split; [|exact H].
      exists (i + 10). repeat split; [lia | | exact E4].
      destruct (lit_at_get _ _ E1 10 " "%char eq_refl) as (c & Hc & Hl).
      rewrite get_drop_add in Hc. rewrite Hc. f_equal.
      apply like_space. now apply Ascii.eqb_eq.
  - unfold p_exception in H. cbn [Re.mtch] in H.
    destruct (Re.lit_at _ _) eqn:E in H; [|discriminate].
    apply (lit_section_after_space txt "except as provided in") in E.
    eexists. split; [exact E|].
    cbn [String.length] in *. rewrite <- H. f_equal. lia.
Qed.

(** So wherever a typed pattern matches, the first pattern matches too,
    a little further right, with the same end and the same group. *)
Lemma typed_match_is_plain r i e cs :
  typed_pattern r ->
  Re.match_at txt r i = Some (i, e, cs) ->
  exists q, section_after_space txt q
            /\ Re.match_at txt plain_section q = Some (q, e, cs).
Proof.
  intros T H. unfold Re.match_at in *.
  destruct (Re.mtch txt r i [] _) as [[j cs']|] eqn:E; [|discriminate].
  injection H as <- <-.
  destruct (typed_pattern_tail _ _ _ _ T E) as (q & Hq & Hm).
  exists q. split; [assumption|].
  now rewrite (plain_section_at txt q _ Hq), Hm.
Qed.
End Typed.

Section Overlap.
Variable txt : string.

Lemma match_at_start r i m :
  Re.match_at txt r i = Some m -> exists e cs, m = (i, e, cs).
Proof.
  unfold Re.match_at. destruct (Re.mtch txt r i [] _) as [[j cs]|];
    [|discriminate].
  intros [= <-]. eauto.
Qed.

Lemma match_at_matches r i e cs :
  Re.match_at txt r i = Some (i, e, cs) -> matches txt r i e.
Proof.
  unfold Re.match_at.
  destruct (Re.mtch txt r i [] _) as [[j cs']|] eqn:E; [|discriminate].
  intros [= <- <-].
  apply mtch_sound in E as (j' & cs'' & M & [= <- <-]). exact M.
Qed.

(** A match of the first pattern is not empty, and it ends before any
    later "section" that follows a space: the space can only belong to the
    whitespace run, and what follows the run is a digit. *)
Lemma plain_section_no_overlap s e cs :
  Re.match_at txt plain_section s = Some (s, e, cs) ->
  s < e
  /\ forall q, s < q -> section_after_space txt q -> e <= q.
Proof.
  intros H. apply match_at_matches in H.
  unfold plain_section, ws_designator in H.
  apply matches_seq_inv in H as (j0 & HB & H).
  apply matches_wordb_inv in HB as ->.
  apply matches_seq_inv in H as (a & HL & H).
  apply matches_seq_inv in H as (b & HW & HG).
  apply matches_group_inv in HG as HD.
  destruct (matches_lit_inv _ _ _ _ HL) as [-> HLit].
  cbn [String.length] in *.
  assert (s + 7 < b) as Hab.
  { unfold ws1, Re.Plus in HW.
    apply matches_seq_inv in HW as (j1 & HC & HS).
    apply matches_cls_inv in HC as [-> _]. apply matches_le in HS. lia. }
  pose proof (matches_le _ _ _ _ HD) as LeD.
  split; [lia|].
  intros q Hsq (q' & -> & Hsp & Hsec).
  destruct (Nat.le_gt_cases e (S q')) as [|Hlt]; [assumption|exfalso].
  assert (exists c, Re.get (S q') txt = Some c /\ is_s c = true)
    as (c0 & Hc0 & Hs0).
  { destruct (lit_at_get _ _ Hsec 0 "s"%char eq_refl) as (c & Hc & Hl).
    rewrite get_drop_add, Nat.add_0_r in Hc. exists c. split; [assumption|].
    unfold is_s. now apply Ascii.eqb_eq. }
  destruct (Nat.lt_ge_cases q' (s + 7)) as [Hin|Hout].
  - (* the space would lie inside the word *)
    destruct (matches_chars txt not_space _ _ _ HL eq_refl q' ltac:(lia))
      as (c & Hc & HQ).
    rewrite Hsp in Hc. injection Hc as <-. discriminate HQ.
  - destruct (Nat.lt_ge_cases q' b) as [Hws|Hd].
    + destruct (Nat.lt_ge_cases (S q') b) as [Hws'|Hfirst].
      * (* the "s" would lie inside the whitespace run *)
        destruct (matches_chars txt Py.isspace _ _ _ HW eq_refl (S q')
                    ltac:(lia)) as (c & Hc & HQ).
        rewrite Hc0 in Hc. injection Hc as <-.
        rewrite (s_not_space _ Hs0) in HQ. discriminate.
      * (* the "s" would be the first character of the designator *)
        assert (b = S q') as -> by lia.
        unfold designator, Re.Plus in HD.
        apply matches_seq_inv in HD as (j1 & HD1 & _).
        apply matches_seq_inv in HD1 as (j2 & HD2 & _).
        apply matches_cls_inv in HD2 as (_ & c & Hc & HQ).
        rewrite Hc0 in Hc. injection Hc as <-.
        rewrite (s_not_digit _ Hs0) in HQ. discriminate.
    + (* the space would lie inside the designator *)
      destruct (matches_chars txt not_space _ _ _ HD eq_refl q' ltac:(lia))
        as (c & Hc & HQ).
      rewrite Hsp in Hc. injection Hc as <-. discriminate HQ.
Qed.

Lemma section_after_space_in_text q :
  section_after_space txt q -> q <= String.length txt.
Proof.
  intros (q' & -> & Hsp & _). apply get_some_lt in Hsp. lia.
Qed.
End Overlap.

Section Finditer.
Variable txt : string.
Variable r : Re.regex.

Lemma search_some fuel pos m :
  Re.search txt r fuel pos = Some m ->
  exists s, pos <= s <= pos + fuel
            /\ Re.match_at txt r s = Some m
            /\ forall p, pos <= p < s -> Re.match_at txt r p = None.
Proof.
  revert pos. induction fuel as [|fuel IH]; intros pos; cbn [Re.search].
  - destruct (Re.match_at txt r pos) eqn:E; [|discriminate].
    intros [= <-]. exists pos. repeat split; [lia | lia | assumption |].
    intros x Hx. lia.
  - destruct (Re.match_at txt r pos) eqn:E.
    + intros [= <-]. exists pos. repeat split; [lia | lia | assumption |].
      intros x Hx. lia.
    + intros H. apply IH in H as (s & Hs & Hm & Hnone).
      exists s. repeat split; [lia | lia | assumption |].
      intros x Hx. destruct (Nat.eq_dec x pos) as [->|]; [assumption|].
      apply Hnone. lia.
Qed.

Lemma search_none fuel pos :
  Re.search txt r fuel pos = None ->
  forall p, pos <= p <= pos + fuel -> Re.match_at txt r p = None.
Proof.
  revert pos. induction fuel as [|fuel IH]; intros pos; cbn [Re.search].
  - destruct (Re.match_at txt r pos) eqn:E; [discriminate|].
    intros _ x Hx. now replace x with pos by lia.
  - destruct (Re.match_at txt r pos) eqn:E; [discriminate|].
    intros H x Hx. destruct (Nat.eq_dec x pos) as [->|]; [assumption|].
    apply (IH _ H). lia.
Qed.

(** Every match [finditer] yields is a match of the pattern where it
    starts. *)
Lemma finditer_from_sound fuel pos s e cs :
  In (s, e, cs) (Re.finditer_from txt r fuel pos) ->
  Re.match_at txt r s = Some (s, e, cs).
Proof.
  revert pos. induction fuel as [|fuel IH]; intros pos; cbn [Re.finditer_from];
    [intros []|].
  destruct (Re.search txt r _ pos) as [[[s0 e0] cs0]|] eqn:E; [|intros []].
  apply search_some in E as (s1 & _ & Hm & _).
  destruct (match_at_start _ _ _ _ Hm) as (e1 & cs1 & [= -> -> ->]).
  intros [[= <- <- <-]|Hin]; [assumption|].
  destruct (_ <? _)%nat in Hin; [destruct Hin|]. eapply IH, Hin.
Qed.

(** [finditer] yields the match at [q] when no match that starts before
    [q] reaches beyond it. *)
Lemma finditer_from_complete q m :
  Re.match_at txt r q = Some m ->
  q <= String.length txt ->
  forall fuel pos,
    pos <= q -> q - pos < fuel ->
    (forall s e cs, pos <= s < q ->
                    Re.match_at txt r s = Some (s, e, cs) -> s < e <= q) ->
    In m (Re.finditer_from txt r fuel pos).
Proof.
  intros Hq Hlen. induction fuel as [|fuel IH]; intros pos Hpos Hfuel Hno;
    [lia|].
  cbn [Re.finditer_from].
  destruct (Re.search txt r _ pos) as [[[s e] cs]|] eqn:E.
  - apply search_some in E as (s1 & Hs1 & Hm & Hnone).
    destruct (match_at_start _ _ _ _ Hm) as (e1 & cs1 & [= <- <- <-]).
    destruct (Nat.lt_trichotomy s q) as [Hlt|[->|Hgt]].
    + destruct (Hno s e cs ltac:(lia) Hm) as [Hse Heq].
      right. replace (s <? e)%nat with true by (symmetry; now apply Nat.ltb_lt).
      replace (String.length txt <? e)%nat with false
        by (symmetry; apply Nat.ltb_ge; lia).
      apply IH; [lia | lia |].
      intros s' e' cs' Hs'. apply Hno. lia.
    + left. congruence.
    + rewrite (Hnone q ltac:(lia)) in Hq. discriminate.
  - rewrite (search_none _ _ E q ltac:(lia)) in Hq. discriminate.
Qed.
End Finditer.

(** *** The typed patterns never fire *)

Section Folds.
Variable text : string.

Lemma in_seen_true g seen : In g seen -> in_seen g seen = true.
Proof.
  intros H. unfold in_seen. apply existsb_exists.
  exists g. split; [assumption | apply String.eqb_refl].
Qed.

Lemma step_mono ty ms me st sec :
  incl (snd st) (snd (reference_step text ty ms me st sec)).
Proof.
  destruct st as [refs seen]. unfold reference_step.
  destruct sec as [g|]; [|apply incl_refl].
  destruct (_ && _); [|apply incl_refl].
  cbn [snd]. apply incl_tl, incl_refl.
Qed.

Lemma step_adds ty ms me st g :
  Py.truthy g = true ->
  In g (snd (reference_step text ty ms me st (Some g))).
Proof.
  intros T. destruct st as [refs seen]. unfold reference_step. rewrite T.
  destruct (in_seen g seen) eqn:E; cbn [andb negb snd].
  - unfold in_seen in E. apply existsb_exists in E as (x & Hx & E).
    apply String.eqb_eq in E. now subst x.
  - now left.
Qed.

Lemma step_noop ty ms me st sec :
  (forall g, sec = Some g -> Py.truthy g = true -> In g (snd st)) ->
  reference_step text ty ms me st sec = st.
Proof.
  intros H. destruct st as [refs seen]. unfold reference_step.
  destruct sec as [g|]; [|reflexivity].
  destruct (Py.truthy g) eqn:T; [|reflexivity].
  now rewrite (in_seen_true g seen (H g eq_refl T)).
Qed.

Lemma step_general ms me st sec :
  all_general st ->
  all_general (reference_step text "general" ms me st sec).
Proof.
  intros H. destruct st as [refs seen]. unfold reference_step.
  destruct sec as [g|]; [|assumption].
  destruct (_ && _); [|assumption].
  intros r Hr. cbn [fst] in Hr. apply in_app_or in Hr as [Hr|[<-|[]]].
  - now apply H.
  - reflexivity.
Qed.

Lemma fold_mono {B}
  (f : list Reference * list string -> B -> list Reference * list string)
  (l : list B) :
  (forall st x, incl (snd st) (snd (f st x))) ->
  forall st, incl (snd st) (snd (fold_left f l st)).
Proof.
  intros Hf. induction l as [|x l IH]; intros st; simpl; [apply incl_refl|].
  eapply incl_tran; [apply Hf | apply IH].
Qed.

Lemma fold_noop {B}
  (f : list Reference * list string -> B -> list Reference * list string)
  (l : list B) st :
  (forall x, In x l -> f st x = st) -> fold_left f l st = st.
Proof.
  induction l as [|x l IH]; intros H; simpl; [reflexivity|].
  rewrite (H x (or_introl eq_refl)). apply IH. intros y Hy. apply H. now right.
Qed.

Lemma groups_mono ty ms me gs st :
  incl (snd st) (snd (fold_left (reference_step text ty ms me) gs st)).
Proof. apply fold_mono. intros. apply step_mono. Qed.

Lemma groups_adds ty ms me gs g :
  In (Some g) gs -> Py.truthy g = true ->
  forall st, In g (snd (fold_left (reference_step text ty ms me) gs st)).
Proof.
  intros Hin T. induction gs as [|x gs IH]; intros st; [destruct Hin|].
  simpl. destruct Hin as [->|Hin].
  - apply (groups_mono ty ms me gs). now apply step_adds.
  - now apply IH.
Qed.

Lemma process_mono pat st : incl (snd st) (snd (process text pat st)).
Proof.
  destruct pat as [[pattern ngroups] ty]. unfold process.
  apply fold_mono. intros st' [[ms me] cs].
  exact (groups_mono ty ms me (Re.groups text ngroups cs) st').
Qed.

(** After the first pattern has run, its designators are all seen. *)
Lemma process_plain_covers ty st :
  covered text (process text (plain_section, 1, ty) st).
Proof.
  unfold covered, process. intros s e cs g Hm Hg T.
  induction (Re.finditer text plain_section) as [|m l IH] in st, Hm |- *;
    [destruct Hm|].
  cbn [fold_left]. destruct Hm as [->|Hm].
  - apply (fold_mono _ l).
    + intros st' [[ms me] cs'].
      exact (groups_mono ty ms me (Re.groups text 1 cs') st').
    + exact (groups_adds ty s e (Re.groups text 1 cs) g Hg T st).
  - now apply IH.
Qed.

Lemma covered_mono st st' :
  covered text st -> incl (snd st) (snd st') -> covered text st'.
Proof. intros H I s e cs g Hm Hg T. eapply I, H; eassumption. Qed.

(** Once the designators of the first pattern are seen, a typed pattern
    adds nothing: each of its captures was captured before. *)
Lemma process_typed_noop r ty st :
  typed_pattern r -> covered text st ->
  process text (r, 1, ty) st = st.
Proof.
  intros T C. unfold process. apply fold_noop.
  intros [[s e] cs] Hm. apply fold_noop. intros sec Hsec.
  apply step_noop. intros g -> Tg.
  apply finditer_from_sound in Hm.
  destruct (typed_match_is_plain text r s e cs T Hm) as (q & Hq & Hp).
  apply (C q e cs g); [|assumption|assumption].
  pose proof (section_after_space_in_text text q Hq) as Hlen.
  apply (finditer_from_complete text plain_section q _ Hp Hlen); [lia | lia |].
  intros s' e' cs' Hs' Hm'.
  destruct (plain_section_no_overlap text s' e' cs' Hm') as [Hne Hov].
  split; [assumption|]. apply Hov; [lia | assumption].
Qed.

Lemma process_general r n st :
  all_general st -> all_general (process text (r, n, "general") st).
Proof.
  intros H. unfold process.
  apply (fold_left_inv all_general); [|assumption].
  intros st' [[ms me] cs] H'.
  apply (fold_left_inv all_general); [|assumption].
  intros st'' sec. apply step_general.
Qed.
End Folds.

(** Whatever the text, every reference [extract_references] returns has
    the type general: the first pattern claims every designator that a
    typed pattern could capture. *)
Lemma extract_references_all_general (text : string) (r : Reference) :
  In r (extract_references text) -> reference_type r = "general".
Proof.
  unfold extract_references.
  destruct (negb (Py.truthy text)); [intros []|].
  unfold SECTION_REFERENCE_PATTERNS. cbn [fold_left].
  set (st0 := (([] : list Reference), ([] : list string))).
  set (st1 := process text (plain_section, 1, "general") st0).
  assert (all_general st1 /\ covered text st1) as [G1 C1].
  { split; [apply process_general; intros ? [] | apply process_plain_covers]. }
  set (st2 := process text (section_pair, 2, "general") st1).
  assert (all_general st2 /\ covered text st2) as [G2 C2].
  { split; [now apply process_general|].
    eapply covered_mono; [exact C1 | apply process_mono]. }
  set (st3 := process text (sec_abbrev, 1, "general") st2).
  assert (all_general st3 /\ covered text st3) as [G3 C3].
  { split; [now apply process_general|].
    eapply covered_mono; [exact C2 | apply process_mono]. }
  rewrite (process_typed_noop text p_definition "definition" st3);
    [|unfold typed_pattern; auto | assumption].
  rewrite (process_typed_noop text p_subject_to "subject_to" st3);
    [|unfold typed_pattern; auto | assumption].
  rewrite (process_typed_noop text p_exception "exception" st3);
    [|unfold typed_pattern; auto | assumption].
  intros H.
  exact (process_general text _ _ _
           (process_general text _ _ _
              (process_general text _ _ _ G3)) r H).
Qed.

(** C1. On a text with "as defined in section 162" and two more
    "section 162", extraction returns one reference with target "162", but
    its type is general, not definition.  This is no accident of the text:
    the plain "section X" pattern stands first in the list and claims
    every designator before a typed pattern runs, so on no text at all is
    a reference of type definition, subject_to or exception returned. *)
Theorem extract_references_162_is_general :
  extract_references Examples.text_162
  = [ mkReference "162"
        "...as defined in section 162, section 162 and again sectio..."
        "general" ]
  /\ forall text r,
       In r (extract_references text) -> reference_type r = "general".
Proof.
  split; [vm_compute; reflexivity|].
  exact extract_references_all_general.
Qed.

(** ** Status classifier *)



(** The status example: no attribute, a repeal marker in the body. *)
Example status_repealed_by_text :
  _determine_status (Examples.sec "2" "[Repealed]") = REPEALED.
Proof. vm_compute. reflexivity. Qed.

(** ** Text normalisation *)

Section Strip.
Variable p : ascii -> bool.

Lemma lstrip_head_kept (s : string) :
  head_kept p (Py.lstrip_by p s) = true.
Proof.
  induction s as [|c s IH]; simpl; [reflexivity|].
  destruct (p c) eqn:E; [exact IH|]. simpl. now rewrite E.
Qed.

Lemma lstrip_fixed (s : string) :
  head_kept p s = true -> Py.lstrip_by p s = s.
Proof.
  destruct s as [|c s]; simpl; [reflexivity|].
  now destruct (p c).
Qed.

Lemma rstrip_head_kept (s : string) :
  head_kept p s = true -> head_kept p (Py.rstrip_by p s) = true.
Proof.
  destruct s as [|c s]; simpl; [reflexivity|].
  intros H. destruct (Py.rstrip_by p s); simpl.
  - destruct (p c) eqn:E; [discriminate | simpl; now rewrite E].
  - assumption.
Qed.

Lemma rstrip_idem (s : string) :
  Py.rstrip_by p (Py.rstrip_by p s) = Py.rstrip_by p s.
Proof.
  induction s as [|c s IH]; simpl; [reflexivity|].
  destruct (Py.rstrip_by p s) as [|d r] eqn:E.
  - destruct (p c) eqn:Ec; simpl; [reflexivity|]. now rewrite Ec.
  - change (Py.rstrip_by p (String c (String d r)))
      with (match Py.rstrip_by p (String d r) with
            | EmptyString =>
                if p c then EmptyString else String c EmptyString
            | r0 => String c r0
            end).
    now rewrite IH.
Qed.

Lemma strip_by_idem (s : string) :
  Py.strip_by p (Py.strip_by p s) = Py.strip_by p s.
Proof.
  unfold Py.strip_by.
  rewrite (lstrip_fixed (Py.rstrip_by p (Py.lstrip_by p s))).
  - apply rstrip_idem.
  - apply rstrip_head_kept, lstrip_head_kept.
Qed.
End Strip.

Lemma ws_normal_weaken (s : string) :
  ws_normal true s = true -> ws_normal false s = true.
Proof.
  destruct s as [|c s]; simpl; [reflexivity|].
  destruct (Py.isspace c); [|trivial].
  rewrite andb_false_r. discriminate.
Qed.

Lemma sub_ws_normal (s : string) :
  forall b, ws_normal b (sub_ws b s) = true.
Proof.
  induction s as [|c s IH]; intros b; simpl; [reflexivity|].
  destruct (Py.isspace c) eqn:E.
  - destruct b; [apply IH|]. simpl. apply IH.
  - simpl. rewrite E. apply IH.
Qed.


Lemma lstrip_ws_normal (s : string) :
  forall b, ws_normal b s = true ->
            ws_normal false (Py.lstrip_by Py.isspace s) = true.
Proof.
  induction s as [|c s IH]; intros b; simpl; [reflexivity|].
  destruct (Py.isspace c) eqn:E.
  - intros H. apply andb_prop in H as [_ Hs]. exact (IH true Hs).
  - intros H. simpl. now rewrite E.
Qed.

Lemma rstrip_ws_normal (s : string) :
  forall b, ws_normal b s = true ->
            ws_normal b (Py.rstrip_by Py.isspace s) = true.
Proof.
  induction s as [|c s IH]; intros b; simpl; [reflexivity|].
  destruct (Py.isspace c) eqn:E.
  - intros H. apply andb_prop in H as [Hcb Hs].
    specialize (IH true Hs).
    destruct (Py.rstrip_by Py.isspace s) as [|d r]; [reflexivity|].
    change (ws_normal b (String c (String d r)) = true).
    cbn [ws_normal] in *. rewrite E, Hcb. exact IH.
  - intros H. specialize (IH false H).
    destruct (Py.rstrip_by Py.isspace s) as [|d r].
    + simpl. now rewrite E.
    + change (ws_normal b (String c (String d r)) = true).
      cbn [ws_normal] in *. rewrite E. exact IH.
Qed.

(** The output of the normaliser is whitespace-normal and trimmed. *)
Lemma clean_text_ws_normal (s : string) :
  ws_normal false (_clean_text s) = true.
Proof.
  unfold _clean_text, Py.strip, Py.strip_by.
  apply rstrip_ws_normal, (lstrip_ws_normal _ false), sub_ws_normal.
Qed.





(** ** Table converter *)

Lemma replace_pipe_escaped (s : string) :
  forall prev, pipes_escaped prev (Py.replace_char "|" "\|" s) = true.
Proof.
  induction s as [|c s IH]; intros prev; simpl; [reflexivity|].
  destruct (Ascii.eqb c "|") eqn:E.
  - simpl. apply IH.
  - simpl. rewrite E. apply IH.
Qed.

Lemma row_cells_escaped (tr : element) : Forall cell_escaped (row_cells tr).
Proof.
  unfold row_cells. apply Forall_map, Forall_forall.
  intros cell _. apply replace_pipe_escaped.
Qed.

Lemma table_rows_escaped (table : element) :
  Forall (Forall cell_escaped) (table_rows table).
Proof.
  unfold table_rows. apply Forall_forall. intros r Hr.
  apply filter_In in Hr as [Hr _]. apply in_map_iff in Hr as [tr [<- _]].
  apply row_cells_escaped.
Qed.

Lemma table_rows_nonempty (table : element) :
  Forall (fun r => r <> []) (table_rows table).
Proof.
  unfold table_rows. apply Forall_forall. intros r Hr.
  apply filter_In in Hr as [_ Hr]. now destruct r.
Qed.

(** An escaped cell holds no delimiter. *)
Lemma escaped_no_delimiter (s : string) :
  forall prev, pipes_escaped prev s = true -> delimiters prev s = 0.
Proof.
  induction s as [|c s IH]; intros prev; simpl; [reflexivity|].
  intros H. apply andb_prop in H as [Hc Hs]. rewrite (IH _ Hs).
  destruct (Ascii.eqb c "|"); [|reflexivity]. now rewrite Hc.
Qed.

(** A space after a cell shields what follows from the cell's last
    character. *)
Lemma delimiters_app_space (s r : string) :
  forall prev,
    delimiters prev (s ++ String " " r) = delimiters prev s + delimiters false r.
Proof.
  induction s as [|c s IH]; intros prev; simpl; [reflexivity|].
  rewrite IH. apply Nat.add_assoc.
Qed.

Lemma append_assoc (a b c : string) : (a ++ b) ++ c = a ++ (b ++ c).
Proof. induction a as [|x a IH]; simpl; [reflexivity | now rewrite IH]. Qed.

Lemma delimiters_join (c : string) (cells : list string) :
  Forall cell_escaped (c :: cells) ->
  delimiters false (Py.join " | " (c :: cells) ++ " |")
  = S (List.length cells).
Proof.
  revert c. induction cells as [|c2 cells IH]; intros c H.
  - inversion H as [|? ? Hc _]; subst.
    change (Py.join " | " [c] ++ " |") with (c ++ String " " "|").
    rewrite delimiters_app_space, (escaped_no_delimiter _ _ Hc). reflexivity.
  - inversion H as [|? ? Hc Hrest]; subst.
    change (Py.join " | " (c :: c2 :: cells))
      with (c ++ " | " ++ Py.join " | " (c2 :: cells)).
    rewrite append_assoc.
    change ((" | " ++ Py.join " | " (c2 :: cells)) ++ " |")
      with (String " " (String "|" (String " "
              (Py.join " | " (c2 :: cells) ++ " |")))).
    rewrite delimiters_app_space, (escaped_no_delimiter _ _ Hc).
    cbn [delimiters Ascii.eqb Bool.eqb andb negb Nat.add].
    now rewrite (IH c2 Hrest).
Qed.

(** A rendered row of escaped cells has as many columns as cells. *)
Lemma columns_md_line (cells : list string) :
  cells <> [] -> Forall cell_escaped cells ->
  columns (md_line cells) = List.length cells.
Proof.
  destruct cells as [|c cells]; [congruence|]. intros _ H.
  unfold columns, md_line.
  change ("| " ++ Py.join " | " (c :: cells) ++ " |")
    with (String "|" (String " " (Py.join " | " (c :: cells) ++ " |"))).
  cbn [delimiters Ascii.eqb Bool.eqb andb negb Nat.add].
  rewrite (delimiters_join c cells H). simpl. lia.
Qed.

Lemma repeat_escaped (x : string) (n : nat) :
  cell_escaped x -> Forall cell_escaped (repeat x n).
Proof. intros H. induction n; simpl; constructor; assumption. Qed.

Lemma pad_row_length (n : nat) (row : list string) :
  List.length (pad_row n row) = Nat.max (List.length row) n.
Proof. unfold pad_row. rewrite length_app, repeat_length. lia. Qed.

Lemma pad_row_escaped (n : nat) (row : list string) :
  Forall cell_escaped row -> Forall cell_escaped (pad_row n row).
Proof.
  intros H. unfold pad_row. apply Forall_app. split; [assumption|].
  now apply repeat_escaped.
Qed.

Lemma pad_row_nonempty (n : nat) (row : list string) :
  row <> [] -> pad_row n row <> [].
Proof. destruct row; [congruence | discriminate]. Qed.

(** C9, as the code has it.  A table without rows renders as the empty
    text.  Otherwise the first row is the header line, the second line is
    a separator with the header's column count, and the data rows follow
    in order; every cell has its pipes escaped; and a data row is rendered
    with the larger of its own cell count and the header's, so a shorter
    row is padded to the header's count while a longer row keeps all its
    cells. *)
Theorem table_to_markdown_layout (table : element) :
  match table_rows table with
  | [] => _table_to_markdown table = ""
  | header :: data =>
      _table_to_markdown table
      = Py.join nl
          (md_line header
             :: md_line (repeat "---" (List.length header))
             :: map (fun row => md_line (pad_row (List.length header) row)) data)
      /\ columns (md_line header) = List.length header
      /\ columns (md_line (repeat "---" (List.length header)))
         = List.length header
      /\ Forall (fun row =>
                   columns (md_line (pad_row (List.length header) row))
                   = Nat.max (List.length row) (List.length header)) data
      /\ Forall (Forall cell_escaped) (header :: data)
  end.
Proof.
  pose proof (table_rows_escaped table) as Hesc.
  pose proof (table_rows_nonempty table) as Hne.
  unfold _table_to_markdown.
  destruct (table_rows table) as [|header data]; [reflexivity|].
  inversion Hesc as [|? ? Hh Hd]; subst.
  inversion Hne as [|? ? Hhn Hdn]; subst.
  split; [|split; [|split; [|split]]].
  - unfold md_rows. simpl. now rewrite map_map.
  - now apply columns_md_line.
  - rewrite columns_md_line.
    + apply repeat_length.
    + destruct header; [congruence | discriminate].
    + now apply repeat_escaped.
  - apply Forall_forall. intros row Hrow.
    rewrite Forall_forall in Hd, Hdn.
    rewrite columns_md_line.
    + apply pad_row_length.
    + apply pad_row_nonempty, Hdn, Hrow.
    + apply pad_row_escaped, Hd, Hrow.
  - assumption.
Qed.

(** The round-trip example: two rows, two columns, one pipe in a cell. *)
Example table_2x2_rendered :
  _table_to_markdown Examples.table_2x2
  = "| Rate | Income |" ++ nl ++ "| --- | --- |" ++ nl ++ "| 10% | 0\|9,950 |".
Proof. reflexivity. Qed.

(** C9, as stated, fails: a data row with more cells than the header is
    rendered at its own width, so the rendered rows differ in column
    count. *)
Lemma table_ragged_unequal_columns :
  _table_to_markdown Examples.table_ragged
  = "| Rate |" ++ nl ++ "| --- |" ++ nl ++ "| 10% | 0 |"
  /\ ~ equal_columns Examples.table_ragged.
Proof.
  split; [reflexivity|].
  intros H.
  specialize (H ["Rate"] ["10%"; "0"]).
  assert (In ["Rate"] (md_rows (table_rows Examples.table_ragged))) as H1
    by (vm_compute; auto).
  assert (In ["10%"; "0"] (md_rows (table_rows Examples.table_ragged))) as H2
    by (vm_compute; auto).
  specialize (H H1 H2). vm_compute in H. discriminate.
Qed.

(** ** Tree builder *)

(** [_parse_element] in terms of the fields it computes and of the
    children loop. *)
Lemma parse_element_eq self elem parent_path parent_id :
  _parse_element self elem parent_path parent_id =
  if limit_hit self then (None, self)
  else
    match node_type_of elem with
    | None => (None, self)
    | Some node_type =>
        let '(children, self') :=
          parse_children (elem_path parent_path elem node_type)
            (elem_id elem node_type) (children elem)
            (track self node_type (_determine_status elem)
                   (elem_id elem node_type)) in
        (Some (make_node elem parent_path parent_id node_type children), self')
    end.
Proof. destruct elem as [t a tx tl cs]; reflexivity. Qed.

Lemma track_effect self nt st id :
  max_sections (track self nt st id) = max_sections self
  /\ total_nodes_ (track self nt st id) = S (total_nodes_ self)
  /\ sections_parsed (track self nt st id)
     = sections_parsed self + section_count nt
  /\ repealed_sections_ (track self nt st id)
     = List.app (repealed_sections_ self) (repealed_entry nt st id).
Proof.
  unfold track, section_count, repealed_entry.
  destruct (NodeType_eqb nt SECTION); simpl.
  - repeat split; [lia|]. destruct (NodeStatus_eqb st REPEALED); simpl;
      [reflexivity | now rewrite app_nil_r].
  - repeat split; [lia | now rewrite app_nil_r].
Qed.

Lemma accounts_refl self : accounts self self [].
Proof.
  unfold accounts, repealed_ids; simpl.
  repeat split; [lia | lia | now rewrite app_nil_r].
Qed.

Lemma accounts_trans s1 s2 s3 l1 l2 :
  accounts s1 s2 l1 -> accounts s2 s3 l2 -> accounts s1 s3 (List.app l1 l2).
Proof.
  unfold accounts, repealed_ids.
  intros (M1 & N1 & S1 & R1) (M2 & N2 & S2 & R2).
  rewrite filter_app, filter_app, map_app, !length_app.
  repeat split; try congruence; try lia.
  rewrite R2, R1. now rewrite app_assoc.
Qed.

Lemma accounts_node self elem pp pid nt :
  accounts self
    (track self nt (_determine_status elem) (elem_id elem nt))
    [make_node elem pp pid nt []].
Proof.
  destruct (track_effect self nt (_determine_status elem) (elem_id elem nt))
    as (HM & HN & HS & HR).
  unfold accounts, repealed_ids, is_section, is_repealed.
  cbn [filter make_node Node.node_type Node.status Node.id].
  unfold section_count, repealed_entry in *.
  repeat split; [assumption | cbn [List.length]; lia | |].
  - rewrite HS. destruct (NodeType_eqb nt SECTION); reflexivity.
  - rewrite HR. destruct (NodeType_eqb nt SECTION);
      destruct (NodeStatus_eqb (_determine_status elem) REPEALED); reflexivity.
Qed.

Lemma nodes_eq (n : LegalNode) :
  nodes n = n :: forest_nodes (Node.children n).
Proof. destruct n; reflexivity. Qed.

(** The accumulators depend on a node only through its own fields. *)
Lemma accounts_children s1 s2 elem pp pid nt l children :
  accounts s1 s2 (make_node elem pp pid nt [] :: l) ->
  accounts s1 s2 (make_node elem pp pid nt children :: l).
Proof.
  unfold accounts, repealed_ids, is_section, is_repealed.
  cbn [filter List.length make_node Node.node_type Node.status].
  destruct (NodeType_eqb nt SECTION);
    destruct (NodeStatus_eqb (_determine_status elem) REPEALED);
    cbn [andb map Node.id List.length]; exact (fun H => H).
Qed.

Lemma forest_nodes_cons_opt (r : option LegalNode) (rest : list LegalNode) :
  forest_nodes match r with Some n => n :: rest | None => rest end
  = List.app (opt_nodes r) (forest_nodes rest).
Proof. destruct r; reflexivity. Qed.

Lemma parse_children_accounts (cs : list element) :
  Forall (fun c => forall self pp pid,
              accounts self (snd (_parse_element self c pp pid))
                       (opt_nodes (fst (_parse_element self c pp pid)))) cs ->
  forall hp nid s,
    accounts s (snd (parse_children hp nid cs s))
             (forest_nodes (fst (parse_children hp nid cs s))).
Proof.
  induction 1 as [|c cs' Hc _ IHcs]; intros hp nid s.
  - apply accounts_refl.
  - cbn [parse_children].
    destruct (is_structural c); [|apply IHcs].
    specialize (Hc s hp (Some nid)).
    destruct (_parse_element s c hp (Some nid)) as [r s1].
    specialize (IHcs hp nid s1).
    destruct (parse_children hp nid cs' s1) as [rest s2].
    cbn [fst snd] in *. rewrite forest_nodes_cons_opt.
    eapply accounts_trans; eassumption.
Qed.

(** Every run of [_parse_element] accounts for exactly the nodes of the
    subtree it returns. *)
Lemma parse_element_accounts (e : element) :
  forall self pp pid,
    accounts self (snd (_parse_element self e pp pid))
             (opt_nodes (fst (_parse_element self e pp pid))).
Proof.
  induction e as [t a tx tl cs IH] using element_ind'.
  intros self pp pid. rewrite parse_element_eq.
  destruct (limit_hit self); [apply accounts_refl|].
  destruct (node_type_of _) as [nt|]; [|apply accounts_refl].
  cbn [children].
  set (elem := Element t a tx tl cs).
  pose proof (parse_children_accounts cs IH (elem_path pp elem nt)
                (elem_id elem nt)
                (track self nt (_determine_status elem) (elem_id elem nt)))
    as HC.
  destruct (parse_children _ _ cs _) as [kids s2].
  cbn [fst snd opt_nodes] in *. rewrite nodes_eq.
  cbn [make_node Node.children].
  apply (accounts_children _ _ elem pp pid nt _ kids).
  exact (accounts_trans _ _ _ [make_node elem pp pid nt []] _
           (accounts_node self elem pp pid nt) HC).
Qed.

(** A successful [parse_tax_code] is a run of [_parse_element] on the
    title element from a fresh parser. *)
Lemma parse_tax_code_inr fs path max p :
  parse_tax_code fs path max = inr p ->
  exists doc_root title_elem,
    fs path = Document doc_root
    /\ find_title doc_root = Some title_elem
    /\ fst (_parse_element (USLMParser_init max) title_elem "" None)
       = Some (root p)
    /\ let self' :=
         snd (_parse_element (USLMParser_init max) title_elem "" None) in
       total_sections p = sections_parsed self'
       /\ total_nodes p = total_nodes_ self'
       /\ repealed_sections p = repealed_sections_ self'.
Proof.
  unfold parse_tax_code, parse_file.
  destruct (fs path) as [| |doc_root] eqn:Efs; try discriminate.
  destruct (find_title doc_root) as [title_elem|] eqn:Etitle; [|discriminate].
  destruct (_parse_element _ title_elem "" None) as [[n|] self'] eqn:Epe;
    [|discriminate].
  cbn [fst snd]. intros [= <-]. exists doc_root, title_elem.
  rewrite Epe. repeat split; assumption.
Qed.



(** C5, as the code has it.  The list of repealed sections holds the ids
    of exactly those created nodes that are of type section and classified
    repealed, in the order of their creation, which is the pre-order of
    the tree.  A repealed node of another type is not listed. *)
Theorem repealed_sections_lists_repealed_section_nodes fs path max p :
  parse_tax_code fs path max = inr p ->
  repealed_sections p
  = map Node.id (filter (fun n => is_section n && is_repealed n)
                        (nodes (root p))).
Proof.
  intros H.
  destruct (parse_tax_code_inr _ _ _ _ H)
    as (doc_root & title_elem & _ & _ & Hroot & _ & _ & Hrep).
  pose proof (parse_element_accounts title_elem (USLMParser_init max) "" None)
    as (_ & _ & _ & HR).
  rewrite Hroot in HR. cbn [opt_nodes] in HR.
  rewrite Hrep, HR. reflexivity.
Qed.

Lemma repealed_sections_lists_repealed_section_nodes_witness :
  match parse_tax_code Examples.fs "usc26.xml" None with
  | inr p =>
      repealed_sections p = ["26 USC 2"]
      /\ repealed_sections p
         = map Node.id (filter (fun n => is_section n && is_repealed n)
                               (nodes (root p)))
  | inl _ => False
  end.
Proof.
  run_parse E. split.
  - vm_compute in E. now inversion E.
  - exact (repealed_sections_lists_repealed_section_nodes _ _ _ _ E).
Defined.

(** C5, as stated, fails: the subsection of section 1 is classified
    repealed by the marker in its text, and its id is not listed. *)
Lemma repealed_subsection_not_listed :
  exists p,
    parse_tax_code Examples.fs "usc26.xml" None = inr p
    /\ ~ all_repealed_listed p.
Proof.
  run_parse E.
  exists p. split; [reflexivity|]. intros H.
  vm_compute in E. injection E as <-.
  unfold all_repealed_listed in H.
  match type of H with
  | forall n, In n (nodes (root ?p)) -> _ =>
      assert (exists n, In n (nodes (root p))
                        /\ Node.id n = "26 USC 1(a)"
                        /\ Node.status n = REPEALED) as (n & Hin & Hid & Hst)
  end.
  { eexists. split; [|split].
    - cbn. right. right. right. left. reflexivity.
    - reflexivity.
    - reflexivity. }
  specialize (H n Hin Hst). rewrite Hid in H. cbn in H.
  destruct H as [H|[]]. discriminate.
Qed.

(** *** The cutoff *)

Lemma limit_hit_none self : max_sections self = None -> limit_hit self = false.
Proof. unfold limit_hit. now intros ->. Qed.

Lemma limit_hit_some self k :
  max_sections self = Some k -> (0 < k)%Z ->
  limit_hit self = (Z.to_nat k <=? sections_parsed self)%nat.
Proof.
  unfold limit_hit. intros -> Hk.
  replace (k =? 0)%Z with false by (symmetry; apply Z.eqb_neq; lia).
  cbn [negb andb].
  destruct (Nat.leb_spec (Z.to_nat k) (sections_parsed self));
    [apply Z.leb_le | apply Z.leb_gt]; lia.
Qed.











(** *** Failures *)

Lemma or_find_some a b (t : element) :
  or_find a b = Some t -> a = Some t \/ b = Some t.
Proof. destruct a; simpl; auto. Qed.

Lemma find_qname_type ns l (t : element) :
  List.find (has_qname ns "title") l = Some t ->
  node_type_of t = Some TITLE.
Proof.
  intros H. apply find_some in H as [_ H].
  unfold has_qname in H. unfold node_type_of, local_tag.
  destruct (tag t) as [n name|]; [|discriminate].
  apply andb_prop in H as [_ H]. apply String.eqb_eq in H. now subst name.
Qed.

(** The element that [parse_file] takes for the title is a title. *)
Lemma find_title_type doc_root t :
  find_title doc_root = Some t -> node_type_of t = Some TITLE.
Proof.
  unfold find_title, find_child, find_desc.
  destruct (or_find (List.find (has_qname USLM_NS "main") _)
                    (List.find (has_qname "" "main") _)) as [main|].
  - destruct (or_find (List.find (has_qname USLM_NS "title") (children main))
                      (List.find (has_qname "" "title") (children main)))
      as [t'|] eqn:E.
    + intros [= ->]. apply or_find_some in E as [E|E];
        exact (find_qname_type _ _ _ E).
    + intros H. apply or_find_some in H as [H|H];
        exact (find_qname_type _ _ _ H).
  - intros H. apply or_find_some in H as [H|H];
      exact (find_qname_type _ _ _ H).
Qed.

Lemma limit_hit_init max :
  limit_hit (USLMParser_init max) = negative_cutoff max.
Proof.
  unfold limit_hit, negative_cutoff, USLMParser_init; simpl.
  destruct max as [k|]; [|reflexivity].
  destruct (Z.ltb_spec k 0), (Z.eqb_spec k 0), (Z.leb_spec k 0);
    simpl; try reflexivity; lia.
Qed.



(** ** The tree methods of models.py and graph.py *)

Lemma flatten_nodes_eq (n : LegalNode) :
  flatten_nodes n = n :: flat_map flatten_nodes (Node.children n).
Proof. destruct n; reflexivity. Qed.

Lemma flatten_nodes_nodes (n : LegalNode) : flatten_nodes n = nodes n.
Proof. reflexivity. Qed.

Lemma flat_map_ext_Forall {A B} (f g : A -> list B) (l : list A) :
  Forall (fun x => f x = g x) l -> flat_map f l = flat_map g l.
Proof.
  induction 1 as [|x l Hx _ IH]; [reflexivity|].
  cbn [flat_map]. now rewrite Hx, IH.
Qed.

Lemma filter_flat_map {A B} (p : B -> bool) (f : A -> list B) (l : list A) :
  filter p (flat_map f l) = flat_map (fun x => filter p (f x)) l.
Proof.
  induction l as [|x l IH]; [reflexivity|].
  cbn [flat_map]. now rewrite filter_app, IH.
Qed.

Lemma find_app {A} (p : A -> bool) (l1 l2 : list A) :
  List.find p (List.app l1 l2)
  = match List.find p l1 with Some x => Some x | None => List.find p l2 end.
Proof.
  induction l1 as [|x l1 IH]; [reflexivity|].
  cbn [List.app List.find]. destruct (p x); [reflexivity | exact IH].
Qed.

Lemma find_by_id_find (n : LegalNode) (target_id : string) :
  find_by_id n target_id = List.find (has_id target_id) (flatten_nodes n).
Proof.
  induction n as [n IH] using node_ind'.
  rewrite flatten_nodes_eq. cbn [List.find].
  destruct n as [i idf nt nu h tx st pid hp refs cs].
  cbn [find_by_id Node.id Node.children] in *. unfold has_id at 1.
  cbn [Node.id].
  destruct (String.eqb i target_id); [reflexivity|].
  induction IH as [|c cs' Hc _ IHcs]; [reflexivity|].
  cbn [flat_map]. rewrite find_app, <- Hc.
  destruct (find_by_id c target_id); [reflexivity | exact IHcs].
Qed.

(** X1. [find_by_id] returns the first node, in pre-order, whose id is the
    target.  So the id of every node of the tree is found, the node
    returned carrying that id (it is another node when an earlier one has
    the same id), and the answer is [None] exactly when no node of the
    tree has the target id.  [get_section] is this search for the id
    "26 USC " followed by the section number. *)
Theorem find_by_id_first_in_preorder (n : LegalNode) (target_id : string) :
  find_by_id n target_id = List.find (has_id target_id) (flatten_nodes n)
  /\ (forall m, In m (flatten_nodes n) ->
        exists r, find_by_id n (Node.id m) = Some r /\ Node.id r = Node.id m)
  /\ (find_by_id n target_id = None <->
      forall m, In m (flatten_nodes n) -> Node.id m <> target_id)
  /\ (forall p section_num,
        get_section p section_num
        = List.find (has_id ("26 USC " ++ section_num))
                    (flatten_nodes (root p))).
Proof.
  split; [apply find_by_id_find|].
  split; [|split; [|intros p section_num; apply find_by_id_find]].
  - intros m Hm. rewrite find_by_id_find.
    destruct (List.find (has_id (Node.id m)) (flatten_nodes n)) as [r|] eqn:E.
    + exists r. split; [reflexivity|].
      apply find_some in E. destruct E as [_ E].
      now apply String.eqb_eq in E.
    + apply (find_none _ _ E) in Hm. unfold has_id in Hm.
      now rewrite String.eqb_refl in Hm.
  - rewrite find_by_id_find. split.
    + intros E m Hm Hid. apply (find_none _ _ E) in Hm.
      unfold has_id in Hm. rewrite <- Hid, String.eqb_refl in Hm.
      discriminate.
    + intros H.
      destruct (List.find (has_id target_id) (flatten_nodes n)) as [r|] eqn:E;
        [|reflexivity].
      apply find_some in E. destruct E as [Hin E].
      apply String.eqb_eq in E. now apply H in Hin.
Qed.

(** X2. [get_all_leaf_nodes] returns exactly the nodes of the tree that
    have no children, in pre-order, and never the empty list. *)
Theorem get_all_leaf_nodes_are_the_leaves (n : LegalNode) :
  get_all_leaf_nodes n = filter is_leaf (flatten_nodes n)
  /\ get_all_leaf_nodes n <> [].
Proof.
  induction n as [n IH] using node_ind'.
  rewrite flatten_nodes_eq. cbn [filter].
  destruct n as [i idf nt nu h tx st pid hp refs cs].
  cbn [get_all_leaf_nodes Node.children] in *.
  unfold is_leaf at 1 3 4. cbn [Node.children].
  destruct cs as [|c cs']; cbn [List.length Nat.eqb].
  - split; [reflexivity | discriminate].
  - split.
    + rewrite filter_flat_map. apply flat_map_ext_Forall.
      eapply Forall_impl; [|exact IH]. cbn beta. intros a [Ha _]. exact Ha.
    + cbn [flat_map]. inversion IH as [|? ? [_ Hc] _]; subst.
      destruct (get_all_leaf_nodes c); [congruence | discriminate].
Qed.

(** X3. The recursive method [LegalNode.get_all_sections] returns the
    nodes of type section among the flattened tree, in pre-order: it is
    the filter that [get_all_sections] stands for in this development. *)
Theorem get_all_sections_filters_flattened (n : LegalNode) :
  LegalNode_get_all_sections n = filter is_section (flatten_nodes n)
  /\ LegalNode_get_all_sections n = get_all_sections n.
Proof.
  assert (LegalNode_get_all_sections n = filter is_section (flatten_nodes n))
    as H; [|split; [exact H | exact H]].
  induction n as [n IH] using node_ind'.
  rewrite flatten_nodes_eq. cbn [filter].
  destruct n as [i idf nt nu h tx st pid hp refs cs].
  cbn [LegalNode_get_all_sections Node.children Node.node_type] in *.
  unfold is_section at 1. cbn [Node.node_type].
  rewrite filter_flat_map, (flat_map_ext_Forall _ _ _ IH).
  destruct (NodeType_eqb nt SECTION); reflexivity.
Qed.

Lemma fold_left_snoc {A B} (f : A -> B) (l : list A) (acc : list B) :
  fold_left (fun acc x => List.app acc [f x]) l acc = List.app acc (map f l).
Proof.
  revert acc. induction l as [|x l IH]; intros acc; cbn [fold_left map].
  - now rewrite app_nil_r.
  - rewrite IH, <- app_assoc. reflexivity.
Qed.

Lemma fold_collect_refs (cs : list LegalNode) :
  Forall (fun c => forall refs,
            collect_refs c refs = List.app refs (extract_all_references c)) cs ->
  forall acc,
    fold_left (fun refs child => collect_refs child refs) cs acc
    = List.app acc (flat_map extract_all_references cs).
Proof.
  induction 1 as [|c cs' Hc _ IHcs]; intros acc; cbn [fold_left flat_map].
  - now rewrite app_nil_r.
  - rewrite Hc, IHcs, <- app_assoc. reflexivity.
Qed.

Lemma collect_refs_app (n : LegalNode) :
  forall refs, collect_refs n refs = List.app refs (extract_all_references n).
Proof.
  induction n as [n IH] using node_ind'.
  destruct n as [i idf nt nu h tx st pid hp refs0 cs].
  cbn [collect_refs extract_all_references Node.id Node.references
       Node.children] in *.
  intros refs. rewrite fold_left_snoc, (fold_collect_refs cs IH), app_assoc.
  reflexivity.
Qed.

Lemma extract_all_references_flat (n : LegalNode) :
  extract_all_references n = flat_map own_references (flatten_nodes n).
Proof.
  induction n as [n IH] using node_ind'.
  rewrite flatten_nodes_eq. cbn [flat_map].
  destruct n as [i idf nt nu h tx st pid hp refs0 cs].
  cbn [extract_all_references Node.id Node.references Node.children] in *.
  unfold own_references at 1. cbn [Node.id Node.references]. f_equal.
  induction IH as [|c cs' Hc _ IHcs]; [reflexivity|].
  cbn [flat_map]. now rewrite flat_map_app, Hc, IHcs.
Qed.

(** X4. [ParsedTaxCode.get_all_references] and graph.py's
    [extract_all_references] return the same list: for every node of the
    tree in pre-order, its references in their own order, each paired
    with the id of that node. *)
Theorem get_all_references_agrees_with_graph (p : ParsedTaxCode) :
  get_all_references p = extract_all_references (root p)
  /\ get_all_references p
     = flat_map own_references (flatten_nodes (root p)).
Proof.
  unfold get_all_references. rewrite collect_refs_app. cbn [List.app].
  split; [reflexivity | apply extract_all_references_flat].
Qed.

Lemma extract_parent_relationships_children (n : LegalNode) :
  map snd (extract_parent_relationships n)
  = map Node.id (flat_map flatten_nodes (Node.children n)).
Proof.
  induction n as [n IH] using node_ind'.
  destruct n as [i idf nt nu h tx st pid hp refs0 cs].
  cbn [extract_parent_relationships Node.id Node.children] in *.
  induction IH as [|c cs' Hc _ IHcs]; [reflexivity|].
  cbn [flat_map]. rewrite flatten_nodes_eq.
  cbn [List.app map snd]. rewrite !map_app, Hc, IHcs. reflexivity.
Qed.

(** X5. [extract_parent_relationships] yields one pair per node other
    than the root: the child ids of the pairs are the ids of the flattened
    tree without its first entry, in the same order, and the number of
    pairs is one less than the number of nodes. *)
Theorem parent_relationships_one_per_non_root_node (n : LegalNode) :
  map snd (extract_parent_relationships n)
  = map Node.id (List.tl (flatten_nodes n))
  /\ S (List.length (extract_parent_relationships n))
     = List.length (flatten_nodes n).
Proof.
  pose proof (extract_parent_relationships_children n) as H.
  rewrite flatten_nodes_eq. cbn [List.tl List.length].
  split; [exact H|].
  f_equal. rewrite <- (length_map snd), H, length_map. reflexivity.
Qed.

(** ** The batch loops *)

Lemma firstn_add {A} (a b : nat) (l : list A) :
  firstn (a + b) l = List.app (firstn a l) (firstn b (skipn a l)).
Proof.
  revert l. induction a as [|a IH]; intros l; [reflexivity|].
  destruct l as [|x l]; cbn [Nat.add firstn skipn List.app].
  - now rewrite firstn_nil.
  - now rewrite IH.
Qed.

Lemma list_slice_step {A} (i k : nat) (xs : list A) :
  list_slice i (i + k) xs = firstn k (skipn i xs).
Proof. unfold list_slice. f_equal. lia. Qed.

Lemma ceil_div_bounds (n k : nat) :
  0 < k ->
  n <= (n + k - 1) / k * k /\ (0 < n -> ((n + k - 1) / k - 1) * k < n).
Proof.
  intros Hk.
  pose proof (Nat.div_mod_eq (n + k - 1) k) as E.
  pose proof (Nat.mod_upper_bound (n + k - 1) k ltac:(lia)) as U.
  set (q := (n + k - 1) / k) in *. set (r := (n + k - 1) mod k) in *.
  split; [nia|]. intros Hn.
  destruct q as [|q]; [lia|]. cbn [Nat.sub]. rewrite Nat.sub_0_r. nia.
Qed.

Lemma concat_slices {A} (xs : list A) (k m : nat) :
  List.concat (map (fun i => list_slice i (i + k) xs)
              (map (fun j => j * k) (seq 0 m)))
  = firstn (m * k) xs.
Proof.
  induction m as [|m IH]; [reflexivity|].
  rewrite seq_S, !map_app, concat_app, IH. cbn [map List.concat Nat.add].
  rewrite app_nil_r, list_slice_step.
  replace (S m * k) with (m * k + k) by lia.
  now rewrite firstn_add.
Qed.

Lemma batches_concat {A} (xs : list A) (k : nat) :
  0 < k -> List.concat (batches xs k) = xs.
Proof.
  intros Hk. unfold batches. rewrite concat_slices.
  apply firstn_all2. apply (ceil_div_bounds (List.length xs) k Hk).
Qed.

Lemma batches_sized {A} (xs : list A) (k : nat) :
  0 < k -> Forall (batch_sized k) (batches xs k).
Proof.
  intros Hk. unfold batches. rewrite map_map. apply Forall_map.
  apply Forall_forall. intros j Hj. apply in_seq in Hj.
  unfold batch_sized. rewrite list_slice_step, length_firstn, length_skipn.
  destruct (ceil_div_bounds (List.length xs) k Hk) as [_ H2].
  assert (0 < List.length xs) as Hn.
  { destruct (List.length xs); [|lia].
    cbn [Nat.add] in Hj. rewrite Nat.div_small in Hj by lia. lia. }
  specialize (H2 Hn).
  assert (j * k < List.length xs) by nia. lia.
Qed.

Lemma py_range_positive (n : nat) (k : Z) :
  (0 < k)%Z ->
  py_range n k
  = inr (map (fun j => j * Z.to_nat k)
             (seq 0 ((n + Z.to_nat k - 1) / Z.to_nat k))).
Proof.
  intros Hk. unfold py_range.
  destruct (Z.eqb_spec k 0); [lia|].
  destruct (Z.ltb_spec k 0); [lia|]. reflexivity.
Qed.

(** The loop shared by the two counting batch functions. *)
Lemma fold_batches {A B} (g : A -> B) (xs : list A) (k : nat)
      (indices : list nat) (total : nat) (sent : list (list B)) :
  fold_left
    (fun '(total, sent) i =>
       let batch := list_slice i (i + k) xs in
       let sent := List.app sent [map g batch] in
       (total + List.length batch, sent))
    indices (total, sent)
  = (total
     + List.length (List.concat (map (fun i => list_slice i (i + k) xs) indices)),
     List.app sent
       (map (map g) (map (fun i => list_slice i (i + k) xs) indices))).
Proof.
  revert total sent.
  induction indices as [|i l IH]; intros total sent; cbn [fold_left map List.concat].
  - now rewrite Nat.add_0_r, app_nil_r.
  - rewrite IH, length_app, <- app_assoc. f_equal. lia.
Qed.

Lemma fold_reference_batches
      (db : list (list ref_row) -> list ref_row -> Z)
      (xs : list (string * Reference)) (k : nat) (indices : list nat) :
  forall created not_found sent,
  exists created' not_found',
    fold_left
      (fun '(created, not_found, sent) i =>
         let batch := list_slice i (i + k) xs in
         let rows := map ref_data batch in
         let batch_created := db sent rows in
         (created + batch_created,
          not_found + (Z.of_nat (List.length batch) - batch_created),
          List.app sent [rows])%Z)
      indices (created, not_found, sent)
    = (created', not_found',
       List.app sent
         (map (map ref_data)
              (map (fun i => list_slice i (i + k) xs) indices)))
    /\ (created' + not_found'
        = created + not_found
          + Z.of_nat (List.length
               (List.concat (map (fun i => list_slice i (i + k) xs) indices))))%Z.
Proof.
  induction indices as [|i l IH]; intros created not_found sent.
  - exists created, not_found. cbn [fold_left map List.concat List.length].
    rewrite app_nil_r. split; [reflexivity | lia].
  - destruct (IH (created + db sent (map ref_data (list_slice i (i + k) xs)))%Z
                 (not_found
                  + (Z.of_nat (List.length (list_slice i (i + k) xs))
                     - db sent (map ref_data (list_slice i (i + k) xs))))%Z
                 (List.app sent [map ref_data (list_slice i (i + k) xs)]))
      as (c & nf & E & HS).
    exists c, nf. rewrite <- app_assoc in E. split; [exact E|].
    cbn [map List.concat]. rewrite length_app. lia.
Qed.

Lemma take_length (n : nat) (s : string) : String.length (Py.take n s) <= n.
Proof.
  revert s. induction n as [|n IH]; intros s; [cbn; lia|].
  destruct s as [|c s]; cbn [Py.take String.length]; [lia|].
  specialize (IH s). lia.
Qed.

Lemma take_prefix (n : nat) (s : string) :
  exists rest, s = Py.take n s ++ rest.
Proof.
  revert s. induction n as [|n IH]; intros s.
  - exists s. reflexivity.
  - destruct s as [|c s]; [exists ""; reflexivity|].
    destruct (IH s) as [rest E]. exists rest. cbn [Py.take String.append].
    now rewrite <- E.
Qed.

(** X6. With a positive batch size [create_nodes_batch] returns the
    number of nodes it was given, and the batches it sends, put end to
    end, are the rows of those nodes in order; no batch is empty and none
    holds more rows than the batch size. *)
Theorem create_nodes_batch_sends_every_node_once
        (nodes : list LegalNode) (batch_size : Z) :
  (0 < batch_size)%Z ->
  exists sent,
    create_nodes_batch nodes batch_size = inr (List.length nodes, sent)
    /\ List.concat sent = map node_data nodes
    /\ Forall (batch_sized (Z.to_nat batch_size)) sent.
Proof.
  intros Hk. unfold create_nodes_batch.
  rewrite (py_range_positive _ _ Hk).
  set (k := Z.to_nat batch_size). assert (0 < k) as Hk' by lia.
  rewrite (fold_batches node_data nodes k).
  fold (batches nodes k). rewrite (batches_concat nodes k Hk').
  eexists. split; [reflexivity|]. cbn [List.app]. split.
  - rewrite <- concat_map, (batches_concat nodes k Hk'). reflexivity.
  - apply Forall_map. eapply Forall_impl; [|exact (batches_sized nodes k Hk')].
    intros b. unfold batch_sized. now rewrite length_map.
Qed.

Lemma create_nodes_batch_sends_every_node_once_witness :
  (0 < 2)%Z
  /\ exists sent,
       create_nodes_batch
         (flatten_nodes
            (Node.mk "a" "" TITLE None None "" ACTIVE None "" []
               [Node.mk "b" "" SECTION None None "" ACTIVE None "" [] [];
                Node.mk "c" "" SECTION None None "" ACTIVE None "" [] []])) 2
       = inr (3, sent)
       /\ List.concat sent
          = map node_data
              (flatten_nodes
                 (Node.mk "a" "" TITLE None None "" ACTIVE None "" []
                    [Node.mk "b" "" SECTION None None "" ACTIVE None "" [] [];
                     Node.mk "c" "" SECTION None None "" ACTIVE None "" [] []]))
       /\ Forall (batch_sized (Z.to_nat 2)) sent.
Proof.
  split; [lia|].
  exact (create_nodes_batch_sends_every_node_once
           (flatten_nodes
              (Node.mk "a" "" TITLE None None "" ACTIVE None "" []
                 [Node.mk "b" "" SECTION None None "" ACTIVE None "" [] [];
                  Node.mk "c" "" SECTION None None "" ACTIVE None "" [] []]))
           2%Z ltac:(lia)).
Defined.

(** X7. A batch size of zero makes each of the three batch functions
    raise the [ValueError] of [range]; a negative one makes them send
    nothing and report zero, whatever the list holds. *)
Theorem batch_size_not_positive_sends_nothing
        (db : list (list ref_row) -> list ref_row -> Z)
        (nodes : list LegalNode) (relationships : list (string * string))
        (references : list (string * Reference)) (batch_size : Z) :
  (batch_size = 0%Z ->
   create_nodes_batch nodes batch_size
   = inl (ValueError "range() arg 3 must not be zero")
   /\ create_parent_relationships_batch relationships batch_size
      = inl (ValueError "range() arg 3 must not be zero")
   /\ create_reference_relationships_batch db references batch_size
      = inl (ValueError "range() arg 3 must not be zero"))
  /\ ((batch_size < 0)%Z ->
      create_nodes_batch nodes batch_size = inr (0, [])
      /\ create_parent_relationships_batch relationships batch_size
         = inr (0, [])
      /\ create_reference_relationships_batch db references batch_size
         = inr (0%Z, 0%Z, [])).
Proof.
  unfold create_nodes_batch, create_parent_relationships_batch,
    create_reference_relationships_batch, py_range.
  split; intros H.
  - subst. repeat split; reflexivity.
  - destruct (Z.eqb_spec batch_size 0); [lia|].
    destruct (Z.ltb_spec batch_size 0); [|lia]. repeat split; reflexivity.
Qed.

Lemma batch_size_not_positive_sends_nothing_witness :
  create_nodes_batch
    [Node.mk "a" "" TITLE None None "" ACTIVE None "" [] []] 0
  = inl (ValueError "range() arg 3 must not be zero")
  /\ create_parent_relationships_batch [("a", "b")] (-1) = inr (0, [])
  /\ create_reference_relationships_batch
       (fun _ rows => Z.of_nat (List.length rows))
       [("a", mkReference "162" "" "general")] (-5)
     = inr (0%Z, 0%Z, []).
Proof.
  pose proof (batch_size_not_positive_sends_nothing
                (fun _ rows => Z.of_nat (List.length rows))
                [Node.mk "a" "" TITLE None None "" ACTIVE None "" [] []]
                [("a", "b")] [("a", mkReference "162" "" "general")])
    as H.
  split; [exact (proj1 (proj1 (H 0%Z) eq_refl))|].
  split; [exact (proj1 (proj2 (proj2 (H (-1)%Z) ltac:(lia))))|].
  exact (proj2 (proj2 (proj2 (H (-5)%Z) ltac:(lia)))).
Defined.

(** X8. With a positive batch size
    [create_parent_relationships_batch] returns the number of pairs it was
    given, and the batches it sends, put end to end, are the rows of those
    pairs in order. *)
Theorem create_parent_relationships_batch_counts_all
        (relationships : list (string * string)) (batch_size : Z) :
  (0 < batch_size)%Z ->
  exists sent,
    create_parent_relationships_batch relationships batch_size
    = inr (List.length relationships, sent)
    /\ List.concat sent = map rel_data relationships.
Proof.
  intros Hk. unfold create_parent_relationships_batch.
  rewrite (py_range_positive _ _ Hk).
  set (k := Z.to_nat batch_size). assert (0 < k) as Hk' by lia.
  rewrite (fold_batches rel_data relationships k).
  fold (batches relationships k). rewrite (batches_concat _ k Hk').
  eexists. split; [reflexivity|]. cbn [List.app].
  rewrite <- concat_map, (batches_concat _ k Hk'). reflexivity.
Qed.

Lemma create_parent_relationships_batch_counts_all_witness :
  (0 < 100)%Z
  /\ exists sent,
       create_parent_relationships_batch [("a", "b"); ("a", "c")] 100
       = inr (2, sent)
       /\ List.concat sent = map rel_data [("a", "b"); ("a", "c")].
Proof.
  split; [lia|].
  exact (create_parent_relationships_batch_counts_all
           [("a", "b"); ("a", "c")] 100%Z ltac:(lia)).
Defined.

(** X9. With a positive batch size, and whatever counts the database
    reports, the two numbers [create_reference_relationships_batch]
    returns add up to the number of references it was given, and the
    batches it sends, put end to end, are the rows of those references in
    order. *)
Theorem reference_batch_counts_add_up
        (db : list (list ref_row) -> list ref_row -> Z)
        (references : list (string * Reference)) (batch_size : Z) :
  (0 < batch_size)%Z ->
  exists created not_found sent,
    create_reference_relationships_batch db references batch_size
    = inr (created, not_found, sent)
    /\ (created + not_found = Z.of_nat (List.length references))%Z
    /\ List.concat sent = map ref_data references.
Proof.
  intros Hk. unfold create_reference_relationships_batch.
  rewrite (py_range_positive _ _ Hk).
  set (k := Z.to_nat batch_size). assert (0 < k) as Hk' by lia.
  destruct (fold_reference_batches db references k
              (map (fun j => j * k)
                   (seq 0 ((List.length references + k - 1) / k)))
              0%Z 0%Z []) as (c & nf & E & HS).
  exists c, nf. eexists. split; [f_equal; exact E|].
  fold (batches references k) in *.
  rewrite (batches_concat _ k Hk') in HS. split; [lia|].
  cbn [List.app]. rewrite <- concat_map, (batches_concat _ k Hk').
  reflexivity.
Qed.

Lemma reference_batch_counts_add_up_witness :
  (0 < 1)%Z
  /\ exists created not_found sent,
       create_reference_relationships_batch
         (fun _ rows => Z.of_nat (List.length rows))
         [("26 USC 1", mkReference "162" "...see section 162..." "general");
          ("26 USC 1", mkReference "274" "" "general")] 1
       = inr (created, not_found, sent)
       /\ (created + not_found = Z.of_nat 2)%Z
       /\ List.concat sent
          = map ref_data
              [("26 USC 1",
                mkReference "162" "...see section 162..." "general");
               ("26 USC 1", mkReference "274" "" "general")].
Proof.
  split; [lia|].
  exact (reference_batch_counts_add_up
           (fun _ rows => Z.of_nat (List.length rows))
           [("26 USC 1", mkReference "162" "...see section 162..." "general");
            ("26 USC 1", mkReference "274" "" "general")] 1%Z ltac:(lia)).
Defined.

(** X10. The row sent for a reference carries a context of at most 500
    characters, which is a prefix of the reference's context, and the
    target id "26 USC " followed by the target section. *)
Theorem ref_data_context_truncated (source_id : string) (ref : Reference) :
  String.length (ref_context (ref_data (source_id, ref))) <= 500
  /\ (exists rest,
        context ref = ref_context (ref_data (source_id, ref)) ++ rest)
  /\ ref_target_id (ref_data (source_id, ref))
     = "26 USC " ++ target_section ref.
Proof.
  cbn [ref_data ref_context ref_target_id].
  destruct (context ref) as [|c s] eqn:E; cbn [Py.truthy].
  - split; [cbn; lia|]. split; [exists ""; reflexivity | reflexivity].
  - split; [apply take_length|]. split; [apply take_prefix | reflexivity].
Qed.

(** ** Built trees *)

Lemma parse_children_built (cs : list element) :
  Forall (fun c => forall self pp pid n,
            fst (_parse_element self c pp pid) = Some n -> built pp pid n) cs ->
  forall hp nid s,
    Forall (built hp (Some nid)) (fst (parse_children hp nid cs s)).
Proof.
  induction 1 as [|c cs' Hc _ IHcs]; intros hp nid s; [constructor|].
  cbn [parse_children].
  destruct (is_structural c); [|apply IHcs].
  specialize (Hc s hp (Some nid)).
  destruct (_parse_element s c hp (Some nid)) as [r s1].
  specialize (IHcs hp nid s1).
  destruct (parse_children hp nid cs' s1) as [rest s2].
  cbn [fst] in *. destruct r as [n|]; [|exact IHcs].
  constructor; [apply Hc; reflexivity | exact IHcs].
Qed.

(** Every node [_parse_element] returns is a built tree. *)
Lemma parse_element_built (e : element) :
  forall self pp pid n,
    fst (_parse_element self e pp pid) = Some n -> built pp pid n.
Proof.
  induction e as [t a tx tl cs IH] using element_ind'.
  intros self pp pid n. rewrite parse_element_eq.
  destruct (limit_hit self); [discriminate|].
  destruct (node_type_of _) as [nt|] eqn:Ent; [|discriminate].
  cbn [children].
  set (elem := Element t a tx tl cs) in *.
  pose proof (parse_children_built cs IH (elem_path pp elem nt)
                (elem_id elem nt)
                (track self nt (_determine_status elem) (elem_id elem nt)))
    as HC.
  destruct (parse_children _ _ cs _) as [kids s2].
  cbn [fst] in *. intros [= <-]. now constructor.
Qed.

Lemma parse_tax_code_built fs path max p :
  parse_tax_code fs path max = inr p -> built "" None (root p).
Proof.
  intros H.
  destruct (parse_tax_code_inr _ _ _ _ H)
    as (doc_root & title_elem & _ & _ & Hroot & _).
  exact (parse_element_built _ _ _ _ _ Hroot).
Qed.

(** The nodes of a built tree are built from elements. *)
Lemma built_nodes pp pid n :
  built pp pid n ->
  forall m, In m (flatten_nodes n) ->
    exists elem pp' pid' nt kids,
      m = make_node elem pp' pid' nt kids
      /\ node_type_of elem = Some nt
      /\ Forall (built (elem_path pp' elem nt) (Some (elem_id elem nt))) kids.
Proof.
  induction 1 as [elem pp pid nt kids Hnt Hk IH] using built_ind'.
  intros m. rewrite flatten_nodes_eq. cbn [make_node Node.children].
  intros [<- | Hin].
  - exists elem, pp, pid, nt, kids. repeat split; assumption.
  - apply in_flat_map in Hin. destruct Hin as (c & Hc & Hm).
    rewrite Forall_forall in IH. exact (IH c Hc m Hm).
Qed.

(** ** Parent links *)

Lemma built_links pp pid n :
  built pp pid n ->
  Node.parent_id n = pid
  /\ map stored_link (flat_map flatten_nodes (Node.children n))
     = map edge_link (extract_parent_relationships n).
Proof.
  induction 1 as [elem pp pid nt kids Hnt Hk IH] using built_ind'.
  split; [reflexivity|].
  cbn [make_node extract_parent_relationships Node.children Node.id].
  induction IH as [|c cs' [Hp Hc] _ IHcs]; [reflexivity|].
  inversion Hk as [|? ? _ Hk']; subst.
  cbn [flat_map]. rewrite flatten_nodes_eq.
  cbn [List.app map]. rewrite !map_app, Hc, (IHcs Hk').
  unfold stored_link at 1, edge_link at 2. cbn [fst snd]. now rewrite Hp.
Qed.

(** X11. In a parsed tree the root stores no parent id, and every other
    node stores the id of its parent: read in pre-order, the stored
    (parent id, id) pairs are the pairs [extract_parent_relationships]
    returns. *)
Theorem parsed_nodes_store_their_parent fs path max p :
  parse_tax_code fs path max = inr p ->
  Node.parent_id (root p) = None
  /\ map stored_link (List.tl (flatten_nodes (root p)))
     = map edge_link (extract_parent_relationships (root p)).
Proof.
  intros H. rewrite flatten_nodes_eq. cbn [List.tl].
  exact (built_links _ _ _ (parse_tax_code_built _ _ _ _ H)).
Qed.

Lemma parsed_nodes_store_their_parent_witness :
  match parse_tax_code Examples.fs "usc26.xml" None with
  | inr p =>
      Node.parent_id (root p) = None
      /\ map stored_link (List.tl (flatten_nodes (root p)))
         = map edge_link (extract_parent_relationships (root p))
  | inl _ => False
  end.
Proof.
  run_parse E. exact (parsed_nodes_store_their_parent _ _ _ _ E).
Defined.

(** ** Breadcrumbs *)

Lemma startswith_refl (s : string) : Py.startswith s s = true.
Proof.
  induction s as [|c s IH]; [reflexivity|].
  cbn [Py.startswith]. now rewrite Ascii.eqb_refl, IH.
Qed.

Lemma build_path_extends (pp : string) nt num heading :
  Py.startswith pp (build_path pp nt num heading) = true.
Proof.
  unfold build_path.
  destruct pp as [|c pp']; [reflexivity|].
  cbn [Py.truthy].
  destruct (opt_truthy heading); [|destruct (opt_truthy num)];
    cbn [List.app Py.join]; try apply startswith_app; apply startswith_refl.
Qed.

Lemma built_paths pp pid n :
  built pp pid n ->
  Py.startswith pp (Node.hierarchical_path n) = true
  /\ forall m c, In m (flatten_nodes n) -> In c (Node.children m) ->
       Py.startswith (Node.hierarchical_path m) (Node.hierarchical_path c)
       = true.
Proof.
  induction 1 as [elem pp pid nt kids Hnt Hk IH] using built_ind'.
  split; [apply build_path_extends|].
  intros m c. rewrite flatten_nodes_eq. cbn [make_node Node.children].
  rewrite Forall_forall in IH.
  intros [<- | Hin] Hc.
  - cbn [Node.children Node.hierarchical_path] in *.
    exact (proj1 (IH c Hc)).
  - apply in_flat_map in Hin. destruct Hin as (k & Hk' & Hm).
    exact (proj2 (IH k Hk') m c Hm Hc).
Qed.

(** X12. In a parsed tree the breadcrumb of a child starts with the
    breadcrumb of its parent. *)
Theorem child_path_extends_parent_path fs path max p :
  parse_tax_code fs path max = inr p ->
  forall m c,
    In m (flatten_nodes (root p)) -> In c (Node.children m) ->
    Py.startswith (Node.hierarchical_path m) (Node.hierarchical_path c) = true.
Proof.
  intros H.
  exact (proj2 (built_paths _ _ _ (parse_tax_code_built _ _ _ _ H))).
Qed.

Lemma child_path_extends_parent_path_witness :
  parse_tax_code Examples.fs "usc26.xml" None = inr parsed_usc26
  /\ In (root parsed_usc26) (flatten_nodes (root parsed_usc26))
  /\ In (nth 0 (Node.children (root parsed_usc26)) (root parsed_usc26))
        (Node.children (root parsed_usc26))
  /\ Py.startswith
       (Node.hierarchical_path (root parsed_usc26))
       (Node.hierarchical_path
          (nth 0 (Node.children (root parsed_usc26)) (root parsed_usc26)))
     = true.
Proof.
  assert (parse_tax_code Examples.fs "usc26.xml" None = inr parsed_usc26) as E
    by (vm_compute; reflexivity).
  assert (In (root parsed_usc26) (flatten_nodes (root parsed_usc26))) as H1
    by (left; reflexivity).
  assert (In (nth 0 (Node.children (root parsed_usc26)) (root parsed_usc26))
             (Node.children (root parsed_usc26))) as H2
    by (left; reflexivity).
  split; [exact E|]. split; [exact H1|]. split; [exact H2|].
  exact (child_path_extends_parent_path _ _ _ _ E _ _ H1 H2).
Defined.

(** ** Text fields *)

Lemma ws_normal_one_line (s : string) :
  forall b, ws_normal b s = true -> Py.has_char (ascii_of_nat 10) s = false.
Proof.
  induction s as [|c s IH]; intros b H; [reflexivity|].
  cbn [ws_normal Py.has_char] in *.
  destruct (Py.isspace c) eqn:Ec.
  - apply andb_prop in H. destruct H as [H1 H2].
    apply andb_prop in H1. destruct H1 as [H1 _].
    apply Ascii.eqb_eq in H1. subst c. cbn. exact (IH true H2).
  - rewrite (IH false H), orb_false_r.
    destruct (Ascii.eqb_spec (ascii_of_nat 10) c) as [<-|]; [|reflexivity].
    discriminate Ec.
Qed.

Lemma clean_text_normal (s : string) : normal_text (_clean_text s).
Proof.
  pose proof (clean_text_ws_normal s) as H.
  split; [exact H|]. split.
  - unfold _clean_text, Py.strip. apply strip_by_idem.
  - exact (ws_normal_one_line _ _ H).
Qed.

Lemma get_text_content_trimmed (elem : element) (name : string) :
  trimmed_field (_get_text_content elem name).
Proof.
  unfold trimmed_field, _get_text_content. intros t.
  destruct (or_find _ _) as [child|]; [|discriminate].
  destruct (Py.truthy (Py.strip _)) eqn:E; [|discriminate].
  intros [= <-]. split; [exact E|]. unfold Py.strip. apply strip_by_idem.
Qed.

(** X13. Every node of a parsed tree has a text on one line, with no
    whitespace other than single spaces between words and none at either
    end; its num and its heading are absent, or non-empty and without
    whitespace at either end. *)
Theorem parsed_text_fields_normalised fs path max p :
  parse_tax_code fs path max = inr p ->
  forall n, In n (flatten_nodes (root p)) ->
    normal_text (Node.text n)
    /\ trimmed_field (Node.num n)
    /\ trimmed_field (Node.heading n).
Proof.
  intros H n Hn.
  destruct (built_nodes _ _ _ (parse_tax_code_built _ _ _ _ H) n Hn)
    as (elem & pp & pid & nt & kids & -> & _ & _).
  cbn [make_node Node.text Node.num Node.heading]. unfold _extract_text.
  split; [apply clean_text_normal|].
  split; apply get_text_content_trimmed.
Qed.

Lemma parsed_text_fields_normalised_witness :
  parse_tax_code Examples.fs "usc26.xml" None = inr parsed_usc26
  /\ In (nth 2 (flatten_nodes (root parsed_usc26)) (root parsed_usc26))
        (flatten_nodes (root parsed_usc26))
  /\ Node.text (nth 2 (flatten_nodes (root parsed_usc26)) (root parsed_usc26))
     = "see section 162"
  /\ normal_text
       (Node.text (nth 2 (flatten_nodes (root parsed_usc26))
                       (root parsed_usc26)))
  /\ trimmed_field
       (Node.num (nth 2 (flatten_nodes (root parsed_usc26))
                      (root parsed_usc26)))
  /\ trimmed_field
       (Node.heading (nth 2 (flatten_nodes (root parsed_usc26))
                          (root parsed_usc26))).
Proof.
  assert (parse_tax_code Examples.fs "usc26.xml" None = inr parsed_usc26) as E
    by (vm_compute; reflexivity).
  assert (In (nth 2 (flatten_nodes (root parsed_usc26)) (root parsed_usc26))
             (flatten_nodes (root parsed_usc26))) as H1
    by (vm_compute; auto).
  split; [exact E|]. split; [exact H1|]. split; [vm_compute; reflexivity|].
  exact (parsed_text_fields_normalised _ _ _ _ E _ H1).
Defined.

(** ** References of a parsed tree *)

(** X14. Every entry of [get_all_references] of a parsed tree has the
    type general, and it pairs the id of a node of the tree with a
    reference extracted from that node's own text. *)
Theorem parsed_references_all_general fs path max p :
  parse_tax_code fs path max = inr p ->
  forall source_id ref,
    In (source_id, ref) (get_all_references p) ->
    reference_type ref = "general"
    /\ exists n, In n (flatten_nodes (root p))
                 /\ Node.id n = source_id
                 /\ In ref (extract_references (Node.text n)).
Proof.
  intros H source_id ref.
  unfold get_all_references.
  rewrite collect_refs_app, extract_all_references_flat. cbn [List.app].
  intros Hin. apply in_flat_map in Hin. destruct Hin as (n & Hn & Hr).
  unfold own_references in Hr. apply in_map_iff in Hr.
  destruct Hr as (r & [= <- <-] & Hr).
  destruct (built_nodes _ _ _ (parse_tax_code_built _ _ _ _ H) n Hn)
    as (elem & pp & pid & nt & kids & -> & _ & _).
  cbn [make_node Node.references Node.text Node.id] in *.
  split; [exact (extract_references_all_general _ _ Hr)|].
  eexists. split; [exact Hn|]. cbn [make_node Node.id Node.text].
  split; [reflexivity | exact Hr].
Qed.

Lemma parsed_references_all_general_witness :
  parse_tax_code Examples.fs "usc26.xml" None = inr parsed_usc26
  /\ In ("26 USC 1", mkReference "162" "...see section 162..." "general")
        (get_all_references parsed_usc26)
  /\ reference_type
       (mkReference "162" "...see section 162..." "general")
     = "general"
  /\ exists n, In n (flatten_nodes (root parsed_usc26))
               /\ Node.id n = "26 USC 1"
               /\ In (mkReference "162"
                        "...see section 162..." "general")
                     (extract_references (Node.text n)).
Proof.
  assert (parse_tax_code Examples.fs "usc26.xml" None = inr parsed_usc26) as E
    by (vm_compute; reflexivity).
  assert (In ("26 USC 1",
              mkReference "162" "...see section 162..."
                          "general")
             (get_all_references parsed_usc26)) as H1
    by (vm_compute; auto).
  split; [exact E|]. split; [exact H1|].
  exact (parsed_references_all_general _ _ _ _ E _ _ H1).
Defined.

(** ** A parser object used more than once *)

Lemma parse_file_inr fs self path p self' :
  parse_file fs self path = (inr p, self') ->
  exists doc_root title_elem,
    fs path = Document doc_root
    /\ find_title doc_root = Some title_elem
    /\ _parse_element self title_elem "" None = (Some (root p), self')
    /\ total_sections p = sections_parsed self'
    /\ total_nodes p = total_nodes_ self'
    /\ repealed_sections p = repealed_sections_ self'.
Proof.
  unfold parse_file.
  destruct (fs path) as [| |doc_root] eqn:Efs; try discriminate.
  destruct (find_title doc_root) as [title_elem|] eqn:Etitle; [|discriminate].
  destruct (_parse_element _ title_elem "" None) as [[n|] s1] eqn:Epe;
    [|discriminate].
  intros [= <- <-]. exists doc_root, title_elem. repeat split; assumption.
Qed.

(** X15. [parse_file] never resets the counters of the parser object:
    the totals of a result are the counters the parser had before the
    call plus the nodes, the sections and the repealed sections of the
    tree of this call, and the parser keeps them for the next one. *)
Theorem parser_counters_accumulate fs self path p self' :
  parse_file fs self path = (inr p, self') ->
  total_nodes p = total_nodes_ self + List.length (flatten_nodes (root p))
  /\ total_sections p
     = sections_parsed self + List.length (get_all_sections (root p))
  /\ repealed_sections p
     = List.app (repealed_sections_ self)
                (repealed_ids (flatten_nodes (root p)))
  /\ total_nodes_ self' = total_nodes p
  /\ sections_parsed self' = total_sections p.
Proof.
  intros H.
  destruct (parse_file_inr _ _ _ _ _ H)
    as (doc_root & title_elem & _ & _ & Hroot & Hsec & Hnodes & Hrep).
  pose proof (parse_element_accounts title_elem self "" None)
    as (_ & HN & HS & HR).
  rewrite Hroot in HN, HS, HR. cbn [fst snd opt_nodes] in HN, HS, HR.
  unfold get_all_sections. rewrite flatten_nodes_nodes.
  rewrite Hnodes, Hsec, Hrep, HN, HS, HR. repeat split; reflexivity.
Qed.

Lemma parser_counters_accumulate_witness :
  match parse_file Examples.fs used_parser "usc26.xml" with
  | (inr p, self') =>
      total_nodes_ used_parser = 8 /\ total_nodes p = 16
      /\ total_sections p = 6
      /\ total_nodes p
         = total_nodes_ used_parser + List.length (flatten_nodes (root p))
      /\ total_sections p
         = sections_parsed used_parser
           + List.length (get_all_sections (root p))
      /\ repealed_sections p
         = List.app (repealed_sections_ used_parser)
                    (repealed_ids (flatten_nodes (root p)))
      /\ total_nodes_ self' = total_nodes p
      /\ sections_parsed self' = total_sections p
  | (inl _, _) => False
  end.
Proof.
  destruct (parse_file Examples.fs used_parser "usc26.xml") as [[e|p] self']
    eqn:E; [vm_compute in E; discriminate|].
  split; [reflexivity|]. split; [vm_compute in E; now inversion E|].
  split; [vm_compute in E; now inversion E|].
  exact (parser_counters_accumulate _ _ _ _ _ E).
Defined.

Lemma parse_element_hit self e pp pid :
  limit_hit self = true -> _parse_element self e pp pid = (None, self).
Proof. intros H. rewrite parse_element_eq, H. reflexivity. Qed.

(** X16. A parser object whose parse has reached its positive cutoff
    cannot parse again: on every document with a title element
    [parse_file] then raises the [ValueError] of a root that failed to
    parse, and leaves the parser as it was. *)
Theorem exhausted_parser_fails fs self path p self' k :
  parse_file fs self path = (inr p, self') ->
  max_sections self = Some k -> (0 < k)%Z ->
  (k <= Z.of_nat (total_sections p))%Z ->
  forall path' doc_root title_elem,
    fs path' = Document doc_root ->
    find_title doc_root = Some title_elem ->
    parse_file fs self' path'
    = (inl (ValueError "Failed to parse root title element"), self').
Proof.
  intros H Hmax Hk Hfull path' doc_root title_elem Hfs Htitle.
  destruct (parse_file_inr _ _ _ _ _ H)
    as (d0 & t0 & _ & _ & Hroot & Hsec & _ & _).
  pose proof (parse_element_accounts t0 self "" None) as (HM & _ & _ & _).
  rewrite Hroot in HM. cbn [snd] in HM.
  assert (limit_hit self' = true) as Hhit.
  { rewrite (limit_hit_some self' k) by congruence.
    apply Nat.leb_le. lia. }
  unfold parse_file. rewrite Hfs, Htitle, (parse_element_hit _ _ _ _ Hhit).
  reflexivity.
Qed.

Lemma exhausted_parser_fails_witness :
  match parse_file Examples.fs (USLMParser_init (Some 2%Z)) "usc26.xml" with
  | (inr p, self') =>
      total_sections p = 2
      /\ parse_file Examples.fs self' "usc26.xml"
         = (inl (ValueError "Failed to parse root title element"), self')
  | (inl _, _) => False
  end.
Proof.
  destruct (parse_file Examples.fs (USLMParser_init (Some 2%Z)) "usc26.xml")
    as [[e|p] self'] eqn:E; [vm_compute in E; discriminate|].
  assert (total_sections p = 2) as H2 by (vm_compute in E; now inversion E).
  split; [exact H2|].
  apply (exhausted_parser_fails _ _ _ _ _ 2%Z E eq_refl ltac:(lia)
           ltac:(rewrite H2; lia) "usc26.xml" Examples.doc Examples.title26);
    reflexivity.
Defined.

(** ** The tree a cutoff leaves *)

Lemma parse_children_hit hp nid cs s :
  limit_hit s = true -> parse_children hp nid cs s = ([], s).
Proof.
  intros H. induction cs as [|c cs IH]; [reflexivity|].
  cbn [parse_children]. destruct (is_structural c); [|exact IH].
  rewrite (parse_element_hit _ _ _ _ H), IH. reflexivity.
Qed.

Lemma last_cons_nonempty {A} (x : A) (l : list A) (d : A) :
  l <> [] -> List.last (x :: l) d = List.last l d.
Proof. destruct l; [congruence | reflexivity]. Qed.

Lemma last_app_nonempty {A} (l1 l2 : list A) (d : A) :
  l2 <> [] -> List.last (List.app l1 l2) d = List.last l2 d.
Proof.
  intros H. induction l1 as [|x l1 IH]; [reflexivity|].
  cbn [List.app]. rewrite last_cons_nonempty; [exact IH|].
  destruct l1; [exact H | discriminate].
Qed.

Lemma track_hits_on_section self k nt st id :
  max_sections self = Some k -> (0 < k)%Z ->
  limit_hit self = false -> limit_hit (track self nt st id) = true ->
  nt = SECTION.
Proof.
  intros Hmax Hk Hlow Hhit.
  destruct (track_effect self nt st id) as (HM & _ & HS & _).
  rewrite (limit_hit_some self k) in Hlow by assumption.
  rewrite (limit_hit_some (track self nt st id) k) in Hhit by congruence.
  apply Nat.leb_gt in Hlow. apply Nat.leb_le in Hhit.
  rewrite HS in Hhit. unfold section_count in Hhit.
  destruct (NodeType_eqb nt SECTION) eqn:Ent; [|lia].
  destruct nt; try discriminate Ent. reflexivity.
Qed.

Section CutAtSection.
Variable k : Z.
Hypothesis Hk : (0 < k)%Z.

Lemma parse_children_cut (cs : list element) :
  Forall (cut_at_section k) cs ->
  forall hp nid s,
    max_sections s = Some k -> limit_hit s = false ->
    limit_hit (snd (parse_children hp nid cs s)) = true ->
    ends_at_section (forest_nodes (fst (parse_children hp nid cs s))).
Proof.
  induction 1 as [|c cs' Hc _ IHcs]; intros hp nid s Hmax Hlow.
  - cbn [parse_children snd]. congruence.
  - cbn [parse_children].
    destruct (is_structural c); [|apply IHcs; assumption].
    specialize (Hc s hp (Some nid) Hmax Hlow).
    pose proof (parse_element_accounts c s hp (Some nid)) as (HM & _).
    destruct (_parse_element s c hp (Some nid)) as [r s1].
    cbn [fst snd] in *.
    destruct (limit_hit s1) eqn:Hs1.
    + rewrite (parse_children_hit _ _ _ _ Hs1). cbn [fst snd]. intros _.
      rewrite forest_nodes_cons_opt. cbn [forest_nodes flat_map].
      rewrite app_nil_r. exact (Hc eq_refl).
    + specialize (IHcs hp nid s1 ltac:(congruence) Hs1).
      destruct (parse_children hp nid cs' s1) as [rest s2].
      cbn [fst snd] in *. intros Hhit.
      destruct (IHcs Hhit) as [Hne Hlast].
      rewrite forest_nodes_cons_opt. split.
      * destruct (opt_nodes r); [exact Hne | discriminate].
      * intros d. rewrite last_app_nonempty by exact Hne. apply Hlast.
Qed.

Lemma parse_element_cut (e : element) : cut_at_section k e.
Proof.
  induction e as [t a tx tl cs IH] using element_ind'.
  intros self pp pid Hmax Hlow. rewrite parse_element_eq, Hlow.
  destruct (node_type_of _) as [nt|] eqn:Ent;
    [|cbn [snd]; congruence].
  cbn [children].
  set (elem := Element t a tx tl cs) in *.
  set (s1 := track self nt (_determine_status elem) (elem_id elem nt)).
  pose proof (parse_children_cut cs IH (elem_path pp elem nt)
                (elem_id elem nt) s1) as HC.
  assert (max_sections s1 = Some k) as Hmax1.
  { unfold s1. destruct (track_effect self nt (_determine_status elem)
                                      (elem_id elem nt)) as (HM & _).
    congruence. }
  destruct (limit_hit s1) eqn:Hs1.
  - rewrite (parse_children_hit _ _ _ _ Hs1). cbn [fst snd opt_nodes].
    intros _.
    pose proof (track_hits_on_section _ _ _ _ _ Hmax Hk Hlow Hs1) as ->.
    split; [rewrite nodes_eq; discriminate|].
    intros d. split; reflexivity.
  - specialize (HC Hmax1 eq_refl).
    destruct (parse_children _ _ cs s1) as [kids s2].
    cbn [fst snd opt_nodes] in *. intros Hhit.
    destruct (HC Hhit) as [Hne Hlast].
    rewrite nodes_eq. cbn [make_node Node.children].
    split; [discriminate|].
    intros d. rewrite last_cons_nonempty by exact Hne. apply Hlast.
Qed.

End CutAtSection.

(** X17. When a parse with a positive cutoff reports as many sections
    as the cutoff allows, the node created last, the last of the tree in
    pre-order, is a section, and it has no children: the parts of the
    section that reached the cutoff are not parsed. *)
Theorem cutoff_ends_tree_at_a_childless_section fs path k p :
  (0 < k)%Z ->
  parse_tax_code fs path (Some k) = inr p ->
  total_sections p = Z.to_nat k ->
  is_section (last_node (root p)) = true
  /\ is_leaf (last_node (root p)) = true.
Proof.
  intros Hk H Hfull.
  destruct (parse_tax_code_inr _ _ _ _ H)
    as (doc_root & title_elem & _ & _ & Hroot & Hsec & _ & _).
  pose proof (parse_element_accounts title_elem (USLMParser_init (Some k))
                "" None) as (HM & _).
  pose proof (parse_element_cut k Hk title_elem (USLMParser_init (Some k))
                "" None eq_refl) as HC.
  rewrite Hroot in HC. cbn [opt_nodes] in HC.
  destruct HC as [_ Hlast].
  - rewrite limit_hit_init. cbn [negative_cutoff]. apply Z.ltb_ge. lia.
  - rewrite (limit_hit_some _ k) by first [rewrite HM; reflexivity | assumption].
    apply Nat.leb_le. cbn zeta in Hsec. lia.
  - exact (Hlast (root p)).
Qed.

Lemma cutoff_ends_tree_at_a_childless_section_witness :
  match parse_tax_code Examples.fs "usc26.xml" (Some 2%Z) with
  | inr p =>
      Node.id (last_node (root p)) = "26 USC 2"
      /\ is_section (last_node (root p)) = true
      /\ is_leaf (last_node (root p)) = true
  | inl _ => False
  end.
Proof.
  run_parse E. split.
  - vm_compute in E. inversion E. reflexivity.
  - apply (cutoff_ends_tree_at_a_childless_section _ _ 2%Z _ ltac:(lia) E).
    vm_compute in E. now inversion E.
Defined.

(** ** Citations of well-formed identifiers *)

Lemma append_nil_r (s : string) : s ++ "" = s.
Proof. induction s as [|c s IH]; [reflexivity|]. cbn. now rewrite IH. Qed.

Lemma split_no_slash (s : string) :
  no_slash s = true -> Py.split "/" s = [s].
Proof.
  unfold no_slash. induction s as [|c s IH]; [reflexivity|].
  cbn [Py.has_char Py.split]. rewrite negb_true_iff, orb_false_iff.
  intros [Hc Hs]. rewrite Ascii.eqb_sym, Hc, IH by now rewrite Hs.
  reflexivity.
Qed.

Lemma split_app_slash (x r : string) :
  no_slash x = true ->
  Py.split "/" (x ++ String "/" r) = x :: Py.split "/" r.
Proof.
  unfold no_slash. induction x as [|c x IH]; [reflexivity|].
  cbn [Py.has_char String.append Py.split].
  rewrite negb_true_iff, orb_false_iff.
  intros [Hc Hs]. rewrite Ascii.eqb_sym, Hc.
  rewrite IH by now rewrite Hs. reflexivity.
Qed.

Lemma split_join (parts : list string) :
  parts <> [] -> forallb no_slash parts = true ->
  Py.split "/" (Py.join "/" parts) = parts.
Proof.
  induction parts as [|x l IH]; [congruence|]. intros _.
  cbn [forallb]. rewrite andb_true_iff. intros [Hx Hl].
  destruct l as [|y l].
  - cbn [Py.join]. now apply split_no_slash.
  - change (Py.join "/" (x :: y :: l))
      with (x ++ String "/" (Py.join "/" (y :: l))).
    rewrite split_app_slash by exact Hx.
    rewrite IH by (discriminate || exact Hl). reflexivity.
Qed.

Lemma rstrip_kept (p : ascii -> bool) (s : string) :
  Py.truthy s = true ->
  (forall c, Py.has_char c s = true -> p c = false) ->
  Py.rstrip_by p s = s.
Proof.
  induction s as [|c s IH]; [discriminate|]. intros _ H.
  cbn [Py.rstrip_by].
  assert (p c = false) as Hc
    by (apply H; cbn [Py.has_char]; now rewrite Ascii.eqb_refl).
  destruct s as [|c' s'].
  - cbn [Py.rstrip_by]. now rewrite Hc.
  - rewrite IH; [reflexivity | reflexivity |].
    intros a Ha. apply H. cbn [Py.has_char] in *. rewrite Ha.
    apply orb_true_r.
Qed.

Lemma rstrip_app_kept (p : ascii -> bool) (a b : string) :
  Py.truthy (Py.rstrip_by p b) = true ->
  Py.rstrip_by p (a ++ b) = a ++ Py.rstrip_by p b.
Proof.
  intros H. induction a as [|c a IH]; [reflexivity|].
  cbn [String.append Py.rstrip_by]. rewrite IH.
  destruct (a ++ Py.rstrip_by p b) eqn:E; [|reflexivity].
  destruct a; [|discriminate E]. cbn [String.append] in E.
  rewrite E in H. discriminate H.
Qed.

Lemma no_slash_kept (s : string) :
  no_slash s = true ->
  forall c, Py.has_char c s = true -> Py.has_char c "/" = false.
Proof.
  unfold no_slash. rewrite negb_true_iff. intros H c Hc.
  cbn [Py.has_char]. rewrite orb_false_r.
  destruct (Ascii.eqb_spec c "/") as [->|]; [congruence | reflexivity].
Qed.

(** A joined path whose last segment is not empty keeps its end under
    [strip("/")]. *)
Lemma rstrip_join (parts : list string) :
  forallb no_slash parts = true ->
  Py.truthy (List.last parts "") = true ->
  Py.rstrip_by (fun c => Py.has_char c "/") (Py.join "/" parts)
  = Py.join "/" parts
  /\ Py.truthy (Py.join "/" parts) = true.
Proof.
  induction parts as [|x l IH]; [discriminate 2|].
  cbn [forallb]. rewrite andb_true_iff. intros [Hx Hl] Hlast.
  destruct l as [|y l].
  - cbn [Py.join List.last] in *. split; [|exact Hlast].
    apply rstrip_kept; [exact Hlast | now apply no_slash_kept].
  - change (Py.join "/" (x :: y :: l)) with (x ++ "/" ++ Py.join "/" (y :: l)).
    destruct (IH Hl Hlast) as [IH1 IH2].
    rewrite <- append_assoc, rstrip_app_kept by now rewrite IH1.
    rewrite IH1. split; [reflexivity|].
    destruct x; [reflexivity | reflexivity].
Qed.

Lemma citation_step_sub_part (acc : list string) (p : string) :
  sub_part p = true ->
  citation_step (true, acc) p = (true, List.app acc [parenthesised p]).
Proof.
  unfold sub_part. rewrite !andb_true_iff, !negb_true_iff.
  intros [[[[_ _] Hs] Hch] Hpt].
  unfold citation_step. rewrite Hs, Hch, Hpt.
  destruct p as [|c p']; [reflexivity|].
  cbn [Py.startswith] in *. rewrite andb_true_r in Hs. rewrite Hs.
  reflexivity.
Qed.

Lemma citation_loop_sub_parts (ps : list string) :
  forallb sub_part ps = true ->
  forall acc,
    fold_left citation_step ps (true, acc)
    = (true, List.app acc (map parenthesised ps)).
Proof.
  induction ps as [|p ps IH]; intros H acc; cbn [fold_left map].
  - now rewrite app_nil_r.
  - cbn [forallb] in H. apply andb_true_iff in H. destruct H as [Hp Hps].
    rewrite (citation_step_sub_part _ _ Hp), (IH Hps), <- app_assoc.
    reflexivity.
Qed.

Lemma sub_part_no_slash (ps : list string) :
  forallb sub_part ps = true -> forallb no_slash ps = true.
Proof.
  induction ps as [|p ps IH]; [reflexivity|].
  cbn [forallb]. rewrite !andb_true_iff. intros [Hp Hps].
  split; [|exact (IH Hps)].
  unfold sub_part in Hp. rewrite !andb_true_iff in Hp. tauto.
Qed.

Lemma sub_part_last_truthy (x : string) (ps : list string) :
  Py.truthy x = true -> forallb sub_part ps = true ->
  Py.truthy (List.last (x :: ps) "") = true.
Proof.
  revert x. induction ps as [|p ps IH]; intros x Hx H; [exact Hx|].
  cbn [forallb] in H. apply andb_true_iff in H. destruct H as [Hp Hps].
  change (List.last (x :: p :: ps) "") with (List.last (p :: ps) "").
  apply IH; [|exact Hps].
  unfold sub_part in Hp. rewrite !andb_true_iff in Hp. tauto.
Qed.

(** X18. For the identifier [/us/usc/<t>/s<sec>/<p1>/.../<pn>], where no
    segment holds a slash and no [<pi>] is empty or starts with "s", "ch"
    or "pt", the citation is "26 USC ", the section number, and every
    [<pi>] in parentheses, whatever the node type and the num. *)
Theorem citation_of_section_path
        (node_type : NodeType) (num : option string)
        (t sec : string) (ps : list string) :
  no_slash t = true -> no_slash sec = true -> forallb sub_part ps = true ->
  _build_citation_id node_type num (section_identifier t sec ps)
  = "26 USC " ++ sec ++ Py.join "" (map parenthesised ps).
Proof.
  intros Ht Hsec Hps.
  set (parts := "us" :: "usc" :: t :: ("s" ++ sec) :: ps).
  assert (forallb no_slash parts = true) as Hparts.
  { unfold parts. cbn [forallb]. rewrite Ht, (sub_part_no_slash _ Hps).
    cbn [andb]. unfold no_slash in *. cbn [String.append Py.has_char].
    rewrite negb_true_iff in Hsec. now rewrite Hsec. }
  assert (Py.truthy (List.last parts "") = true) as Hlast.
  { unfold parts.
    change (List.last ("us" :: "usc" :: t :: ("s" ++ sec) :: ps) "")
      with (List.last (("s" ++ sec) :: ps) "").
    now apply sub_part_last_truthy. }
  destruct (rstrip_join parts Hparts Hlast) as [Hstrip _].
  assert (Py.strip_chars "/" (section_identifier t sec ps)
          = Py.join "/" parts) as Eid.
  { unfold Py.strip_chars, Py.strip_by, section_identifier. fold parts.
    replace (Py.lstrip_by (fun c => Py.has_char c "/")
               ("/" ++ Py.join "/" parts))
      with (Py.join "/" parts) by reflexivity.
    exact Hstrip. }
  unfold _build_citation_id.
  replace (Py.truthy (section_identifier t sec ps)) with true by reflexivity.
  cbn [negb]. rewrite Eid, split_join by (discriminate || exact Hparts).
  unfold parts at 1 2 3. cbn [List.length Nat.leb nth String.eqb Ascii.eqb
                               Bool.eqb andb].
  replace (String.eqb "us" "us") with true by reflexivity.
  replace (String.eqb "usc" "usc") with true by reflexivity.
  cbn [andb]. unfold parts. cbn [skipn].
  unfold citation_loop. cbn [fold_left].
  change ("s" ++ sec) with (String "s" sec).
  rewrite citation_step_s. cbn [snd List.app].
  rewrite (citation_loop_sub_parts _ Hps). cbn [snd List.app].
  destruct (map parenthesised ps) as [|q qs] eqn:E.
  - cbn [Py.join]. now rewrite append_nil_r.
  - change (Py.join "" (sec :: q :: qs)) with (sec ++ "" ++ Py.join "" (q :: qs)).
    reflexivity.
Qed.

Lemma citation_of_section_path_witness :
  no_slash "t26" = true /\ no_slash "162" = true
  /\ forallb sub_part ["a"; "1"] = true
  /\ section_identifier "t26" "162" ["a"; "1"] = "/us/usc/t26/s162/a/1"
  /\ _build_citation_id PARAGRAPH (Some "(1)")
       (section_identifier "t26" "162" ["a"; "1"])
     = "26 USC " ++ "162" ++ Py.join "" (map parenthesised ["a"; "1"]).
Proof.
  split; [reflexivity|]. split; [reflexivity|]. split; [reflexivity|].
  split; [reflexivity|].
  exact (citation_of_section_path PARAGRAPH (Some "(1)") "t26" "162"
           ["a"; "1"] eq_refl eq_refl eq_refl).
Defined.

(** ** Equality of references *)

(** X19. No two of the references [extract_references] returns for a
    text are equal under [Reference.__eq__]. *)
Theorem extracted_references_pairwise_unequal
        (text : string) (i j : nat) (d : Reference) :
  i < j -> j < List.length (extract_references text) ->
  Reference_eq (nth i (extract_references text) d)
               (nth j (extract_references text) d) = false.
Proof.
  intros Hij Hj.
  pose proof (extract_references_distinct_targets text) as ND.
  rewrite NoDup_nth with (d := target_section d) in ND.
  unfold Reference_eq.
  destruct (String.eqb_spec (target_section (nth i (extract_references text) d))
                            (target_section (nth j (extract_references text) d)))
    as [E|]; [|reflexivity].
  rewrite <- !(map_nth target_section) in E.
  apply ND in E; rewrite ?length_map; lia.
Qed.

Lemma extracted_references_pairwise_unequal_witness :
  0 < 1
  /\ 1 < List.length (extract_references "section 162 or section 162(a)")
  /\ Reference_eq
       (nth 0 (extract_references "section 162 or section 162(a)")
            (mkReference "" "" ""))
       (nth 1 (extract_references "section 162 or section 162(a)")
            (mkReference "" "" "")) = false.
Proof.
  assert (1 < List.length (extract_references "section 162 or section 162(a)"))
    as H by (vm_compute; lia).
  split; [lia|]. split; [exact H|].
  exact (extracted_references_pairwise_unequal _ 0 1 _ ltac:(lia) H).
Defined.

(** ** Ingestion *)

Lemma create_nodes_batch_positive (nodes : list LegalNode) (batch_size : Z) :
  (0 < batch_size)%Z ->
  create_nodes_batch nodes batch_size
  = inr (List.length nodes,
         map (map node_data) (batches nodes (Z.to_nat batch_size))).
Proof.
  intros Hk. unfold create_nodes_batch.
  rewrite (py_range_positive _ _ Hk).
  rewrite (fold_batches node_data nodes (Z.to_nat batch_size)).
  fold (batches nodes (Z.to_nat batch_size)).
  rewrite batches_concat by lia. reflexivity.
Qed.

Lemma create_parent_relationships_batch_positive
      (rels : list (string * string)) (batch_size : Z) :
  (0 < batch_size)%Z ->
  create_parent_relationships_batch rels batch_size
  = inr (List.length rels,
         map (map rel_data) (batches rels (Z.to_nat batch_size))).
Proof.
  intros Hk. unfold create_parent_relationships_batch.
  rewrite (py_range_positive _ _ Hk).
  rewrite (fold_batches rel_data rels (Z.to_nat batch_size)).
  fold (batches rels (Z.to_nat batch_size)).
  rewrite batches_concat by lia. reflexivity.
Qed.

Lemma create_reference_relationships_batch_positive db refs batch_size :
  (0 < batch_size)%Z ->
  exists created not_found,
    create_reference_relationships_batch db refs batch_size
    = inr (created, not_found,
           map (map ref_data) (batches refs (Z.to_nat batch_size)))
    /\ (created + not_found = Z.of_nat (List.length refs))%Z.
Proof.
  intros Hk. unfold create_reference_relationships_batch.
  rewrite (py_range_positive _ _ Hk).
  set (k := Z.to_nat batch_size). assert (0 < k) as Hk' by lia.
  destruct (fold_reference_batches db refs k
              (map (fun j => j * k)
                   (seq 0 ((List.length refs + k - 1) / k)))
              0%Z 0%Z []) as (c & nf & E & HS).
  exists c, nf. split; [f_equal; exact E|].
  fold (batches refs k) in HS.
  rewrite (batches_concat _ k Hk') in HS. lia.
Qed.

(** X20. For a freshly parsed code, [ingest_tax_code] creates as many
    nodes as the parse reports in [total_nodes] and one parent
    relationship less, and the references it reports as created and as not
    found add up to the number of [get_all_references], whatever counts
    the database reports. *)
Theorem ingest_counts_match_parse db fs path max p :
  parse_tax_code fs path max = inr p ->
  exists stats,
    ingest_tax_code db p = inr stats
    /\ nodes_created stats = total_nodes p
    /\ S (parent_relationships stats) = total_nodes p
    /\ (reference_relationships stats + references_not_found stats
        = Z.of_nat (List.length (get_all_references p)))%Z.
Proof.
  intros H.
  destruct (parse_tax_code_inr _ _ _ _ H)
    as (doc_root & title_elem & _ & _ & Hroot & _ & Hnodes & _).
  pose proof (parse_element_accounts title_elem (USLMParser_init max) "" None)
    as (_ & HN & _ & _).
  rewrite Hroot in HN. cbn [opt_nodes USLMParser_init total_nodes_] in HN.
  cbn zeta in Hnodes. rewrite HN in Hnodes. cbn [Nat.add] in Hnodes.
  unfold ingest_tax_code.
  rewrite create_nodes_batch_positive by lia.
  rewrite create_parent_relationships_batch_positive by lia.
  destruct (create_reference_relationships_batch_positive db
              (extract_all_references (root p)) 100 ltac:(lia))
    as (c & nf & -> & Hsum).
  eexists. split; [reflexivity|].
  cbn [nodes_created parent_relationships reference_relationships
       references_not_found].
  rewrite Hnodes.
  split; [reflexivity|]. split.
  - rewrite (nodes_eq (root p)). cbn [List.length]. f_equal.
    rewrite <- (length_map snd), extract_parent_relationships_children.
    now rewrite length_map.
  - unfold get_all_references. rewrite collect_refs_app. cbn [List.app].
    exact Hsum.
Qed.

Lemma ingest_counts_match_parse_witness :
  match parse_tax_code Examples.fs "usc26.xml" None with
  | inr p =>
      total_nodes p = 8
      /\ exists stats,
           ingest_tax_code (fun _ _ => 0%Z) p = inr stats
           /\ nodes_created stats = total_nodes p
           /\ S (parent_relationships stats) = total_nodes p
           /\ (reference_relationships stats + references_not_found stats
               = Z.of_nat (List.length (get_all_references p)))%Z
  | inl _ => False
  end.
Proof.
  run_parse E. split; [vm_compute in E; now inversion E|].
  exact (ingest_counts_match_parse (fun _ _ => 0%Z) _ _ _ _ E).
Defined.

(** ** Statistics *)

Lemma dict_get_set_same key value d default :
  dict_get key (dict_set key value d) default = value.
Proof.
  induction d as [|[k v] d IH]; cbn [dict_set dict_get].
  - now rewrite String.eqb_refl.
  - destruct (String.eqb k key) eqn:E; cbn [dict_get]; rewrite E;
      [reflexivity | exact IH].
Qed.

Lemma dict_get_set_other key key' value d default :
  key' <> key ->
  dict_get key (dict_set key' value d) default = dict_get key d default.
Proof.
  intros Hne. induction d as [|[k v] d IH]; cbn [dict_set dict_get].
  - destruct (String.eqb_spec key' key); [congruence | reflexivity].
  - destruct (String.eqb_spec k key') as [->|]; cbn [dict_get].
    + destruct (String.eqb_spec key' key); [congruence | reflexivity].
    + destruct (String.eqb k key); [reflexivity | exact IH].
Qed.

Lemma NodeType_value_inj (a b : NodeType) :
  NodeType_value a = NodeType_value b -> a = b.
Proof. destruct a, b; cbn; intros H; (reflexivity || discriminate H). Qed.

Lemma NodeType_eqb_eq (a b : NodeType) : NodeType_eqb a b = true <-> a = b.
Proof. destruct a, b; cbn; split; intros H; (reflexivity || discriminate H). Qed.

Lemma count_one (nt : NodeType) (n : LegalNode) (counts : dict) :
  let key := NodeType_value (Node.node_type n) in
  dict_get (NodeType_value nt)
           (dict_set key (dict_get key counts 0 + 1) counts) 0
  = dict_get (NodeType_value nt) counts 0
    + (if has_type nt n then 1 else 0).
Proof.
  cbn zeta. unfold has_type.
  destruct (NodeType_eqb (Node.node_type n) nt) eqn:E.
  - apply NodeType_eqb_eq in E. rewrite E. apply dict_get_set_same.
  - rewrite dict_get_set_other; [lia|].
    intros H. apply NodeType_value_inj in H.
    apply NodeType_eqb_eq in H. congruence.
Qed.

Lemma fold_count_by_type (nt : NodeType) (cs : list LegalNode) :
  Forall (fun c => forall counts,
            dict_get (NodeType_value nt) (count_by_type c counts) 0
            = dict_get (NodeType_value nt) counts 0
              + List.length (filter (has_type nt) (flatten_nodes c))) cs ->
  forall counts,
    dict_get (NodeType_value nt)
             (fold_left (fun counts child => count_by_type child counts)
                        cs counts) 0
    = dict_get (NodeType_value nt) counts 0
      + List.length (filter (has_type nt) (flat_map flatten_nodes cs)).
Proof.
  induction 1 as [|c cs' Hc _ IHcs]; intros counts; cbn [fold_left flat_map].
  - cbn. lia.
  - rewrite IHcs, Hc, filter_app, length_app. lia.
Qed.

Lemma count_by_type_counts (nt : NodeType) (n : LegalNode) :
  forall counts,
    dict_get (NodeType_value nt) (count_by_type n counts) 0
    = dict_get (NodeType_value nt) counts 0
      + List.length (filter (has_type nt) (flatten_nodes n)).
Proof.
  induction n as [n IH] using node_ind'. intros counts.
  rewrite flatten_nodes_eq. cbn [filter].
  destruct n as [i idf t nu h tx st pid hp refs cs].
  cbn [count_by_type Node.node_type Node.children] in *.
  rewrite (fold_count_by_type nt cs IH).
  pose proof (count_one nt (Node.mk i idf t nu h tx st pid hp refs cs) counts)
    as H1.
  cbn [Node.node_type] in H1. cbn zeta in H1. rewrite H1.
  destruct (has_type nt _); cbn [List.length]; lia.
Qed.

(** X21. The dictionary [print_statistics] fills with [count_by_type]
    holds, for every node type, the number of nodes of that type in the
    tree; for a freshly parsed code its entry for sections is the
    [total_sections] printed above it. *)
Theorem type_counts_agree_with_totals fs path max p :
  parse_tax_code fs path max = inr p ->
  (forall nt,
      dict_get (NodeType_value nt) (statistics_type_counts p) 0
      = List.length (filter (has_type nt) (flatten_nodes (root p))))
  /\ dict_get "section" (statistics_type_counts p) 0 = total_sections p.
Proof.
  intros H. unfold statistics_type_counts.
  split; [intros nt; now rewrite count_by_type_counts|].
  destruct (parse_tax_code_inr _ _ _ _ H)
    as (doc_root & title_elem & _ & _ & Hroot & Hsec & _ & _).
  pose proof (parse_element_accounts title_elem (USLMParser_init max) "" None)
    as (_ & _ & HS & _).
  rewrite Hroot in HS. cbn [opt_nodes USLMParser_init sections_parsed] in HS.
  cbn zeta in Hsec. rewrite Hsec, HS.
  exact (count_by_type_counts SECTION (root p) []).
Qed.

Lemma type_counts_agree_with_totals_witness :
  match parse_tax_code Examples.fs "usc26.xml" None with
  | inr p =>
      statistics_type_counts p
      = [("title", 1); ("chapter", 1); ("section", 3); ("subsection", 3)]
      /\ (forall nt,
             dict_get (NodeType_value nt) (statistics_type_counts p) 0
             = List.length (filter (has_type nt) (flatten_nodes (root p))))
      /\ dict_get "section" (statistics_type_counts p) 0 = total_sections p
  | inl _ => False
  end.
Proof.
  run_parse E. split.
  - vm_compute in E. inversion E. reflexivity.
  - exact (type_counts_agree_with_totals _ _ _ _ E).
Defined.

Lemma ref_types_general (refs : list (string * Reference)) :
  Forall (fun r => reference_type (snd r) = "general") refs ->
  forall n,
    fold_left
      (fun ref_types '(_, ref) =>
         dict_set (reference_type ref)
                  (dict_get (reference_type ref) ref_types 0 + 1) ref_types)
      refs [("general", n)]
    = [("general", n + List.length refs)].
Proof.
  induction 1 as [|[src r] refs Hr _ IH]; intros n; cbn [fold_left List.length].
  - now rewrite Nat.add_0_r.
  - cbn [snd] in Hr. rewrite Hr. cbn [dict_get dict_set].
    replace (String.eqb "general" "general") with true by reflexivity.
    rewrite IH. f_equal. f_equal. lia.
Qed.

(** X22. For a parsed code the dictionary of reference types
    [print_statistics] builds is empty when there are no references, and
    otherwise holds the single key general with the number of all
    references. *)
Theorem reference_types_only_general fs path max p :
  parse_tax_code fs path max = inr p ->
  statistics_ref_types p
  = match get_all_references p with
    | [] => []
    | _ :: _ => [("general", List.length (get_all_references p))]
    end.
Proof.
  intros H. unfold statistics_ref_types, ref_types.
  assert (Forall (fun r => reference_type (snd r) = "general")
                 (get_all_references p)) as HG.
  { apply Forall_forall. intros [src r] Hin. cbn [snd].
    unfold get_all_references in Hin.
    rewrite collect_refs_app, extract_all_references_flat in Hin.
    cbn [List.app] in Hin.
    apply in_flat_map in Hin. destruct Hin as (n & Hn & Hr).
    unfold own_references in Hr. apply in_map_iff in Hr.
    destruct Hr as (r' & [= <- <-] & Hr).
    destruct (built_nodes _ _ _ (parse_tax_code_built _ _ _ _ H) n Hn)
      as (elem & pp & pid & nt & kids & -> & _ & _).
    exact (extract_references_all_general _ _ Hr). }
  destruct (get_all_references p) as [|[src r] refs]; [reflexivity|].
  inversion HG as [|? ? Hr HG']; subst. cbn [snd] in Hr.
  cbn [fold_left]. rewrite Hr. cbn [dict_get dict_set Nat.add].
  rewrite (ref_types_general refs HG' 1). reflexivity.
Qed.

Lemma reference_types_only_general_witness :
  match parse_tax_code Examples.fs "usc26.xml" None with
  | inr p =>
      statistics_ref_types p = [("general", 1)]
      /\ statistics_ref_types p
         = match get_all_references p with
           | [] => []
           | _ :: _ => [("general", List.length (get_all_references p))]
           end
  | inl _ => False
  end.
Proof.
  run_parse E. split.
  - vm_compute in E. inversion E. reflexivity.
  - exact (reference_types_only_general _ _ _ _ E).
Defined.

(** ** The tree and the document *)

Lemma parse_children_mirror (cs : list element) :
  Forall mirrors cs ->
  forall hp nid s,
    max_sections s = None ->
    map node_summary (forest_nodes (fst (parse_children hp nid cs s)))
    = map elem_summary
        (flat_map (fun c => if is_structural c then structural_elements c
                            else []) cs).
Proof.
  induction 1 as [|c cs' Hc _ IHcs]; intros hp nid s Hmax; [reflexivity|].
  cbn [parse_children flat_map].
  destruct (is_structural c) eqn:Ec; [|apply IHcs; exact Hmax].
  specialize (Hc s hp (Some nid) Hmax Ec).
  pose proof (parse_element_accounts c s hp (Some nid)) as (HM & _).
  destruct (_parse_element s c hp (Some nid)) as [r s1].
  cbn [fst snd] in *.
  specialize (IHcs hp nid s1 ltac:(congruence)).
  destruct (parse_children hp nid cs' s1) as [rest s2].
  cbn [fst] in *.
  rewrite forest_nodes_cons_opt, !map_app, Hc, IHcs. reflexivity.
Qed.

Lemma parse_element_mirror (e : element) : mirrors e.
Proof.
  induction e as [t a tx tl cs IH] using element_ind'.
  intros self pp pid Hmax Hstruct. rewrite parse_element_eq.
  rewrite (limit_hit_none _ Hmax).
  unfold is_structural in Hstruct.
  destruct (node_type_of _) as [nt|] eqn:Ent; [|discriminate].
  cbn [children].
  set (elem := Element t a tx tl cs) in *.
  set (s1 := track self nt (_determine_status elem) (elem_id elem nt)).
  assert (max_sections s1 = None) as Hmax1.
  { unfold s1. destruct (track_effect self nt (_determine_status elem)
                                      (elem_id elem nt)) as (HM & _).
    congruence. }
  pose proof (parse_children_mirror cs IH (elem_path pp elem nt)
                (elem_id elem nt) s1 Hmax1) as HC.
  destruct (parse_children _ _ cs s1) as [kids s2].
  cbn [fst opt_nodes] in *. rewrite nodes_eq.
  cbn [make_node Node.children map]. rewrite HC.
  unfold elem, structural_elements at 2. fold structural_elements.
  cbn [map]. f_equal.
  unfold node_summary, elem_summary. cbn [Node.identifier Node.node_type
                                          Node.text Node.status].
  fold elem. now rewrite Ent.
Qed.

(** X23. Parsed without a cutoff, the tree has one node for the title
    element and for every structural element reachable from it through
    structural elements only, in document order, each node with the
    identifier, the type, the text and the status of its element; a
    structural element below an element that is not structural gets no
    node. *)
Theorem parsed_tree_mirrors_structural_elements fs path p :
  parse_tax_code fs path None = inr p ->
  exists doc_root title_elem,
    fs path = Document doc_root
    /\ find_title doc_root = Some title_elem
    /\ map node_summary (flatten_nodes (root p))
       = map elem_summary (structural_elements title_elem).
Proof.
  intros H.
  destruct (parse_tax_code_inr _ _ _ _ H)
    as (doc_root & title_elem & Hfs & Htitle & Hroot & _).
  exists doc_root, title_elem. split; [exact Hfs|]. split; [exact Htitle|].
  pose proof (parse_element_mirror title_elem (USLMParser_init None) "" None
                eq_refl) as HM.
  rewrite Hroot in HM. cbn [opt_nodes] in HM. apply HM.
  unfold is_structural. now rewrite (find_title_type _ _ Htitle).
Qed.

Lemma parsed_tree_mirrors_structural_elements_witness :
  match parse_tax_code Examples.fs "usc26.xml" None with
  | inr p =>
      List.length (flatten_nodes (root p)) = 8
      /\ exists doc_root title_elem,
           Examples.fs "usc26.xml" = Document doc_root
           /\ find_title doc_root = Some title_elem
           /\ map node_summary (flatten_nodes (root p))
              = map elem_summary (structural_elements title_elem)
  | inl _ => False
  end.
Proof.
  run_parse E. split.
  - vm_compute in E. inversion E. reflexivity.
  - exact (parsed_tree_mirrors_structural_elements _ _ _ E).
Defined.

(** ** Node types and tags *)

(** X24. An element is structural, with node type [nt], exactly when the
    local name of its tag is the value of [nt]: the type of a node names
    the tag of its element. *)
Theorem node_type_names_the_tag (e : element) (nt : NodeType) :
  node_type_of e = Some nt <-> local_tag e = Some (NodeType_value nt).
Proof.
  unfold node_type_of. destruct (local_tag e) as [l|]; [|split; discriminate].
  split.
  - unfold ELEMENT_TO_NODE_TYPE. cbn [table_get].
    repeat match goal with
           | |- context [String.eqb ?k l] =>
               destruct (String.eqb_spec k l) as [<-|];
               [intros [= <-]; reflexivity|]
           end.
    discriminate.
  - intros [= ->]. destruct nt; reflexivity.
Qed.

(** ** The printed hierarchy *)

Lemma levels_eq (d : nat) (n : LegalNode) :
  levels d n = (d, n) :: flat_map (levels (S d)) (Node.children n).
Proof. destruct n; reflexivity. Qed.

Lemma levels_depth (n : LegalNode) :
  forall d dn, In dn (levels d n) -> d <= fst dn.
Proof.
  induction n as [n IH] using node_ind'. intros d dn.
  rewrite levels_eq. intros [<- | Hin]; [cbn; lia|].
  apply in_flat_map in Hin. destruct Hin as (c & Hc & Hdn).
  rewrite Forall_forall in IH. specialize (IH c Hc (S d) dn Hdn). lia.
Qed.

Lemma filter_none {A} (p : A -> bool) (l : list A) :
  (forall x, In x l -> p x = false) -> filter p l = [].
Proof.
  induction l as [|x l IH]; intros H; [reflexivity|].
  cbn [filter]. rewrite (H x (or_introl eq_refl)).
  apply IH. intros y Hy. apply H. now right.
Qed.

(** X25. For a depth argument [max_depth], [print_hierarchy] prints the
    nodes down to depth twice [max_depth]: in pre-order, for every node at
    most that deep, its line and then one line for each of its first three
    references; nothing is printed for a deeper node. *)
Theorem print_hierarchy_prints_to_twice_max_depth
        (n : LegalNode) (max_depth : Z) :
  forall indent,
    print_hierarchy n indent max_depth
    = flat_map node_lines
        (filter (within_depth (max_depth * 2)) (levels indent n)).
Proof.
  induction n as [n IH] using node_ind'. intros indent.
  destruct (Z.ltb_spec (max_depth * 2) (Z.of_nat indent)) as [Hdeep|Hok].
  - rewrite filter_none.
    + destruct n. cbn [print_hierarchy].
      destruct (Z.ltb_spec (max_depth * 2) (Z.of_nat indent)); [reflexivity|lia].
    + intros dn Hdn. apply levels_depth in Hdn.
      unfold within_depth. apply Z.leb_gt. lia.
  - rewrite levels_eq. cbn [filter]. unfold within_depth at 1. cbn [fst].
    destruct (Z.leb_spec (Z.of_nat indent) (max_depth * 2)) as [_|]; [|lia].
    cbn [flat_map]. unfold node_lines at 1. cbn [fst snd].
    destruct n as [i idf nt nu h tx st pid hp refs cs].
    cbn [print_hierarchy Node.references Node.children] in *.
    destruct (Z.ltb_spec (max_depth * 2) (Z.of_nat indent)); [lia|].
    destruct (Z.leb_spec (Z.of_nat indent) (max_depth * 2)); [|lia].
    rewrite andb_true_r.
    assert (flat_map (fun child => print_hierarchy child (S indent) max_depth) cs
            = flat_map node_lines
                (filter (within_depth (max_depth * 2))
                        (flat_map (levels (S indent)) cs))) as ->.
    { induction IH as [|c cs' Hc _ IHcs]; [reflexivity|].
      cbn [flat_map]. rewrite filter_app, flat_map_app, Hc, IHcs.
      reflexivity. }
    destruct refs as [|r refs]; reflexivity.
Qed.
